(** * SerialLoggerDeluxe v2.0.1: decoders, line reassembly, log writer

    A shallow embedding of the streaming and protocol-decoding pipeline of
    [src/Python/SerialLoggerDeluxev2.0.1.py].

    Conventions of the embedding.
    - A Python [int] is a [Z]; bit operations are [Z.lxor], [Z.land],
      [Z.shiftr].
    - A Python [bytes] object is a [list byte].
    - A Python [str] is a [string]; one [ascii] stands for one code point,
      so the model covers text in the range U+0000..U+00FF (what an ASCII or
      Latin-1 link delivers).
    - A function that can raise returns a [result]; [try ... except] is
      [try_except], which only catches the exceptions the source names. *)

From Stdlib Require Import ZArith NArith List Bool Lia.
From Stdlib Require Import Ascii String.
From Stdlib Require Import Init.Byte Strings.Byte.
From Stdlib Require Import DecimalString.
From Equations Require Import Equations.
Import ListNotations.

Local Open Scope string_scope.
Local Open Scope list_scope.
Local Open Scope Z_scope.

(** String concatenation, kept apart from list append. *)
Infix "+++" := String.append (at level 60, right associativity).

(** ** Exceptions *)

Inductive exn : Type :=
| ValueError
| IndexError
| TypeError
| JSONDecodeError
| OtherError (name : string).

Inductive result (A : Type) : Type :=
| Ok (a : A)
| Raise (e : exn).
Arguments Ok {A} a.
Arguments Raise {A} e.

Definition bind {A B : Type} (m : result A) (k : A -> result B) : result B :=
  match m with
  | Ok a => k a
  | Raise e => Raise e
  end.

Notation "x <- m ;; k" := (bind m (fun x => k))
  (at level 61, m at next level, right associativity).

(** [try: body except (handled): handler].  An exception outside [handled]
    propagates. *)
Definition try_except {A : Type} (body : result A) (handled : exn -> bool)
    (handler : result A) : result A :=
  match body with
  | Ok a => Ok a
  | Raise e => if handled e then handler else Raise e
  end.

Definition is_ValueError (e : exn) : bool :=
  match e with ValueError | JSONDecodeError => true | _ => false end.
Definition is_IndexError (e : exn) : bool :=
  match e with IndexError => true | _ => false end.
Definition is_JSONDecodeError (e : exn) : bool :=
  match e with JSONDecodeError => true | _ => false end.

(** ** Bytes *)

Definition bytes : Type := list byte.

Definition byte_val (b : byte) : Z := Z.of_N (Byte.to_N b).

(** The byte holding [z mod 256]. *)
Definition byte_of_Z (z : Z) : byte :=
  match Byte.of_N (Z.to_N (z mod 256)) with
  | Some b => b
  | None => x00
  end.

(** [int.from_bytes(bs, 'little')] *)
Fixpoint int_from_bytes_little (bs : bytes) : Z :=
  match bs with
  | [] => 0
  | b :: rest => byte_val b + 256 * int_from_bytes_little rest
  end.

(** [n.to_bytes(2, 'little')] for [0 <= n < 65536]. *)
Definition to_bytes_little2 (n : Z) : bytes :=
  [byte_of_Z (Z.land n 255); byte_of_Z (Z.shiftr n 8)].

(** Slices with a negative bound, as the Modbus decoder uses them. *)
Definition slice_to_m2 {A} (l : list A) : list A := firstn (List.length l - 2)%nat l.
Definition slice_from_m2 {A} (l : list A) : list A := skipn (List.length l - 2)%nat l.
Definition slice_2_to_m2 {A} (l : list A) : list A :=
  skipn 2 (firstn (List.length l - 2)%nat l).

(** ** [calculate_crc16] *)

(** One pass of the inner loop body:
    [if crc & 0x0001: crc >>= 1; crc ^= 0xA001  else: crc >>= 1]. *)
Definition crc16_shift (crc : Z) : Z :=
  if negb (Z.land crc 1 =? 0)
  then Z.lxor (Z.shiftr crc 1) 0xA001
  else Z.shiftr crc 1.

(** [for _ in range(n): ...] *)
Fixpoint crc16_bits (n : nat) (crc : Z) : Z :=
  match n with
  | O => crc
  | S n' => crc16_bits n' (crc16_shift crc)
  end.

(** The body of [for byte in data]. *)
Definition crc16_byte (crc : Z) (b : byte) : Z :=
  crc16_bits 8 (Z.lxor crc (byte_val b)).

Definition calculate_crc16 (data : bytes) : Z :=
  fold_left crc16_byte data 0xFFFF.

(** ** Python's [str] and [list] primitives used by the decoders *)

Definition LF : ascii := "010"%char.
Definition nl : string := String LF "".

Definition ord (c : ascii) : Z := Z.of_N (N_of_ascii c).

Definition in_range (lo hi x : Z) : bool := (lo <=? x) && (x <=? hi).

(** [str.isspace] on one code point below 256: TAB..CR, FS..US, space,
    NEL and NBSP. *)
Definition py_isspace (c : ascii) : bool :=
  let n := ord c in
  in_range 9 13 n || in_range 28 32 n || (n =? 133) || (n =? 160).

(** [Py_ISSPACE], the ASCII-only class used by [int] and [bytes.fromhex]. *)
Definition c_isspace (c : ascii) : bool :=
  let n := ord c in in_range 9 13 n || (n =? 32).

(** [str.lstrip()], [str.rstrip()], [str.strip()] *)
Fixpoint lstrip (s : string) : string :=
  match s with
  | String c s' => if py_isspace c then lstrip s' else s
  | EmptyString => EmptyString
  end.

Fixpoint rstrip (s : string) : string :=
  match s with
  | String c s' =>
      match rstrip s' with
      | EmptyString => if py_isspace c then EmptyString else String c EmptyString
      | r => String c r
      end
  | EmptyString => EmptyString
  end.

Definition strip (s : string) : string := rstrip (lstrip s).

(** [s.startswith(c)], [s.endswith(c)] and [c in s] for a one-character [c] *)
Definition startswith (s : string) (c : ascii) : bool :=
  match s with
  | String d _ => Ascii.eqb d c
  | EmptyString => false
  end.

Fixpoint endswith (s : string) (c : ascii) : bool :=
  match s with
  | EmptyString => false
  | String d EmptyString => Ascii.eqb d c
  | String _ s' => endswith s' c
  end.

Fixpoint contains (c : ascii) (s : string) : bool :=
  match s with
  | EmptyString => false
  | String d s' => Ascii.eqb d c || contains c s'
  end.

(** [s.split(sep)] for a one-character separator: always at least one
    piece. *)
Fixpoint split (sep : ascii) (s : string) : list string :=
  match s with
  | EmptyString => [EmptyString]
  | String c s' =>
      if Ascii.eqb c sep then EmptyString :: split sep s'
      else match split sep s' with
           | p :: ps => String c p :: ps
           | [] => [String c EmptyString]
           end
  end.

(** [s.split(sep, 1)] when [sep in s]: the text before the first separator
    and the text after it. *)
Fixpoint split_once (sep : ascii) (s : string) : option (string * string) :=
  match s with
  | EmptyString => None
  | String c s' =>
      if Ascii.eqb c sep then Some (EmptyString, s')
      else match split_once sep s' with
           | Some (a, b) => Some (String c a, b)
           | None => None
           end
  end.

(** Slices [s[lo:]], [s[:hi]], [s[lo:hi]] with non-negative bounds: they
    clamp and never raise. *)
Fixpoint str_from (lo : nat) (s : string) : string :=
  match lo, s with
  | O, _ => s
  | S lo', String _ s' => str_from lo' s'
  | S _, EmptyString => EmptyString
  end.

Fixpoint str_to (hi : nat) (s : string) : string :=
  match hi, s with
  | S hi', String c s' => String c (str_to hi' s')
  | _, _ => EmptyString
  end.

Definition str_slice (lo hi : nat) (s : string) : string :=
  str_to (hi - lo) (str_from lo s).

(** [s[i]] and [l[i]] with a non-negative index: [IndexError] out of range. *)
Fixpoint str_index (s : string) (i : nat) : result ascii :=
  match s, i with
  | String c _, O => Ok c
  | String _ s', S i' => str_index s' i'
  | EmptyString, _ => Raise IndexError
  end.

Fixpoint list_index {A : Type} (l : list A) (i : nat) : result A :=
  match l, i with
  | x :: _, O => Ok x
  | _ :: l', S i' => list_index l' i'
  | [], _ => Raise IndexError
  end.

(** [c.lower()] on one code point below 256: A..Z and the Latin-1 capitals
    move up by 32. *)
Definition lower (c : ascii) : ascii :=
  let n := ord c in
  if in_range 65 90 n || in_range 192 214 n || in_range 216 222 n
  then ascii_of_N (Z.to_N (n + 32)) else c.

(** *** [int(s, base)]

    CPython's [PyLong_FromString] for base 10 and 16: surrounding white
    space, an optional sign, for base 16 an optional [0x] prefix, then
    digits with single underscores between them. *)

(** [_PyLong_DigitValue]: 0-9, then a-z and A-Z as 10..35. *)
Definition digit_value (c : ascii) : option Z :=
  let n := ord c in
  if in_range 48 57 n then Some (n - 48)
  else if in_range 97 122 n then Some (n - 87)
  else if in_range 65 90 n then Some (n - 55)
  else None.

(** White space for [int] of a [str]: [Py_ISSPACE], and NEL and NBSP, which
    the conversion to ASCII turns into spaces. *)
Definition int_isspace (c : ascii) : bool :=
  c_isspace c || (ord c =? 133) || (ord c =? 160).

Fixpoint int_skip_space (s : string) : string :=
  match s with
  | String c s' => if int_isspace c then int_skip_space s' else s
  | EmptyString => EmptyString
  end.

(** The digit loop.  [prev_us] says the last character read was ['_'];
    the result is the value, the number of digits and the unread rest, or
    [None] on a doubled or trailing underscore. *)
Fixpoint int_scan (base : Z) (s : string) (prev_us : bool) (acc : Z)
    (digits : nat) : option (Z * nat * string) :=
  let stop := if prev_us then None else Some (acc, digits, s) in
  match s with
  | EmptyString => stop
  | String c s' =>
      if Ascii.eqb c "_" then
        if prev_us then None else int_scan base s' true acc digits
      else
        match digit_value c with
        | Some d =>
            if d <? base then int_scan base s' false (acc * base + d) (S digits)
            else stop
        | None => stop
        end
  end.

Definition int_prefix (base : Z) (s : string) : string :=
  match s with
  | String "0" (String x s') =>
      if (base =? 16) && (Ascii.eqb x "x" || Ascii.eqb x "X") then
        match s' with
        | String "_" s'' => s''
        | _ => s'
        end
      else s
  | _ => s
  end.

Definition py_int (base : Z) (s : string) : result Z :=
  let s1 := int_skip_space s in
  let '(sign, s2) :=
    match s1 with
    | String "+" r => (1, r)
    | String "-" r => (-1, r)
    | _ => (1, s1)
    end in
  let s3 := int_prefix base s2 in
  if startswith s3 "_" then Raise ValueError
  else
    match int_scan base s3 false 0 0 with
    | None => Raise ValueError
    | Some (_, O, _) => Raise ValueError
    | Some (v, S _, rest) =>
        match int_skip_space rest with
        | EmptyString => Ok (sign * v)
        | _ => Raise ValueError
        end
    end.

(** *** [bytes.fromhex(s)]: pairs of hex digits, ASCII white space allowed
    between pairs. *)
Fixpoint fromhex (s : string) : result bytes :=
  match s with
  | EmptyString => Ok []
  | String c s' =>
      if c_isspace c then fromhex s'
      else
        match digit_value c, s' with
        | Some top, String d s'' =>
            match digit_value d with
            | Some bot =>
                if (top <? 16) && (bot <? 16) then
                  rest <- fromhex s'' ;;
                  Ok (byte_of_Z (16 * top + bot) :: rest)
                else Raise ValueError
            | None => Raise ValueError
            end
        | _, _ => Raise ValueError
        end
  end.

(** *** Formatting *)

(** [str(n)] *)
Definition str_of_int (n : Z) : string := NilZero.string_of_int (Z.to_int n).

Definition hex_digit_char (d : Z) : ascii :=
  if d <? 10 then ascii_of_N (Z.to_N (48 + d)) else ascii_of_N (Z.to_N (55 + d)).

Fixpoint hex_digits_fuel (fuel : nat) (n : Z) (acc : string) : string :=
  let acc' := String (hex_digit_char (n mod 16)) acc in
  match fuel with
  | O => acc'
  | S fuel' => if n <? 16 then acc' else hex_digits_fuel fuel' (n / 16) acc'
  end.

(** Upper-case hexadecimal digits of [n >= 0]. *)
Definition hex_upper (n : Z) : string :=
  hex_digits_fuel (Z.to_nat (Z.log2 n)) n "".

Fixpoint zeros (n : nat) : string :=
  match n with
  | O => EmptyString
  | S n' => String "0" (zeros n')
  end.

Definition zfill (width : nat) (s : string) : string :=
  zeros (width - String.length s) +++ s.

(** [f"{z:0<width>X}"]: zero-padded to [width] characters, the sign
    included in the width. *)
Definition fmt_X (width : nat) (z : Z) : string :=
  if z <? 0 then "-" +++ zfill (width - 1) (hex_upper (- z))
  else zfill width (hex_upper z).

(** [sep.join(l)] *)
Definition join (sep : string) (l : list string) : string := String.concat sep l.

(** [bs.hex(' ').upper()], which is also [' '.join(f'{b:02X}' for b in bs)] *)
Definition bytes_hex_upper (bs : bytes) : string :=
  join " " (map (fun b => fmt_X 2 (byte_val b)) bs).

(** Letters of the report texts that lie outside ASCII. *)
Definition A_acute : string := String "193" "".
Definition e_acute : string := String "233" "".
Definition o_acute : string := String "243" "".

(** ** [parse_nmea_sentence] *)

(** [for char in sentence_data: calculated_checksum ^= ord(char)] *)
Fixpoint xor_chars (s : string) (acc : Z) : Z :=
  match s with
  | EmptyString => acc
  | String c s' => xor_chars s' (Z.lxor acc (ord c))
  end.

(** [f in 'AV']: the substrings of ["AV"]. *)
Definition in_AV (f : string) : bool :=
  String.eqb f "" || String.eqb f "A" || String.eqb f "V" || String.eqb f "AV".

(** The part of [parse_nmea_sentence] after the checksum test (source lines
    100-127): dispatch on the sentence type. *)
Definition nmea_decode_fields (sentence_data line : string) : result string :=
  let fields := split "," sentence_data in
  msg_type <- list_index fields 0 ;;
  if String.eqb msg_type "GPGGA" then
    try_except
      (f1 <- list_index fields 1 ;;
       f2 <- list_index fields 2 ;;
       f3 <- list_index fields 3 ;;
       f4 <- list_index fields 4 ;;
       f5 <- list_index fields 5 ;;
       f6 <- list_index fields 6 ;;
       f7 <- list_index fields 7 ;;
       f8 <- list_index fields 8 ;;
       f9 <- list_index fields 9 ;;
       f10 <- list_index fields 10 ;;
       Ok ("--- GGA: Global Positioning System Fix Data ---" +++ nl +++
           "  Hora (UTC):      " +++ str_to 2 f1 +++ ":" +++ str_slice 2 4 f1 +++ ":"
             +++ str_from 4 f1 +++ nl +++
           "  Latitud:         " +++ f2 +++ " " +++ f3 +++ nl +++
           "  Longitud:        " +++ f4 +++ " " +++ f5 +++ nl +++
           "  Calidad Fix:     " +++ f6 +++ " (0=inv, 1=GPS, 2=DGPS)" +++ nl +++
           "  Sat" +++ e_acute +++ "lites:       " +++ f7 +++ nl +++
           "  HDOP:            " +++ f8 +++ nl +++
           "  Altitud:         " +++ f9 +++ " " +++ f10 +++ nl +++
           "--------------------------------------------------" +++ nl))
      is_IndexError
      (Ok ("[GPGGA MAL FORMADO] " +++ line +++ nl))
  else if String.eqb msg_type "GPRMC" then
    try_except
      (f1 <- list_index fields 1 ;;
       f2 <- list_index fields 2 ;;
       f7 <- list_index fields 7 ;;
       f8 <- list_index fields 8 ;;
       f9 <- list_index fields 9 ;;
       Ok ("--- RMC: Recommended Minimum Specific GNSS Data ---" +++ nl +++
           "  Hora (UTC):      " +++ str_to 2 f1 +++ ":" +++ str_slice 2 4 f1 +++ ":"
             +++ str_from 4 f1 +++ nl +++
           "  Estado:          "
             +++ (if in_AV f2 then "A=Activo, V=Vacio" else f2) +++ nl +++
           "  Velocidad (nudos): " +++ f7 +++ nl +++
           "  Rumbo:           " +++ f8 +++ nl +++
           "  Fecha:           " +++ str_to 2 f9 +++ "/" +++ str_slice 2 4 f9 +++ "/20"
             +++ str_from 4 f9 +++ nl +++
           "--------------------------------------------------" +++ nl))
      is_IndexError
      (Ok ("[GPRMC MAL FORMADO] " +++ line +++ nl))
  else
    Ok ("[TIPO NMEA NO SOPORTADO: " +++ msg_type +++ "] " +++ line +++ nl).

Definition parse_nmea_sentence (line : string) : result string :=
  let line := strip line in
  if negb (startswith line "$") || negb (contains "*" line) then
    Ok ("[NO NMEA] " +++ line +++ nl)
  else
    match split "*" line with
    | [sentence; checksum_str] =>
        let sentence_data := str_from 1 sentence in
        let calculated_checksum := xor_chars sentence_data 0 in
        match py_int 16 checksum_str with
        | Raise e =>
            if is_ValueError e then
              Ok ("[CHECKSUM INV" +++ A_acute +++ "LIDO] " +++ line +++ nl)
            else Raise e
        | Ok received_checksum =>
            if negb (calculated_checksum =? received_checksum) then
              Ok ("[ERROR CHECKSUM: Calc=" +++ fmt_X 2 calculated_checksum
                  +++ ", Recib=" +++ fmt_X 2 received_checksum +++ "] "
                  +++ line +++ nl)
            else nmea_decode_fields sentence_data line
        end
    | _ => Ok ("[FORMATO NMEA INV" +++ A_acute +++ "LIDO] " +++ line +++ nl)
    end.

(** ** [parse_modbus_rtu] *)

(** [func_map.get(function_code, f"Desconocido (0x{function_code:02X})")] *)
Definition func_name (function_code : Z) : string :=
  match function_code with
  | 1 => "Read Coils"
  | 2 => "Read Discrete Inputs"
  | 3 => "Read Holding Registers"
  | 4 => "Read Input Registers"
  | 5 => "Write Single Coil"
  | 6 => "Write Single Register"
  | _ => "Desconocido (0x" +++ fmt_X 2 function_code +++ ")"
  end.

(** ["OK" if received_crc == calculated_crc else f"ERROR (Calc: ...)"] *)
Definition crc_status (received_crc calculated_crc : Z) : string :=
  if received_crc =? calculated_crc then "OK"
  else "ERROR (Calc: " +++ fmt_X 4 calculated_crc +++ ")".

Definition parse_modbus_rtu (raw_bytes : bytes) : result string :=
  if (List.length raw_bytes <? 4)%nat then
    Ok ("[TRAMA MODBUS MUY CORTA: " +++ bytes_hex_upper raw_bytes +++ "]" +++ nl)
  else
    address <- list_index raw_bytes 0 ;;
    function_code <- list_index raw_bytes 1 ;;
    let payload := slice_2_to_m2 raw_bytes in
    let received_crc := int_from_bytes_little (slice_from_m2 raw_bytes) in
    let calculated_crc := calculate_crc16 (slice_to_m2 raw_bytes) in
    Ok ("--- MODBUS RTU ---" +++ nl +++
        "  ID Esclavo:      " +++ str_of_int (byte_val address) +++ nl +++
        "  Funci" +++ o_acute +++ "n:         " +++ str_of_int (byte_val function_code)
          +++ " (" +++ func_name (byte_val function_code) +++ ")" +++ nl +++
        "  Datos (Hex):     " +++ bytes_hex_upper payload +++ nl +++
        "  CRC Recibido:    " +++ fmt_X 4 received_crc
          +++ " (" +++ crc_status received_crc calculated_crc +++ ")" +++ nl +++
        "---------------------" +++ nl).

(** ** [parse_can_ascii] *)

Definition parse_can_ascii (line : string) : result string :=
  let line := strip line in
  match line with
  | EmptyString => Ok ("[NO CAN-ASCII] " +++ line +++ nl)
  | String c0 _ =>
      if negb (Ascii.eqb (lower c0) "t") then Ok ("[NO CAN-ASCII] " +++ line +++ nl)
      else
        try_except
          (let can_id_str := str_slice 1 4 line in
           c4 <- str_index line 4 ;;
           data_len <- py_int 10 (String c4 "") ;;
           let data_str := str_slice 5 (5 + Z.to_nat data_len * 2) line in
           can_id <- py_int 16 can_id_str ;;
           data_bytes <- fromhex data_str ;;
           Ok ("--- CAN ASCII ---" +++ nl +++
               "  ID:            0x" +++ fmt_X 3 can_id +++ nl +++
               "  DLC:           " +++ str_of_int data_len +++ nl +++
               "  Datos:         " +++ bytes_hex_upper data_bytes +++ nl +++
               "-------------------" +++ nl))
          (fun e => is_ValueError e || is_IndexError e)
          (Ok ("[CAN-ASCII MAL FORMADO] " +++ line +++ nl))
  end.

(** ** [parse_json_line] *)

(** The [json] module is a library: its two entry points are parameters.
    [json_dumps v] is [json.dumps(v, indent=2)]. *)
Record JsonLib : Type := {
  json_value : Type;
  json_loads : string -> result json_value;
  json_dumps : json_value -> result string
}.

Definition parse_json_line (J : JsonLib) (line : string) : result string :=
  let line := strip line in
  if negb (startswith line "{") || negb (endswith line "}") then
    Ok ("[NO JSON] " +++ line +++ nl)
  else
    try_except
      (data <- json_loads J line ;;
       pretty_json <- json_dumps J data ;;
       Ok ("--- JSON Object ---" +++ nl +++ pretty_json +++ nl
           +++ "-------------------" +++ nl))
      is_JSONDecodeError
      (Ok ("[JSON MAL FORMADO] " +++ line +++ nl)).


(** ** CRC-16/MODBUS as the specification words it

    Initial register 0xFFFF; each input byte is exclusive-ored into the low
    byte of the register; then eight times: if the low bit is set, shift
    right and exclusive-or with 0xA001, else just shift right.  This second
    definition follows the specification, not the source; [calculate_crc16]
    is compared with it below. *)

Definition spec_xor_low_byte (reg : Z) (b : Z) : Z :=
  256 * (reg / 256) + Z.lxor (reg mod 256) b.

Definition spec_shift (reg : Z) : Z :=
  if Z.odd reg then Z.lxor (reg / 2) 0xA001 else reg / 2.

Definition spec_crc16_modbus (data : bytes) : Z :=
  fold_left
    (fun reg b => Nat.iter 8 spec_shift (spec_xor_low_byte reg (byte_val b)))
    data 0xFFFF.

(** ** Reading a report *)

(** [needle in hay] *)
Fixpoint str_contains (needle hay : string) : bool :=
  String.prefix needle hay ||
  match hay with
  | String _ hay' => str_contains needle hay'
  | EmptyString => false
  end.

(** A report that states the CRC status [OK]. *)
Definition reports_crc_ok (r : result string) : bool :=
  match r with
  | Ok report => str_contains "(OK)" report
  | Raise _ => false
  end.

(** A decoded block opens with a [---] banner; a diagnostic opens with a
    bracketed tag. *)
Definition is_decoded_block (report : string) : bool := String.prefix "--- " report.
Definition is_diagnostic (report : string) : bool := String.prefix "[" report.

(** ** The line-reassembly loop

    [while '\n' in line_buffer: line, line_buffer = line_buffer.split('\n', 1)]
    The lines it yields, in order, and the buffer it leaves. *)

Definition inspect {A : Type} (a : A) : {b : A | a = b} := exist _ a eq_refl.

Equations? split_lines (line_buffer : string) : list string * string
    by wf (String.length line_buffer) lt :=
  split_lines line_buffer with inspect (split_once LF line_buffer) := {
    | exist _ (Some (line, rest)) Heq =>
        let '(lines, pending) := split_lines rest in (line :: lines, pending);
    | exist _ None _ => ([], line_buffer) }.
Proof.
  clear split_lines.
  revert line rest Heq.
  induction line_buffer as [|c s IH]; intros line rest; simpl; [discriminate|].
  destruct (Ascii.eqb c LF).
  - intros [= _ <-]. lia.
  - destruct (split_once LF s) as [[a' b']|]; [|discriminate].
    intros [= _ <-]. specialize (IH _ _ eq_refl). lia.
Qed.

(** One pass of the reassembler: append the chunk, split off the lines. *)
Definition feed (line_buffer chunk : string) : list string * string :=
  split_lines (line_buffer +++ chunk).

(** Feeding a sequence of chunks, collecting every emitted line. *)
Fixpoint feed_all (line_buffer : string) (chunks : list string)
    : list string * string :=
  match chunks with
  | [] => ([], line_buffer)
  | chunk :: rest =>
      let '(lines, pending) := feed line_buffer chunk in
      let '(more, final) := feed_all pending rest in
      (lines ++ more, final)
  end.

(** Number of line feeds in a text. *)
Fixpoint count_char (c : ascii) (s : string) : nat :=
  match s with
  | EmptyString => O
  | String d s' => (if Ascii.eqb d c then 1 else 0) + count_char c s'
  end.

(** [''.join(chunks)] *)
Definition concat_str (chunks : list string) : string := String.concat "" chunks.

(** The emitted lines with their terminators restored. *)
Fixpoint unlines (lines : list string) : string :=
  match lines with
  | [] => EmptyString
  | l :: ls => l +++ nl +++ unlines ls
  end.

(** The text after the last line feed (the whole text when it has none). *)
Fixpoint after_last_lf (s : string) : string :=
  match s with
  | EmptyString => EmptyString
  | String c s' =>
      if contains LF s' then after_last_lf s'
      else if Ascii.eqb c LF then s' else s
  end.

(** ** [get_timestamp] *)

(** The renderings of [datetime.datetime.now()] that the function builds:
    the clock is the environment's, so one reading is a record of the six
    rendered texts. *)
Record Now : Type := {
  iso_8601 : string;             (* now.isoformat(sep='T', timespec='milliseconds') *)
  date_time_timezone : string;   (* '%Y-%m-%d %H:%M:%S.%f'[:-3] + ' %Z' *)
  date_time : string;            (* '%Y-%m-%d %H:%M:%S.%f'[:-3] *)
  time_only : string;            (* '%H:%M:%S.%f'[:-3] *)
  year_day_time : string;        (* '%Y %j %H:%M:%S.%f'[:-3] *)
  ymdhms : string                (* '%Y %m %d %H %M %S' *)
}.

(** [formats.get(format_choice, "")] *)
Definition formats (now : Now) (format_choice : string) : string :=
  if String.eqb format_choice "ISO 8601" then iso_8601 now
  else if String.eqb format_choice "Date|Time|Timezone" then date_time_timezone now
  else if String.eqb format_choice "Date|Time" then date_time now
  else if String.eqb format_choice "Time" then time_only now
  else if String.eqb format_choice "Mod. Julian Date" then "No implementado"
  else if String.eqb format_choice "Year|Day of year|Time" then year_day_time now
  else if String.eqb format_choice "yyyy|MM|dd|HH|mm|ss" then ymdhms now
  else "".

(** [delimiters.get(delimiter, " ")] *)
Definition delimiters (delimiter : string) : string :=
  if String.eqb delimiter "blank" then " "
  else if String.eqb delimiter "komma" then ","
  else if String.eqb delimiter "semicolon" then ";"
  else if String.eqb delimiter "none" then ""
  else " ".

Definition get_timestamp (now : Now) (format_choice delimiter : string) : string :=
  if String.eqb format_choice "none" then ""
  else
    let timestamp := formats now format_choice in
    match timestamp with
    | EmptyString => ""
    | _ => timestamp +++ delimiters delimiter
    end.

(** The clock of a run: the reading that the [k]-th call of
    [get_timestamp] sees. *)
Definition Clock : Type := nat -> Now.

(** ** The byte-stream decoder

    [codecs.getincrementaldecoder(encoding)(errors='replace')] is a library
    object: a state and a [decode] step. *)
Record Codec : Type := {
  codec_state : Type;
  codec_init : codec_state;
  codec_decode : codec_state -> bytes -> codec_state * string
}.

(** Latin-1: one character per byte, no state. *)
Definition latin1 : Codec := {|
  codec_state := unit;
  codec_init := tt;
  codec_decode := fun st raw => (st, string_of_list_ascii (map ascii_of_byte raw))
|}.

(** [s.encode('latin-1')] on the modelled range. *)
Definition encode_latin1 (s : string) : bytes :=
  map byte_of_ascii (list_ascii_of_string s).

(** ** The log file and the queues *)

Inductive file_op : Type :=
| FWrite (text : string)
| FFlush
| FClose.

(** What the operations leave in the file. *)
Fixpoint file_text (ops : list file_op) : string :=
  match ops with
  | [] => EmptyString
  | FWrite text :: rest => text +++ file_text rest
  | _ :: rest => file_text rest
  end.

(** [DECODERS]: a line decoder takes text, the Modbus decoder takes a raw
    frame. *)
Inductive decoder : Type :=
| LineDecoder (f : string -> result string)
| FrameDecoder (f : bytes -> result string).

Definition DECODERS (J : JsonLib) (protocol : string) : option decoder :=
  if String.eqb protocol "NMEA-0183" then Some (LineDecoder parse_nmea_sentence)
  else if String.eqb protocol "Modbus-RTU" then Some (FrameDecoder parse_modbus_rtu)
  else if String.eqb protocol "CAN-ASCII" then Some (LineDecoder parse_can_ascii)
  else if String.eqb protocol "JSON-line" then Some (LineDecoder (parse_json_line J))
  else None.

(** Calling a decoder on a frame or on a line; the wrong kind of argument
    is a [TypeError] (no session reaches it). *)
Definition call_on_frame (d : decoder) (raw : bytes) : result string :=
  match d with
  | FrameDecoder f => f raw
  | LineDecoder _ => Raise TypeError
  end.

Definition call_on_line (d : decoder) (line : string) : result string :=
  match d with
  | LineDecoder f => f line
  | FrameDecoder _ => Raise TypeError
  end.

(** The widget values that [_log_and_decode_task] reads.  The encoding,
    the logging flag and the protocol are read once, when the task starts.
    [cb_timestamp.get()] and [cb_delimiter.get()] are read anew for every
    entry, and both widgets stay enabled while the port is open: [cb_timestamp
    k] and [cb_delimiter k] are what the [k]-th call of [get_timestamp] is
    given. *)
Record Session : Type := {
  encoding : Codec;             (* encoding_var *)
  ck_logfile : bool;            (* ck_logfile_var *)
  open_succeeds : bool;         (* open(log_filename, 'a') does not raise IOError *)
  protocol : string;            (* protocol_selector_var *)
  cb_timestamp : nat -> string;
  cb_delimiter : nat -> string
}.

(** ** [SerialLoggerApp._log_and_decode_task] *)

(** The task's local variables and the two sinks it writes. *)
Record LogState (S : Session) : Type := {
  line_buffer : string;
  decoder_state : codec_state (encoding S);
  logfile : list file_op;         (* operations on the log file, oldest first *)
  decoded_queue : list string;    (* decoded_queue.put, oldest first *)
  tick : nat                      (* calls of get_timestamp so far *)
}.
Arguments line_buffer {S} _.
Arguments decoder_state {S} _.
Arguments logfile {S} _.
Arguments decoded_queue {S} _.
Arguments tick {S} _.

(** How the task stands when the queue holds nothing more: it has left the
    loop on the sentinel, or it waits in [log_queue.get()]. *)
Inductive task_end : Type :=
| Terminated
| Blocked.

Section LogTask.
Variable J : JsonLib.
Variable clock : Clock.
Variable S : Session.

(** [log_to_file and logfile] after the attempt to open the file. *)
Definition logging : bool := ck_logfile S && open_succeeds S.

Definition parser : option decoder := DECODERS J (protocol S).

(** The body of the inner [while] for one completed line. *)
Definition on_line (st : LogState S) (line : string) : result (LogState S) :=
  let full_line := line +++ nl in
  let st1 :=
    if logging then
      let timestamp :=
        get_timestamp (clock (tick st)) (cb_timestamp S (tick st))
          (cb_delimiter S (tick st)) in
      {| line_buffer := line_buffer st;
         decoder_state := decoder_state st;
         logfile := logfile st ++ [FWrite (timestamp +++ line +++ nl); FFlush];
         decoded_queue := decoded_queue st;
         tick := Datatypes.S (tick st) |}
    else st in
  match parser with
  | Some p =>
      decoded_line <- call_on_line p full_line ;;
      Ok {| line_buffer := line_buffer st1;
            decoder_state := decoder_state st1;
            logfile := logfile st1;
            decoded_queue := decoded_queue st1 ++ [decoded_line];
            tick := tick st1 |}
  | None => Ok st1
  end.

Fixpoint on_lines (st : LogState S) (lines : list string) : result (LogState S) :=
  match lines with
  | [] => Ok st
  | line :: rest => st' <- on_line st line ;; on_lines st' rest
  end.

(** The body of [while True] for one chunk taken from the queue. *)
Definition on_chunk (st : LogState S) (raw_chunk : bytes) : result (LogState S) :=
  if String.eqb (protocol S) "Modbus-RTU" then
    match parser with
    | Some p =>
        decoded_line <- call_on_frame p raw_chunk ;;
        let st1 :=
          {| line_buffer := line_buffer st;
             decoder_state := decoder_state st;
             logfile := logfile st;
             decoded_queue := decoded_queue st ++ [decoded_line];
             tick := tick st |} in
        if logging then
          let timestamp :=
            get_timestamp (clock (tick st)) (cb_timestamp S (tick st))
              (cb_delimiter S (tick st)) in
          Ok {| line_buffer := line_buffer st1;
                decoder_state := decoder_state st1;
                logfile := logfile st1 ++ [FWrite (timestamp +++ decoded_line)];
                decoded_queue := decoded_queue st1;
                tick := Datatypes.S (tick st1) |}
        else Ok st1
    | None => Ok st
    end
  else
    let '(dst, decoded_string) := codec_decode (encoding S) (decoder_state st) raw_chunk in
    let '(lines, pending) := split_lines (line_buffer st +++ decoded_string) in
    on_lines {| line_buffer := pending;
                decoder_state := dst;
                logfile := logfile st;
                decoded_queue := decoded_queue st;
                tick := tick st |} lines.

(** [while True: raw_chunk = self.log_queue.get(); if raw_chunk is None:
    break; ...] over what the queue delivers. *)
Fixpoint log_loop (st : LogState S) (log_queue : list (option bytes))
    : result (LogState S * task_end) :=
  match log_queue with
  | [] => Ok (st, Blocked)
  | None :: _ => Ok (st, Terminated)
  | Some raw_chunk :: rest => st' <- on_chunk st raw_chunk ;; log_loop st' rest
  end.

Definition log_init : LogState S :=
  {| line_buffer := "";
     decoder_state := codec_init (encoding S);
     logfile := [];
     decoded_queue := [];
     tick := O |}.

(** The whole task: the loop, then [if logfile: logfile.close()]. *)
Definition log_and_decode_task (log_queue : list (option bytes))
    : result (LogState S * task_end) :=
  r <- log_loop log_init log_queue ;;
  match r with
  | (st, Terminated) =>
      if logging then
        Ok ({| line_buffer := line_buffer st;
               decoder_state := decoder_state st;
               logfile := logfile st ++ [FClose];
               decoded_queue := decoded_queue st;
               tick := tick st |}, Terminated)
      else Ok (st, Terminated)
  | (st, Blocked) => Ok (st, Blocked)
  end.
End LogTask.

(** ** [run_cli_mode] *)

Record CliArgs : Type := {
  cli_encoding : Codec;       (* args.encoding *)
  cli_timestamp : string;     (* args.timestamp *)
  cli_log : bool;             (* args.log given and the file opened *)
}.

(** [config['delimiter']] *)
Definition cli_delimiter : string := " ".

Record CliState (A : CliArgs) : Type := {
  cli_line_buffer : string;
  cli_start_of_line : bool;
  cli_decoder : codec_state (cli_encoding A);
  cli_stdout : list string;       (* sys.stdout.write, oldest first *)
  cli_logfile : list file_op;
  cli_tick : nat
}.
Arguments cli_line_buffer {A} _.
Arguments cli_start_of_line {A} _.
Arguments cli_decoder {A} _.
Arguments cli_stdout {A} _.
Arguments cli_logfile {A} _.
Arguments cli_tick {A} _.

Section Cli.
Variable clock : Clock.
Variable A : CliArgs.

(** [for char in decoded_string: ...]: the console echo. *)
Fixpoint echo (s : string) (sol : bool) (out : list string) (t : nat)
    : bool * list string * nat :=
  match s with
  | EmptyString => (sol, out, t)
  | String char s' =>
      let '(out1, t1) :=
        if sol then
          let ts := get_timestamp (clock t) (cli_timestamp A) cli_delimiter in
          (match ts with EmptyString => out | _ => out ++ [ts] end, Datatypes.S t)
        else (out, t) in
      echo s' (Ascii.eqb char LF) (out1 ++ [String char ""]) t1
  end.

(** The log part of [console_output] for the completed lines. *)
Fixpoint cli_log_lines (lines : list string) (file : list file_op) (t : nat)
    : list file_op * nat :=
  match lines with
  | [] => (file, t)
  | line :: rest =>
      let ts := get_timestamp (clock t) (cli_timestamp A) cli_delimiter in
      cli_log_lines rest (file ++ [FWrite (ts +++ line +++ nl); FFlush]) (Datatypes.S t)
  end.

Definition console_output (st : CliState A) (raw_chunk : bytes) : CliState A :=
  let '(dst, decoded_string) :=
    codec_decode (cli_encoding A) (cli_decoder st) raw_chunk in
  let '(sol, out, t) :=
    echo decoded_string (cli_start_of_line st) (cli_stdout st) (cli_tick st) in
  if cli_log A then
    let '(lines, pending) := split_lines (cli_line_buffer st +++ decoded_string) in
    let '(file, t') := cli_log_lines lines (cli_logfile st) t in
    {| cli_line_buffer := pending; cli_start_of_line := sol; cli_decoder := dst;
       cli_stdout := out; cli_logfile := file; cli_tick := t' |}
  else
    {| cli_line_buffer := cli_line_buffer st; cli_start_of_line := sol;
       cli_decoder := dst; cli_stdout := out; cli_logfile := cli_logfile st;
       cli_tick := t |}.

(** The [finally] block: flush a pending partial line, close the file. *)
Definition cli_finally (st : CliState A) : CliState A :=
  if cli_log A then
    let '(file, t) :=
      match cli_line_buffer st with
      | EmptyString => (cli_logfile st, cli_tick st)
      | buf =>
          let ts := get_timestamp (clock (cli_tick st)) (cli_timestamp A) cli_delimiter in
          (cli_logfile st ++ [FWrite (ts +++ strip buf +++ nl)], Datatypes.S (cli_tick st))
      end in
    {| cli_line_buffer := cli_line_buffer st; cli_start_of_line := cli_start_of_line st;
       cli_decoder := cli_decoder st; cli_stdout := cli_stdout st;
       cli_logfile := file ++ [FClose]; cli_tick := t |}
  else st.

Definition cli_init : CliState A :=
  {| cli_line_buffer := ""; cli_start_of_line := true;
     cli_decoder := codec_init (cli_encoding A);
     cli_stdout := []; cli_logfile := []; cli_tick := O |}.

(** A CLI session over the chunks that the reader hands to the callback. *)
Definition run_cli_mode (chunks : list bytes) : CliState A :=
  cli_finally (fold_left console_output chunks cli_init).
End Cli.

(** ** [SerialHandler._read_task] and the GUI's queue pump *)

(** What one turn of the read loop meets on the link. *)
Inductive read_event : Type :=
| Idle                        (* in_waiting == 0 *)
| Incoming (data : bytes)     (* read() returned data *)
| SerialException.            (* in_waiting or read() raised *)

(** [b"\n--- ERROR: Puerto serie desconectado ---\n"] *)
Definition error_chunk : bytes :=
  encode_latin1 (nl +++ "--- ERROR: Puerto serie desconectado ---" +++ nl).

(** How the read loop ended: the flag was cleared from outside
    ([close_port]), or the loop cleared it on a failure and broke out. *)
Inductive read_end : Type :=
| StoppedByClose
| StoppedByFailure.

(** The calls of [output_callback], in order, and how the loop ended.  The
    script is what the link does until [is_reading] is found cleared. *)
Fixpoint read_task (output_callback : bool) (script : list read_event)
    : list bytes * read_end :=
  match script with
  | [] => ([], StoppedByClose)
  | Idle :: rest => read_task output_callback rest
  | Incoming data :: rest =>
      let '(calls, e) := read_task output_callback rest in
      match data with
      | [] => (calls, e)
      | _ => if output_callback then (data :: calls, e) else (calls, e)
      end
  | SerialException :: _ =>
      (if output_callback then [error_chunk] else [], StoppedByFailure)
  end.

(** [_process_gui_queue]: every chunk of the display queue goes to the log
    queue when logging or decoding is on. *)
Definition process_gui_queue (S : Session) (gui_queue : list bytes)
    : list (option bytes) :=
  if ck_logfile S || negb (String.eqb (protocol S) "None")
  then map Some gui_queue else [].

(** [SerialLoggerApp.close_port]: [self.log_queue.put(None)]. *)
Definition close_port (log_queue : list (option bytes)) : list (option bytes) :=
  log_queue ++ [None].

(** What reaches the log queue in a GUI session: the chunks pumped from
    the display queue, and the sentinel if the user closes the port. *)
Definition gui_log_queue (S : Session) (script : list read_event)
    (user_closes : bool) : list (option bytes) :=
  let q := process_gui_queue S (fst (read_task true script)) in
  if user_closes then close_port q else q.

(** ** [SerialLoggerApp._send_data] *)

Definition maxlen : nat := 50.

(** [deque(maxlen=50).append(x)] *)
Definition deque_append (d : list string) (x : string) : list string :=
  if (maxlen <=? List.length d)%nat then tl d ++ [x] else d ++ [x].

(** [d[-1]] of a non-empty deque *)
Definition last_entry (d : list string) : option string :=
  match rev d with
  | x :: _ => Some x
  | [] => None
  end.

Inductive port_state : Type :=
| PortClosed
| PortOpen
| PortFaulty (err : string).

Definition a_acute : string := String "225" "".

(** [SerialHandler.write_data] on encoded data: (success, message). *)
Definition write_data (port : port_state) (data : bytes) : bool * option string :=
  match port with
  | PortOpen => (true, None)
  | PortFaulty err => (false, Some ("Error al enviar datos: " +++ err))
  | PortClosed => (false, Some ("Puerto no est" +++ a_acute +++ " abierto."))
  end.

(** [line_ending_map.get(self.line_ending_var.get(), "")] *)
Definition line_ending_map (choice : string) : string :=
  let CR := String "013" "" in
  if String.eqb choice "None" then ""
  else if String.eqb choice "NL (\n)" then nl
  else if String.eqb choice "CR (\r)" then CR
  else if String.eqb choice "CR+LF (\r\n)" then CR +++ nl
  else "".

(** ["".join(s.split())]: the text without its white space. *)
Fixpoint remove_whitespace (s : string) : string :=
  match s with
  | EmptyString => EmptyString
  | String c s' =>
      if py_isspace c then remove_whitespace s' else String c (remove_whitespace s')
  end.

Record SendState : Type := {
  command_history : list string;
  history_index : nat;
  entry_input : string
}.

Record SendEnv : Type := {
  bt_send_disabled : bool;
  entry_disabled : bool;      (* entry_input is in state 'disabled': a
                                 periodic send is running *)
  hex_input_var : bool;
  line_ending_var : string;
  port : port_state;
  str_encode : string -> result bytes     (* data.encode(encoding_var) *)
}.

(** The state after the call, what was handed to the port with success,
    the error dialogs shown, and the exception that left the handler, if
    any (the state changes made before it stay). *)
Record SendOutcome : Type := {
  after : SendState;
  sent : list bytes;
  dialogs : list string;
  raised : option exn
}.

Definition send_data (E : SendEnv) (st : SendState) : SendOutcome :=
  let unchanged := {| after := st; sent := []; dialogs := []; raised := None |} in
  if bt_send_disabled E then unchanged
  else
    let data_to_send_str := entry_input st in
    match data_to_send_str with
    | EmptyString => unchanged
    | _ =>
        let history :=
          match last_entry (command_history st) with
          | Some l =>
              if negb (String.eqb l data_to_send_str)
              then deque_append (command_history st) data_to_send_str
              else command_history st
          | None => deque_append (command_history st) data_to_send_str
          end in
        let st1 := {| command_history := history;
                      history_index := List.length history;
                      entry_input := entry_input st |} in
        (* after [success, message = self.handler.write_data(...)];
           [entry_input.delete(0, tk.END)] changes nothing in a disabled
           entry, whose text [get()] reads all the same *)
        let finish (data_to_write : bytes) (r : bool * option string) :=
          let '(success, message) := r in
          if success then
            {| after := {| command_history := history;
                           history_index := List.length history;
                           entry_input :=
                             if entry_disabled E then entry_input st else "" |};
               sent := [data_to_write]; dialogs := []; raised := None |}
          else
            {| after := st1; sent := [];
               dialogs := match message with
                          | Some m => ["Error de Env" +++ String "237" "o"]
                          | None => []
                          end;
               raised := None |} in
        if hex_input_var E then
          match fromhex (remove_whitespace data_to_send_str) with
          | Ok data_to_write => finish data_to_write (write_data (port E) data_to_write)
          | Raise e =>
              if is_ValueError e
              then {| after := st1; sent := []; dialogs := ["Error de Formato"];
                      raised := None |}
              else {| after := st1; sent := []; dialogs := []; raised := Some e |}
          end
        else
          let line_ending := line_ending_map (line_ending_var E) in
          match port E with
          | PortClosed => finish [] (write_data (port E) [])
          | _ =>
              match str_encode E (data_to_send_str +++ line_ending) with
              | Ok data_to_write => finish data_to_write (write_data (port E) data_to_write)
              | Raise e => {| after := st1; sent := []; dialogs := []; raised := Some e |}
              end
          end
    end.

(** ** Shapes of input lines, as the specification words them *)

(** A text of white space only (a line terminator, padding). *)
Fixpoint all_space (s : string) : bool :=
  match s with
  | EmptyString => true
  | String c s' => py_isspace c && all_space s'
  end.

(** The NMEA shape: a leading ['$'] and exactly one ['*']. *)
Definition nmea_shape (l : string) : bool :=
  startswith l "$" && (count_char "*" l =? 1)%nat.

(** A hexadecimal digit, either case, with its value. *)
Definition hex_digit (c : ascii) (v : Z) : Prop :=
  digit_value c = Some v /\ v < 16.

(** Every character of the modelled range, and the hexadecimal digits. *)
Definition all_ascii : list ascii := map ascii_of_nat (seq 0 256).
Definition hex_chars : list ascii := list_ascii_of_string "0123456789abcdefABCDEF".

(** The check behind the table of two-digit checksums: [int(c1 c2, 16)] is
    [16 * v1 + v2], and neither digit is white space or a star. *)
Definition result_Z_eqb (r : result Z) (z : Z) : bool :=
  match r with Ok v => v =? z | Raise _ => false end.

Definition two_hex_ok (c1 c2 : ascii) : bool :=
  match digit_value c1, digit_value c2 with
  | Some v1, Some v2 =>
      if (v1 <? 16) && (v2 <? 16)
      then result_Z_eqb (py_int 16 (String c1 (String c2 ""))) (16 * v1 + v2)
           && negb (py_isspace c2) && negb (Ascii.eqb c1 "*") && negb (Ascii.eqb c2 "*")
      else true
  | _, _ => true
  end.


(** The checksum as the specification words it: the exclusive-or of all
    characters between ['$'] and ['*'].  This definition follows the
    specification (the character codes folded from the right), not the
    source's loop; [xor_chars] is compared with it below. *)
Definition spec_checksum (data : string) : Z :=
  fold_right (fun c acc => Z.lxor (ord c) acc) 0 (list_ascii_of_string data).

(** The sixteen hexadecimal digits by value, in upper or in lower case. *)
Definition hex_digit_of (upper : bool) (v : nat) : ascii :=
  nth v
    (list_ascii_of_string (if upper then "0123456789ABCDEF" else "0123456789abcdef"))
    "0"%char.

(** Two hexadecimal digits, each in either case, are read by [int(_, 16)]
    as sixteen times the first plus the second. *)
Definition two_digit_value_ok (u1 u2 : bool) (v1 v2 : nat) : bool :=
  result_Z_eqb
    (py_int 16 (String (hex_digit_of u1 v1) (String (hex_digit_of u2 v2) "")))
    (Z.of_nat (16 * v1 + v2)).

Definition option_Z_eqb (a b : option Z) : bool :=
  match a, b with
  | Some x, Some y => x =? y
  | None, None => true
  | _, _ => false
  end.

(** A value that fits the 16-bit CRC register. *)
Definition reg16 (crc : Z) : Prop := 0 <= crc < 65536.

(** A report has one of the two forms. *)
Definition report_form (report : string) : bool :=
  is_decoded_block report || is_diagnostic report.

(** A decoder call that returns a report of one of the two forms. *)
Definition returns_report (r : result string) : Prop :=
  exists report, r = Ok report /\ report_form report = true.

(** What the handler of [parse_json_line] presupposes of the [json]
    module: [loads] raises nothing but [JSONDecodeError], and what it
    returns can be dumped.  The library does not promise this for every
    text; it is a hypothesis of the statements that name it. *)
Definition json_contract (J : JsonLib) : Prop :=
  (forall s e, json_loads J s = Raise e -> e = JSONDecodeError) /\
  (forall s v, json_loads J s = Ok v -> exists t, json_dumps J v = Ok t).

(** The smallest instance of the library interface: it knows the empty
    object and rejects every other text.  It serves where a closed run needs
    some instance and the JSON decoder is not the decoder in use. *)
Definition json_empty_object_only : JsonLib := {|
  json_value := unit;
  json_loads := fun s => if String.eqb s "{}" then Ok tt else Raise JSONDecodeError;
  json_dumps := fun _ => Ok "{}"
|}.

(** A stand-in for the library on deeply nested input: [loads] raises
    [RecursionError] on a text that opens more than [limit] arrays, as
    [json.loads] does on a document nested beyond the interpreter's
    recursion limit, and rejects every other text.  It serves where a closed
    run must show an exception of [loads] that is not [JSONDecodeError]. *)
Definition json_depth_limited (limit : nat) : JsonLib := {|
  json_value := unit;
  json_loads := fun s =>
    if (limit <? count_char "[" s)%nat then Raise (OtherError "RecursionError")
    else Raise JSONDecodeError;
  json_dumps := fun _ => Ok ""
|}.

(** ** The log file, as the specification words it *)

(** The decoder selected for the session, if there is one, returns for
    each of the lines (it is called on the line with its terminator). *)
Definition decoder_returns (J : JsonLib) (S : Session) (lines : list string) : bool :=
  match parser J S with
  | Some p =>
      forallb (fun line =>
                 match call_on_line p (line +++ nl) with
                 | Ok _ => true
                 | Raise _ => false
                 end) lines
  | None => true
  end.

(** The texts that the byte-stream decoder yields for a run of chunks. *)
Fixpoint decode_all (C : Codec) (st : codec_state C) (chunks : list bytes)
    : list string :=
  match chunks with
  | [] => []
  | raw :: rest =>
      let '(st', text) := codec_decode C st raw in
      text :: decode_all C st' rest
  end.

(** One entry [<timestamp><line><newline>] and a flush per line, the
    [k]-th entry stamped by the [k]-th reading of the clock, in the format
    and with the delimiter selected at that moment. *)
Fixpoint line_entries (clock : Clock) (format_choice delimiter : nat -> string)
    (k : nat) (lines : list string) : list file_op :=
  match lines with
  | [] => []
  | line :: rest =>
      FWrite (get_timestamp (clock k) (format_choice k) (delimiter k) +++ line +++ nl)
        :: FFlush :: line_entries clock format_choice delimiter (Datatypes.S k) rest
  end.

(** One block [<timestamp><decoded report>] per Modbus frame. *)
Fixpoint frame_entries (clock : Clock) (format_choice delimiter : nat -> string)
    (k : nat) (frames : list bytes) : string :=
  match frames with
  | [] => EmptyString
  | raw :: rest =>
      match parse_modbus_rtu raw with
      | Ok report =>
          get_timestamp (clock k) (format_choice k) (delimiter k) +++ report
            +++ frame_entries clock format_choice delimiter (Datatypes.S k) rest
      | Raise _ => EmptyString
      end
  end.

(** A clock that always shows the same instant. *)
Definition noon : Now := {|
  iso_8601 := "2024-05-01T12:00:00.000";
  date_time_timezone := "2024-05-01 12:00:00.000 UTC";
  date_time := "2024-05-01 12:00:00.000";
  time_only := "12:00:00.000";
  year_day_time := "2024 122 12:00:00.000";
  ymdhms := "2024 05 01 12 00 00"
|}.
Definition frozen_clock : Clock := fun _ => noon.

(** A GUI session that logs to a file, on a Latin-1 link, the timestamp
    settings left alone while it runs. *)
Definition logging_session (protocol format_choice delimiter : string) : Session := {|
  encoding := latin1;
  ck_logfile := true;
  open_succeeds := true;
  protocol := protocol;
  cb_timestamp := fun _ => format_choice;
  cb_delimiter := fun _ => delimiter
|}.

(** A logging session without decoder in which the user changes the
    timestamp settings after the first entry: from ["Time"] with a comma to
    ["Date|Time"] with a semicolon. *)
Definition retimed_session : Session := {|
  encoding := latin1;
  ck_logfile := true;
  open_succeeds := true;
  protocol := "None";
  cb_timestamp := fun k => match k with O => "Time" | _ => "Date|Time" end;
  cb_delimiter := fun k => match k with O => "komma" | _ => "semicolon" end
|}.

(** What [_send_data] leaves in the history when the button is enabled and
    the entry holds [text]. *)
Definition history_after_send (history : list string) (text : string) : list string :=
  match last_entry history with
  | Some l => if String.eqb l text then history else deque_append history text
  | None => deque_append history text
  end.

(** A link that accepts hexadecimal input on an open port. *)
Definition hex_env : SendEnv := {|
  bt_send_disabled := false;
  entry_disabled := false;
  hex_input_var := true;
  line_ending_var := "None";
  port := PortOpen;
  str_encode := fun s => Ok (encode_latin1 s)
|}.

(** What a finished run of the task shows: the file operations and how the
    task stands. *)
Definition final_logfile {S : Session} (r : result (LogState S * task_end))
    : list file_op :=
  match r with
  | Ok (st, _) => logfile st
  | Raise _ => []
  end.

Definition final_pending {S : Session} (r : result (LogState S * task_end)) : string :=
  match r with
  | Ok (st, _) => line_buffer st
  | Raise _ => EmptyString
  end.

Definition final_status {S : Session} (r : result (LogState S * task_end))
    : option task_end :=
  match r with
  | Ok (_, e) => Some e
  | Raise _ => None
  end.

(** A CLI session that logs to a file, on a Latin-1 link, without
    timestamps. *)
Definition cli_logging : CliArgs := {|
  cli_encoding := latin1;
  cli_timestamp := "none";
  cli_log := true
|}.

(** The data chunks that a script delivers before its first failure. *)
Fixpoint delivered (script : list read_event) : list bytes :=
  match script with
  | [] => []
  | Idle :: rest => delivered rest
  | Incoming [] :: rest => delivered rest
  | Incoming data :: rest => data :: delivered rest
  | SerialException :: _ => []
  end.

Definition no_failure (script : list read_event) : bool :=
  forallb (fun ev => match ev with SerialException => false | _ => true end) script.

(** * Further definitions *)

(** ** Inverse of one CRC shift step *)

(** The register before [crc16_shift], read off the register after it: the
    top bit tells which branch was taken. *)
Definition crc16_unshift (crc : Z) : Z :=
  if 0x8000 <=? crc then 2 * Z.lxor crc 0xA001 + 1 else 2 * crc.

(** ** The hex view of [_display_text]

    [' '.join(f'{b:02X}' for b in raw_data) + ' '], what the display shows
    for received bytes when the hex view is on. *)
Definition hex_view (raw_data : bytes) : string := bytes_hex_upper raw_data +++ " ".

(** A session on an open port with hexadecimal input, whatever the line
    ending and the text encoding. *)
Definition hex_input_on (E : SendEnv) : Prop :=
  bt_send_disabled E = false /\ hex_input_var E = true /\ port E = PortOpen.

(** ** A CAN-ASCII line built from its parts

    [t<3-hex-id><length digit><2*length hex digits>], the form that
    [parse_can_ascii] takes apart. *)
Definition hex_pairs (data : bytes) : string :=
  concat_str (map (fun b => fmt_X 2 (byte_val b)) data).

Definition can_line (t : ascii) (can_id : Z) (data : bytes) : string :=
  String t (fmt_X 3 can_id +++ str_of_int (Z.of_nat (List.length data))
            +++ hex_pairs data).

(** A text without white space. *)
Fixpoint no_space (s : string) : bool :=
  match s with
  | EmptyString => true
  | String c s' => negb (py_isspace c) && no_space s'
  end.

(** The check behind the table of three-digit identifiers: [id] prints as
    three characters without white space that [int(_, 16)] reads back. *)
Definition id3_ok (id : Z) : bool :=
  match fmt_X 3 id with
  | String a (String b (String c EmptyString)) =>
      result_Z_eqb (py_int 16 (fmt_X 3 id)) id && no_space (fmt_X 3 id)
  | _ => false
  end.

(** The same for a length digit and [int(_)]. *)
Definition digit_ok (n : Z) : bool :=
  match str_of_int n with
  | String d EmptyString =>
      result_Z_eqb (py_int 10 (str_of_int n)) n && no_space (str_of_int n)
  | _ => false
  end.

Definition Z_below (n : nat) : list Z := map Z.of_nat (seq 0 n).

(** ** An NMEA sentence closed with its own checksum *)
Definition nmea_sentence (data : string) : string :=
  "$" +++ data +++ "*" +++ fmt_X 2 (xor_chars data 0).

(** The two decoded blocks, from the fields after the sentence type. *)
Definition gga_block (f : nat -> string) : string :=
  "--- GGA: Global Positioning System Fix Data ---" +++ nl +++
  "  Hora (UTC):      " +++ str_to 2 (f 1%nat) +++ ":" +++ str_slice 2 4 (f 1%nat) +++ ":"
    +++ str_from 4 (f 1%nat) +++ nl +++
  "  Latitud:         " +++ f 2%nat +++ " " +++ f 3%nat +++ nl +++
  "  Longitud:        " +++ f 4%nat +++ " " +++ f 5%nat +++ nl +++
  "  Calidad Fix:     " +++ f 6%nat +++ " (0=inv, 1=GPS, 2=DGPS)" +++ nl +++
  "  Sat" +++ e_acute +++ "lites:       " +++ f 7%nat +++ nl +++
  "  HDOP:            " +++ f 8%nat +++ nl +++
  "  Altitud:         " +++ f 9%nat +++ " " +++ f 10%nat +++ nl +++
  "--------------------------------------------------" +++ nl.

Definition rmc_block (f : nat -> string) : string :=
  "--- RMC: Recommended Minimum Specific GNSS Data ---" +++ nl +++
  "  Hora (UTC):      " +++ str_to 2 (f 1%nat) +++ ":" +++ str_slice 2 4 (f 1%nat) +++ ":"
    +++ str_from 4 (f 1%nat) +++ nl +++
  "  Estado:          "
    +++ (if in_AV (f 2%nat) then "A=Activo, V=Vacio" else f 2%nat) +++ nl +++
  "  Velocidad (nudos): " +++ f 7%nat +++ nl +++
  "  Rumbo:           " +++ f 8%nat +++ nl +++
  "  Fecha:           " +++ str_to 2 (f 9%nat) +++ "/" +++ str_slice 2 4 (f 9%nat) +++ "/20"
    +++ str_from 4 (f 9%nat) +++ nl +++
  "--------------------------------------------------" +++ nl.

(** ** The decoded reports of a session *)

(** The report that the selected line decoder returns for a completed line
    (it is called on the line with its terminator). *)
Definition line_report (p : decoder) (line : string) : string :=
  match call_on_line p (line +++ nl) with
  | Ok report => report
  | Raise _ => EmptyString
  end.

Definition frame_report (raw : bytes) : string :=
  match parse_modbus_rtu raw with
  | Ok report => report
  | Raise _ => EmptyString
  end.

(** What a session puts on the decoded queue for the chunks it is given:
    one report per frame in Modbus mode, one per completed line when a line
    decoder is selected, nothing without a decoder. *)
Definition session_reports (J : JsonLib) (S : Session) (chunks : list bytes)
    : list string :=
  if String.eqb (protocol S) "Modbus-RTU" then map frame_report chunks
  else
    match parser J S with
    | Some p =>
        map (line_report p)
          (fst (feed_all "" (decode_all (encoding S) (codec_init (encoding S)) chunks)))
    | None => []
    end.

(** ** The last entry of a CLI log *)

(** What [run_cli_mode] writes at the end for a pending partial line:
    nothing for an empty buffer, else the buffer stripped, on a line. *)
Definition final_entry (pending : string) : string :=
  match pending with
  | EmptyString => EmptyString
  | _ => strip pending +++ nl
  end.

(** The bytes that the events of a script carry, in order. *)
Definition incoming_bytes (script : list read_event) : bytes :=
  flat_map (fun ev => match ev with Incoming data => data | _ => [] end) script.

(** ** The command history and its cursor *)

(** No two neighbours of the history are equal. *)
Fixpoint no_repeat (h : list string) : bool :=
  match h with
  | a :: (b :: _) as rest => negb (String.eqb a b) && no_repeat rest
  | _ => true
  end.

(** [l[i]] with Python's indices: a negative [i] counts from the end. *)
Definition py_getitem {A : Type} (l : list A) (i : Z) : result A :=
  let n := Z.of_nat (List.length l) in
  if 0 <=? i then list_index l (Z.to_nat i)
  else if - n <=? i then list_index l (Z.to_nat (n + i))
  else Raise IndexError.

(** What [_history_up] and [_history_down] read and write: the history,
    the cursor [history_index] (an [int], [-1] at start-up) and the text of
    the entry. *)
Record HistoryView : Type := {
  hv_history : list string;
  hv_index : Z;
  hv_entry : string
}.

(** [SerialLoggerApp._history_up] *)
Definition history_up (v : HistoryView) : result HistoryView :=
  if 0 <? hv_index v then
    let index := hv_index v - 1 in
    text <- py_getitem (hv_history v) index ;;
    Ok {| hv_history := hv_history v; hv_index := index; hv_entry := text |}
  else Ok v.

(** [SerialLoggerApp._history_down] *)
Definition history_down (v : HistoryView) : result HistoryView :=
  let len := Z.of_nat (List.length (hv_history v)) in
  if hv_index v <? len then
    if hv_index v <? len - 1 then
      let index := hv_index v + 1 in
      text <- py_getitem (hv_history v) index ;;
      Ok {| hv_history := hv_history v; hv_index := index; hv_entry := text |}
    else
      Ok {| hv_history := hv_history v; hv_index := hv_index v + 1; hv_entry := "" |}
  else Ok v.

(** The cursor is in range: from [-1] (start-up) to the length (past the
    newest entry). *)
Definition cursor_in_range (v : HistoryView) : Prop :=
  -1 <= hv_index v <= Z.of_nat (List.length (hv_history v)).

(** The history as the cursor sees it after a call of [_send_data]. *)
Definition view_after_send (out : SendOutcome) : HistoryView :=
  {| hv_history := command_history (after out);
     hv_index := Z.of_nat (history_index (after out));
     hv_entry := entry_input (after out) |}.

(** ** [SerialLoggerApp._periodic_send_task]

    [self._send_data()], then the timer is set for the next tick.
    [_toggle_periodic_send] has disabled the entry before the first tick
    ([entry_disabled]).  An exception that leaves [_send_data] leaves the
    task before the timer is set: no further tick follows.  The result is
    the state after [ticks] ticks and what they handed to the port. *)
Fixpoint periodic_send_task (E : SendEnv) (st : SendState) (ticks : nat)
    : SendState * list bytes :=
  match ticks with
  | O => (st, [])
  | Datatypes.S n =>
      let out := send_data E st in
      match raised out with
      | Some _ => (after out, sent out)
      | None =>
          let '(st', more) := periodic_send_task E (after out) n in
          (st', sent out ++ more)
      end
  end.

(** A link that accepts hexadecimal input on an open port while a periodic
    send is running. *)
Definition periodic_hex_env : SendEnv := {|
  bt_send_disabled := false;
  entry_disabled := true;
  hex_input_var := true;
  line_ending_var := "None";
  port := PortOpen;
  str_encode := fun s => Ok (encode_latin1 s)
|}.

(** ** [SerialLoggerApp._display_text] *)

Record DisplayCfg : Type := {
  hex_view_var : bool;
  show_control_chars_var : bool;
  display_encoding : Codec;        (* encoding_var *)
  display_protocol : string;       (* protocol_selector_var *)
  display_timestamp : string;      (* cb_timestamp *)
  display_delimiter : string       (* cb_delimiter *)
}.

(** [CONTROL_CHAR_MAP.get(char)] *)
Definition CONTROL_CHAR_MAP (char : ascii) : option string :=
  if Ascii.eqb char "013" then Some "[CR]"
  else if Ascii.eqb char LF then Some ("[LF]" +++ nl)
  else if Ascii.eqb char "009" then Some "[TAB]"
  else None.

(** The text to display for received bytes ([raw_data]) or for sent text
    ([text_data]); [None], empty bytes and the empty text count as absent. *)
Definition display_string (D : DisplayCfg) (raw_data : option bytes)
    (text_data : option string) : string :=
  match raw_data with
  | Some ((_ :: _) as raw) =>
      if hex_view_var D || String.eqb (display_protocol D) "Modbus-RTU"
      then bytes_hex_upper raw +++ " "
      else snd (codec_decode (display_encoding D) (codec_init (display_encoding D)) raw)
  | _ =>
      match text_data with
      | Some ((String _ _) as text) =>
          if hex_view_var D
          then join " " (map (fun c => fmt_X 2 (ord c))
                           (filter (fun c => ord c <=? 255) (list_ascii_of_string text)))
               +++ " "
          else text
      | _ => EmptyString
      end
  end.

(** A character without a marker. *)
Definition control_free (char : ascii) : bool :=
  match CONTROL_CHAR_MAP char with
  | None => true
  | Some _ => false
  end.

(** One [ta_log_panel.insert(tk.END, text, tags)]. *)
Definition insertion : Type := (string * list string)%type.

(** The loop over the characters: the insertions, [start_of_line] and the
    number of clock readings afterwards. *)
Fixpoint display_chars (D : DisplayCfg) (clock : Clock) (tag : string)
    (s : string) (start_of_line : bool) (t : nat) : list insertion * bool * nat :=
  match s with
  | EmptyString => ([], start_of_line, t)
  | String char s' =>
      let '(stamp, t1) :=
        if start_of_line then
          let timestamp :=
            get_timestamp (clock t) (display_timestamp D) (display_delimiter D) in
          (match timestamp with
           | EmptyString => []
           | _ => [(timestamp, ["received"])]
           end, Datatypes.S t)
        else ([], t) in
      let shown :=
        match (if show_control_chars_var D && negb (hex_view_var D)
               then CONTROL_CHAR_MAP char else None) with
        | Some marker => (marker, ["control_char"; tag])
        | None => (String char "", [tag])
        end in
      let start_of_line' :=
        Ascii.eqb char LF
        || (String.eqb (display_protocol D) "Modbus-RTU" && String.eqb tag "received") in
      let '(rest, sol, t') := display_chars D clock tag s' start_of_line' t1 in
      (stamp ++ shown :: rest, sol, t')
  end.

Definition display_text (D : DisplayCfg) (clock : Clock)
    (raw_data : option bytes) (text_data : option string) (tag : string)
    (start_of_line : bool) (t : nat) : list insertion * bool * nat :=
  display_chars D clock tag (display_string D raw_data text_data) start_of_line t.

(** The text with each CR, LF and TAB replaced by its marker. *)
Fixpoint with_markers (s : string) : string :=
  match s with
  | EmptyString => EmptyString
  | String c s' =>
      match CONTROL_CHAR_MAP c with
      | Some marker => marker +++ with_markers s'
      | None => String c (with_markers s')
      end
  end.

(** All that was inserted, as one text. *)
Definition inserted_text (ins : list insertion) : string := concat_str (map fst ins).

(** A timestamp before every character: what the panel gets for a chunk in
    Modbus mode. *)
Fixpoint stamped_chars (clock : Clock) (format_choice delimiter : string)
    (t : nat) (s : string) : list insertion :=
  match s with
  | EmptyString => []
  | String c s' =>
      (get_timestamp (clock t) format_choice delimiter, ["received"])
        :: (String c "", ["received"])
        :: stamped_chars clock format_choice delimiter (Datatypes.S t) s'
  end.

(** ** v1.5.3: [_serial_read_task] and [_log_writer_task]

    From [src/Python/SerialLoggerDeluxev1.5.3.py]. *)

(** The loop of [_serial_read_task]: what it puts on the display queue and
    on the log queue. *)
Fixpoint serial_read_loop_v153 (log_enabled : bool) (script : list read_event)
    : list bytes * list (option bytes) :=
  match script with
  | [] => ([], [])
  | Idle :: rest => serial_read_loop_v153 log_enabled rest
  | Incoming data :: rest =>
      let '(gui, log) := serial_read_loop_v153 log_enabled rest in
      match data with
      | [] => (gui, log)
      | _ => (data :: gui, if log_enabled then Some data :: log else log)
      end
  | SerialException :: _ =>
      ([error_chunk], if log_enabled then [None] else [])
  end.

(** With its [finally] block: [if log_enabled: self.log_queue.put(None)]. *)
Definition serial_read_task_v153 (log_enabled : bool) (script : list read_event)
    : list bytes * list (option bytes) :=
  let '(gui, log) := serial_read_loop_v153 log_enabled script in
  (gui, log ++ (if log_enabled then [None] else [])).

Record WriterCfg : Type := {
  writer_decoder : Codec;          (* the incremental 'utf-8' decoder *)
  writer_open_succeeds : bool;     (* open(log_filename, mode) does not raise *)
  writer_timestamp : string;       (* cb_timestamp *)
  writer_delimiter : string        (* cb_delimiter *)
}.

Section WriterV153.
Variable clock : Clock.
Variable W : WriterCfg.

(** The inner [while] for the completed lines of one chunk. *)
Fixpoint writer_lines (lines : list string) (file : list file_op) (t : nat)
    : list file_op * nat :=
  match lines with
  | [] => (file, t)
  | line :: rest =>
      let timestamp := get_timestamp (clock t) (writer_timestamp W) (writer_delimiter W) in
      writer_lines rest (file ++ [FWrite (timestamp +++ line +++ nl); FFlush])
        (Datatypes.S t)
  end.

(** [while True] over the queue; the result says whether the sentinel was
    met. *)
Fixpoint writer_loop (log_queue : list (option bytes)) (line_buffer : string)
    (dst : codec_state (writer_decoder W)) (file : list file_op) (t : nat)
    : string * list file_op * nat * task_end :=
  match log_queue with
  | [] => (line_buffer, file, t, Blocked)
  | None :: _ => (line_buffer, file, t, Terminated)
  | Some raw_chunk :: rest =>
      let '(dst', decoded_string) := codec_decode (writer_decoder W) dst raw_chunk in
      let '(lines, pending) := split_lines (line_buffer +++ decoded_string) in
      let '(file', t') := writer_lines lines file t in
      writer_loop rest pending dst' file' t'
  end.

(** The whole task: the loop, the flush of what is left in the buffer,
    and the close of the file at the end of the [with] block. *)
Definition log_writer_task_v153 (log_queue : list (option bytes))
    : list file_op * task_end :=
  if writer_open_succeeds W then
    match writer_loop log_queue "" (codec_init (writer_decoder W)) [] O with
    | (line_buffer, file, t, Terminated) =>
        let file' :=
          match line_buffer with
          | EmptyString => file
          | _ =>
              let timestamp :=
                get_timestamp (clock t) (writer_timestamp W) (writer_delimiter W) in
              file ++ [FWrite (timestamp +++ strip line_buffer +++ nl)]
          end in
        (file' ++ [FClose], Terminated)
    | (_, file, _, Blocked) => (file, Blocked)
    end
  else ([], Terminated).
End WriterV153.

(** A v1.5.3 writer without timestamps, on a decoder that gives one
    character per byte (as UTF-8 does on ASCII bytes). *)
Definition plain_writer : WriterCfg := {|
  writer_decoder := latin1;
  writer_open_succeeds := true;
  writer_timestamp := "none";
  writer_delimiter := "blank"
|}.

(** * Properties *)

(** ** Arithmetic of bytes and of the CRC register *)

Lemma byte_val_range (b : byte) : 0 <= byte_val b < 256.
Proof.
  unfold byte_val. pose proof (Byte.to_N_bounded b). lia.
Qed.

Lemma byte_val_of_Z (z : Z) : byte_val (byte_of_Z z) = z mod 256.
Proof.
  unfold byte_val, byte_of_Z.
  pose proof (Z.mod_pos_bound z 256 eq_refl) as Hm.
  destruct (Byte.of_N (Z.to_N (z mod 256))) as [b|] eqn:E.
  - apply Byte.to_of_N in E. rewrite E. lia.
  - apply Byte.of_N_None_iff in E. lia.
Qed.

Lemma below_pow2_shiftr (n a : Z) :
  0 <= n -> 0 <= a -> (a < 2 ^ n <-> Z.shiftr a n = 0).
Proof.
  intros Hn Ha. rewrite Z.shiftr_div_pow2 by assumption.
  assert (0 < 2 ^ n) by (apply Z.pow_pos_nonneg; lia).
  split; intro H1.
  - apply Z.div_small; lia.
  - apply Z.div_small_iff in H1; lia.
Qed.

Lemma lxor_below_pow2 (n a b : Z) :
  0 <= n -> 0 <= a < 2 ^ n -> 0 <= b < 2 ^ n -> 0 <= Z.lxor a b < 2 ^ n.
Proof.
  intros Hn [Ha0 Ha] [Hb0 Hb].
  assert (H0 : 0 <= Z.lxor a b) by (apply Z.lxor_nonneg; tauto).
  split; [exact H0|].
  apply (below_pow2_shiftr n _ Hn H0).
  rewrite Z.shiftr_lxor.
  apply (below_pow2_shiftr n a Hn Ha0) in Ha.
  apply (below_pow2_shiftr n b Hn Hb0) in Hb.
  rewrite Ha, Hb. reflexivity.
Qed.

Lemma crc16_shift_reg16 crc : reg16 crc -> reg16 (crc16_shift crc).
Proof.
  unfold reg16, crc16_shift. intros H.
  rewrite (Z.shiftr_div_pow2 crc 1) by lia. change (2 ^ 1) with 2.
  assert (Hh : 0 <= crc / 2 < 32768).
  { split; [apply Z.div_pos; lia | apply Z.div_lt_upper_bound; lia]. }
  destruct (negb (Z.land crc 1 =? 0)).
  - apply (lxor_below_pow2 16); lia.
  - lia.
Qed.

Lemma crc16_bits_reg16 n crc : reg16 crc -> reg16 (crc16_bits n crc).
Proof.
  revert crc; induction n as [|n IH]; intros crc H; simpl; [exact H|].
  apply IH, crc16_shift_reg16, H.
Qed.

Lemma crc16_byte_reg16 crc b : reg16 crc -> reg16 (crc16_byte crc b).
Proof.
  intros H. unfold crc16_byte. apply crc16_bits_reg16.
  pose proof (byte_val_range b).
  apply (lxor_below_pow2 16); unfold reg16 in H; lia.
Qed.

Lemma fold_crc16_reg16 data crc :
  reg16 crc -> reg16 (fold_left crc16_byte data crc).
Proof.
  revert crc; induction data as [|b data IH]; intros crc H; simpl; [exact H|].
  apply IH, crc16_byte_reg16, H.
Qed.

Lemma calculate_crc16_range data : 0 <= calculate_crc16 data < 65536.
Proof. apply fold_crc16_reg16. unfold reg16. lia. Qed.

(** The source's low-bit test and shift agree with the specification's. *)
Lemma crc16_shift_spec crc : crc16_shift crc = spec_shift crc.
Proof.
  unfold crc16_shift, spec_shift.
  rewrite (Z.shiftr_div_pow2 crc 1) by lia. change (2 ^ 1) with 2.
  change 1 with (Z.ones 1) at 1. rewrite Z.land_ones by lia. change (2 ^ 1) with 2.
  rewrite <- Z.bit0_odd, Z.bit0_eqb.
  pose proof (Z.mod_pos_bound crc 2 eq_refl).
  destruct (crc mod 2 =? 0) eqn:E0, (crc mod 2 =? 1) eqn:E1; simpl; try reflexivity; lia.
Qed.

Lemma crc16_bits_spec n crc : crc16_bits n crc = Nat.iter n spec_shift crc.
Proof.
  revert crc; induction n as [|n IH]; intros crc; [reflexivity|].
  simpl crc16_bits. rewrite IH, crc16_shift_spec.
  clear IH. induction n as [|n IH]; [reflexivity|]. simpl in *. rewrite IH. reflexivity.
Qed.

(** Exclusive-or with a byte only touches the low byte of the register. *)
Lemma lxor_low_byte (crc b : Z) :
  0 <= b < 256 -> Z.lxor crc b = spec_xor_low_byte crc b.
Proof.
  intros Hb. unfold spec_xor_low_byte.
  rewrite (Z.div_mod (Z.lxor crc b) 256) at 1 by lia.
  f_equal.
  - f_equal. change 256 with (2 ^ 8). rewrite <- !Z.shiftr_div_pow2 by lia.
    rewrite Z.shiftr_lxor.
    replace (Z.shiftr b 8) with 0; [apply Z.lxor_0_r|].
    symmetry. rewrite Z.shiftr_div_pow2 by lia. apply Z.div_small. exact Hb.
  - rewrite <- (Z.mod_small b 256) by exact Hb.
    change 256 with (2 ^ 8).
    apply Z.bits_inj'. intros i Hi.
    rewrite Z.lxor_spec, !Z.testbit_mod_pow2, Z.lxor_spec, Z.testbit_mod_pow2 by lia.
    destruct (i <? 8), (Z.testbit crc i), (Z.testbit b i); reflexivity.
Qed.

Lemma calculate_crc16_spec data : calculate_crc16 data = spec_crc16_modbus data.
Proof.
  unfold calculate_crc16, spec_crc16_modbus.
  generalize 0xFFFF. induction data as [|b data IH]; intros crc; simpl; [reflexivity|].
  rewrite <- IH. f_equal.
  unfold crc16_byte. rewrite crc16_bits_spec.
  rewrite lxor_low_byte by apply byte_val_range. reflexivity.
Qed.

(** ** Slices of a frame and the two CRC bytes *)

Lemma int_from_bytes_little2 (n : Z) :
  0 <= n < 65536 -> int_from_bytes_little (to_bytes_little2 n) = n.
Proof.
  intros Hn. unfold to_bytes_little2, int_from_bytes_little.
  rewrite !byte_val_of_Z.
  change 255 with (Z.ones 8). rewrite Z.land_ones by lia.
  rewrite Z.shiftr_div_pow2 by lia. change (2 ^ 8) with 256.
  rewrite Z.mod_mod by lia.
  rewrite (Z.mod_small (n / 256) 256).
  - pose proof (Z.div_mod n 256 ltac:(lia)). lia.
  - split; [apply Z.div_pos; lia | apply Z.div_lt_upper_bound; lia].
Qed.

Lemma slice_to_m2_app {A} (l : list A) (x y : A) : slice_to_m2 (l ++ [x; y]) = l.
Proof.
  unfold slice_to_m2. rewrite length_app. simpl.
  replace (List.length l + 2 - 2)%nat with (List.length l + 0)%nat by lia.
  rewrite firstn_app_2. simpl. apply app_nil_r.
Qed.

Lemma slice_from_m2_app {A} (l : list A) (x y : A) :
  slice_from_m2 (l ++ [x; y]) = [x; y].
Proof.
  unfold slice_from_m2. rewrite length_app. simpl.
  replace (List.length l + 2 - 2)%nat with (List.length l) by lia.
  rewrite skipn_app, skipn_all, Nat.sub_diag. reflexivity.
Qed.

Lemma slice_2_to_m2_app {A} (a f : A) (l : list A) (x y : A) :
  slice_2_to_m2 (a :: f :: l ++ [x; y]) = l.
Proof.
  unfold slice_2_to_m2.
  change (a :: f :: l ++ [x; y]) with ((a :: f :: l) ++ [x; y]).
  fold (slice_to_m2 ((a :: f :: l) ++ [x; y])). rewrite slice_to_m2_app. reflexivity.
Qed.

(** ** Searching a report *)

Lemma prefix_refl_append (n s : string) : String.prefix n (n +++ s) = true.
Proof.
  induction n as [|c n IH]; simpl; [destruct s; reflexivity|].
  destruct (ascii_dec c c) as [_|F]; [exact IH | contradiction].
Qed.

Lemma str_contains_unfold (n h : string) :
  str_contains n h =
  String.prefix n h ||
  match h with String _ h' => str_contains n h' | EmptyString => false end.
Proof. destruct h; reflexivity. Qed.

Lemma str_contains_here (n s : string) : str_contains n (n +++ s) = true.
Proof. rewrite str_contains_unfold, prefix_refl_append. reflexivity. Qed.

Lemma str_contains_skip (n p h : string) :
  str_contains n h = true -> str_contains n (p +++ h) = true.
Proof.
  intros H. induction p as [|c p IH]; [exact H|].
  rewrite str_contains_unfold. simpl String.append. cbv iota.
  rewrite IH. apply orb_true_r.
Qed.

(** A frame closed with its own CRC is decoded, and its CRC is reported
    [OK]. *)
Lemma parse_modbus_rtu_own_crc (address function_code : byte) (payload : bytes) :
  let b := address :: function_code :: payload in
  parse_modbus_rtu (b ++ to_bytes_little2 (calculate_crc16 b)) =
  Ok ("--- MODBUS RTU ---" +++ nl +++
      "  ID Esclavo:      " +++ str_of_int (byte_val address) +++ nl +++
      "  Funci" +++ o_acute +++ "n:         " +++ str_of_int (byte_val function_code)
        +++ " (" +++ func_name (byte_val function_code) +++ ")" +++ nl +++
      "  Datos (Hex):     " +++ bytes_hex_upper payload +++ nl +++
      "  CRC Recibido:    " +++ fmt_X 4 (calculate_crc16 b) +++ " (OK)" +++ nl +++
      "---------------------" +++ nl).
Proof.
  intros b. subst b.
  set (crc := calculate_crc16 (address :: function_code :: payload)).
  unfold parse_modbus_rtu.
  replace (List.length ((address :: function_code :: payload) ++ to_bytes_little2 crc) <? 4)%nat
    with false.
  2:{ symmetry. apply Nat.ltb_ge. rewrite length_app. simpl. lia. }
  unfold to_bytes_little2.
  simpl list_index. unfold bind.
  change ((address :: function_code :: payload) ++ ?l)
    with (address :: function_code :: payload ++ l).
  rewrite slice_2_to_m2_app.
  change (address :: function_code :: payload ++ ?l)
    with ((address :: function_code :: payload) ++ l).
  rewrite slice_from_m2_app, slice_to_m2_app.
  fold (to_bytes_little2 crc). fold crc.
  rewrite int_from_bytes_little2 by apply calculate_crc16_range.
  unfold crc_status. rewrite Z.eqb_refl. reflexivity.
Qed.

Ltac skip_to_ok :=
  repeat match goal with
         | |- str_contains _ (?p +++ _) = true =>
             lazymatch p with
             | " (OK)" => fail
             | _ => apply str_contains_skip
             end
         end.

(** C1 (as amended): [calculate_crc16] is the bit-at-a-time CRC-16/MODBUS of
    the specification (register 0xFFFF, polynomial 0xA001, byte into the low
    byte, eight shift steps), its value fits two bytes, and for every byte
    sequence [data] of at least two bytes the frame [data] followed by the
    little-endian CRC of [data] is decoded by [parse_modbus_rtu] with CRC
    status OK. *)
Theorem crc16_own_frame_reports_ok (data : bytes) :
  (2 <= List.length data)%nat ->
  calculate_crc16 data = spec_crc16_modbus data /\
  0 <= calculate_crc16 data < 65536 /\
  reports_crc_ok
    (parse_modbus_rtu (data ++ to_bytes_little2 (calculate_crc16 data))) = true.
Proof.
  intros Hlen.
  split; [apply calculate_crc16_spec|].
  split; [apply calculate_crc16_range|].
  destruct data as [|address [|function_code payload]]; simpl in Hlen; try lia.
  rewrite (parse_modbus_rtu_own_crc address function_code payload).
  unfold reports_crc_ok. skip_to_ok.
  change (" (OK)" +++ ?r) with (" " +++ "(OK)" +++ r).
  apply str_contains_skip, str_contains_here.
Qed.

Lemma crc16_own_frame_reports_ok_witness :
  (2 <= List.length [x01; x03; x02; x00; x0a])%nat /\
  (calculate_crc16 [x01; x03; x02; x00; x0a] = spec_crc16_modbus [x01; x03; x02; x00; x0a] /\
   0 <= calculate_crc16 [x01; x03; x02; x00; x0a] < 65536 /\
   reports_crc_ok
     (parse_modbus_rtu ([x01; x03; x02; x00; x0a]
        ++ to_bytes_little2 (calculate_crc16 [x01; x03; x02; x00; x0a]))) = true).
Proof.
  split; [simpl; lia | apply (crc16_own_frame_reports_ok [x01; x03; x02; x00; x0a]); simpl; lia].
Defined.

(** C1 as stated fails on the empty byte sequence: its two CRC bytes alone
    make a frame of two bytes, which the decoder reports as too short and
    without any CRC status. *)
Lemma crc16_own_frame_too_short :
  parse_modbus_rtu ([] ++ to_bytes_little2 (calculate_crc16 [])) =
    Ok ("[TRAMA MODBUS MUY CORTA: FF FF]" +++ nl) /\
  reports_crc_ok (parse_modbus_rtu ([] ++ to_bytes_little2 (calculate_crc16 []))) = false.
Proof. split; reflexivity. Qed.

(** The check value of CRC-16/MODBUS, and the frame of the second
    end-to-end scenario. *)
Example calculate_crc16_check :
  calculate_crc16 [x31; x32; x33; x34; x35; x36; x37; x38; x39] = 0x4B37.
Proof. reflexivity. Qed.

Example parse_modbus_rtu_read_holding :
  parse_modbus_rtu [x01; x03; x02; x00; x0a; x38; x43] =
  Ok ("--- MODBUS RTU ---" +++ nl +++
      "  ID Esclavo:      1" +++ nl +++
      "  Funci" +++ o_acute +++ "n:         3 (Read Holding Registers)" +++ nl +++
      "  Datos (Hex):     02 00 0A" +++ nl +++
      "  CRC Recibido:    4338 (OK)" +++ nl +++
      "---------------------" +++ nl).
Proof. reflexivity. Qed.

(** ** Strings *)

Lemma append_nil_r (s : string) : s +++ "" = s.
Proof. induction s as [|c s IH]; simpl; [reflexivity | rewrite IH; reflexivity]. Qed.

Lemma append_assoc (a b c : string) : (a +++ b) +++ c = a +++ (b +++ c).
Proof. induction a as [|x a IH]; simpl; [reflexivity | rewrite IH; reflexivity]. Qed.

Lemma concat_str_cons (c : string) (rest : list string) :
  concat_str (c :: rest) = c +++ concat_str rest.
Proof.
  unfold concat_str. destruct rest as [|d rest]; simpl.
  - symmetry; apply append_nil_r.
  - reflexivity.
Qed.

(** ** The line-reassembly loop *)

Section Reassembler.

Lemma split_lines_step (s : string) :
  split_lines s =
  match split_once LF s with
  | Some (line, rest) =>
      let '(lines, pending) := split_lines rest in (line :: lines, pending)
  | None => ([], s)
  end.
Proof.
  funelim (split_lines s).
  - rewrite Heq. reflexivity.
  - rewrite e. reflexivity.
Qed.

Lemma split_lines_nil : split_lines "" = ([], "").
Proof. rewrite split_lines_step. reflexivity. Qed.

(** The loop, read one character at a time. *)
Lemma split_lines_cons (c : ascii) (s : string) :
  split_lines (String c s) =
  let '(lines, pending) := split_lines s in
  if Ascii.eqb c LF then (EmptyString :: lines, pending)
  else match lines with
       | [] => ([], String c pending)
       | l :: ls => (String c l :: ls, pending)
       end.
Proof.
  rewrite (split_lines_step (String c s)). simpl split_once.
  destruct (Ascii.eqb c LF).
  - destruct (split_lines s). reflexivity.
  - rewrite (split_lines_step s).
    destruct (split_once LF s) as [[a b]|].
    + destruct (split_lines b). reflexivity.
    + reflexivity.
Qed.

Lemma split_lines_no_lf (s : string) :
  contains LF s = false -> split_lines s = ([], s).
Proof.
  induction s as [|c s IH]; intros H; [apply split_lines_nil|].
  simpl in H. apply orb_false_iff in H as [Hc Hs].
  rewrite split_lines_cons, (IH Hs), Hc. reflexivity.
Qed.

Lemma split_lines_some_lf (s : string) :
  contains LF s = true -> fst (split_lines s) <> [].
Proof.
  induction s as [|c s IH]; intros H; [discriminate|].
  rewrite split_lines_cons. simpl in H.
  destruct (split_lines s) as [lines pending] eqn:E.
  destruct (Ascii.eqb c LF); simpl in *; [discriminate|].
  specialize (IH H). destruct lines; [contradiction | discriminate].
Qed.

(** Lines plus pending text give the input back. *)
Lemma split_lines_lossless (s : string) :
  unlines (fst (split_lines s)) +++ snd (split_lines s) = s.
Proof.
  induction s as [|c s IH]; [rewrite split_lines_nil; reflexivity|].
  rewrite split_lines_cons.
  destruct (split_lines s) as [lines pending]. simpl in IH.
  destruct (Ascii.eqb_spec c LF) as [->|Hc].
  - simpl. rewrite IH. reflexivity.
  - destruct lines as [|l ls]; simpl in *; rewrite IH; reflexivity.
Qed.

Lemma split_lines_count (s : string) :
  List.length (fst (split_lines s)) = count_char LF s.
Proof.
  induction s as [|c s IH]; [rewrite split_lines_nil; reflexivity|].
  rewrite split_lines_cons. simpl count_char.
  destruct (split_lines s) as [lines pending]. simpl in IH.
  destruct (Ascii.eqb c LF); simpl.
  - rewrite IH. reflexivity.
  - destruct lines; simpl in *; exact IH.
Qed.

(** No emitted line and no pending buffer holds a terminator. *)
Lemma split_lines_clean (s : string) :
  Forall (fun l => contains LF l = false) (fst (split_lines s)) /\
  contains LF (snd (split_lines s)) = false.
Proof.
  induction s as [|c s IH]; [rewrite split_lines_nil; split; [constructor | reflexivity]|].
  rewrite split_lines_cons.
  destruct (split_lines s) as [lines pending]. simpl in IH. destruct IH as [IHl IHp].
  destruct (Ascii.eqb c LF) eqn:Ec; simpl.
  - split; [constructor; [reflexivity | exact IHl] | exact IHp].
  - destruct lines as [|l ls]; simpl.
    + split; [constructor | rewrite Ec, IHp; reflexivity].
    + inversion IHl as [|? ? Hl Hls]; subst.
      split; [constructor; [simpl; rewrite Ec, Hl; reflexivity | exact Hls] | exact IHp].
Qed.

Lemma split_lines_pending (s : string) :
  snd (split_lines s) = after_last_lf s.
Proof.
  induction s as [|c s IH]; [rewrite split_lines_nil; reflexivity|].
  rewrite split_lines_cons. simpl after_last_lf.
  destruct (contains LF s) eqn:Hs.
  - pose proof (split_lines_some_lf s Hs) as Hne.
    destruct (split_lines s) as [lines pending]. simpl in *.
    destruct (Ascii.eqb c LF); [exact IH|].
    destruct lines; [contradiction | exact IH].
  - rewrite (split_lines_no_lf s Hs).
    destruct (Ascii.eqb c LF); reflexivity.
Qed.

(** Splitting a text in two and carrying the pending buffer over gives
    what splitting the whole text gives. *)
Lemma split_lines_app (a b : string) :
  split_lines (a +++ b) =
  (fst (split_lines a) ++ fst (split_lines (snd (split_lines a) +++ b)),
   snd (split_lines (snd (split_lines a) +++ b))).
Proof.
  induction a as [|c a IH].
  - rewrite split_lines_nil. simpl. destruct (split_lines b); reflexivity.
  - simpl String.append. rewrite !split_lines_cons, IH.
    destruct (split_lines a) as [lines pending]. simpl.
    destruct (Ascii.eqb c LF) eqn:Ec; simpl.
    + reflexivity.
    + destruct lines as [|l ls]; simpl.
      * rewrite split_lines_cons, Ec.
        destruct (split_lines (pending +++ b)) as [l2 p2]. simpl.
        destruct l2; reflexivity.
      * reflexivity.
Qed.

Lemma feed_all_concat (buf : string) (chunks : list string) :
  contains LF buf = false ->
  feed_all buf chunks = split_lines (buf +++ concat_str chunks).
Proof.
  revert buf; induction chunks as [|c rest IH]; intros buf Hbuf.
  - simpl. rewrite append_nil_r, (split_lines_no_lf buf Hbuf). reflexivity.
  - simpl feed_all. unfold feed.
    rewrite concat_str_cons, <- append_assoc, (split_lines_app (buf +++ c)).
    pose proof (split_lines_clean (buf +++ c)) as [_ Hp].
    destruct (split_lines (buf +++ c)) as [lines pending]. simpl in *.
    rewrite (IH pending Hp).
    destruct (split_lines (pending +++ concat_str rest)); reflexivity.
Qed.

End Reassembler.


(** Third end-to-end scenario: ["He"] then ["llo\n"]. *)
Example reassembler_hello :
  feed_all "" ["He"; "llo" +++ nl] = (["Hello"], "").
Proof. reflexivity. Qed.

(** ** Stripping and splitting *)

Lemma all_ascii_complete (c : ascii) : In c all_ascii.
Proof.
  unfold all_ascii. rewrite <- (ascii_nat_embedding c).
  apply in_map, in_seq. pose proof (nat_ascii_bounded c). lia.
Qed.

(** A property checked on the 256 characters holds of every character. *)
Lemma for_all_ascii (P : ascii -> bool) :
  forallb P all_ascii = true -> forall c, P c = true.
Proof.
  intros H c. rewrite forallb_forall in H. apply H, all_ascii_complete.
Qed.

Lemma rstrip_all_space (t : string) : all_space t = true -> rstrip t = "".
Proof.
  induction t as [|c t IH]; simpl; [reflexivity|].
  intros H. apply andb_true_iff in H as [Hc Ht].
  rewrite (IH Ht), Hc. reflexivity.
Qed.

Lemma rstrip_app (s t : string) :
  rstrip (s +++ t) =
  match rstrip t with
  | EmptyString => rstrip s
  | r => s +++ r
  end.
Proof.
  induction s as [|c s IH].
  - simpl. destruct (rstrip t); reflexivity.
  - simpl. rewrite IH. destruct (rstrip t) as [|x r]; [reflexivity|].
    destruct s; reflexivity.
Qed.

Lemma rstrip_ends_nonspace (s : string) (c : ascii) :
  py_isspace c = false -> rstrip (s +++ String c "") = s +++ String c "".
Proof. intros Hc. rewrite rstrip_app. simpl. rewrite Hc. reflexivity. Qed.

Lemma lstrip_all_space_app (pre s : string) :
  all_space pre = true -> lstrip (pre +++ s) = lstrip s.
Proof.
  induction pre as [|c pre IH]; simpl; [reflexivity|].
  intros H. apply andb_true_iff in H as [Hc Hp]. rewrite Hc. exact (IH Hp).
Qed.

Lemma contains_count (sep : ascii) (s : string) :
  contains sep s = false <-> count_char sep s = O.
Proof.
  induction s as [|c s IH]; simpl; [tauto|].
  destruct (Ascii.eqb c sep); simpl; [split; [discriminate | lia] | exact IH].
Qed.

Lemma contains_app_sep (sep : ascii) (a b : string) :
  contains sep (a +++ String sep b) = true.
Proof.
  induction a as [|c a IH]; simpl.
  - rewrite Ascii.eqb_refl. reflexivity.
  - rewrite IH. apply orb_true_r.
Qed.

Lemma split_nonempty (sep : ascii) (s : string) : split sep s <> [].
Proof.
  destruct s as [|c s]; simpl; [discriminate|].
  destruct (Ascii.eqb c sep); [discriminate|].
  destruct (split sep s); discriminate.
Qed.

Lemma split_length (sep : ascii) (s : string) :
  List.length (split sep s) = Datatypes.S (count_char sep s).
Proof.
  induction s as [|c s IH]; simpl; [reflexivity|].
  destruct (Ascii.eqb c sep); simpl; [rewrite IH; reflexivity|].
  destruct (split sep s); simpl in *; [discriminate | exact IH].
Qed.

Lemma split_no_sep (sep : ascii) (s : string) :
  contains sep s = false -> split sep s = [s].
Proof.
  induction s as [|c s IH]; simpl; [reflexivity|].
  intros H. apply orb_false_iff in H as [Hc Hs].
  rewrite Hc, (IH Hs). reflexivity.
Qed.

Lemma split_app_sep (sep : ascii) (a b : string) :
  contains sep a = false -> split sep (a +++ String sep b) = a :: split sep b.
Proof.
  induction a as [|c a IH]; simpl.
  - intros _. rewrite Ascii.eqb_refl. reflexivity.
  - intros H. apply orb_false_iff in H as [Hc Ha].
    rewrite Hc, (IH Ha). reflexivity.
Qed.

(** ** Two hexadecimal digits *)

Lemma hex_digit_listed (c : ascii) (v : Z) :
  hex_digit c v -> In c hex_chars.
Proof.
  intros [E L].
  assert (H : forallb (fun c =>
            match digit_value c with
            | Some v => if v <? 16 then existsb (Ascii.eqb c) hex_chars else true
            | None => true
            end) all_ascii = true) by (vm_compute; reflexivity).
  pose proof (for_all_ascii _ H c) as T. cbv beta in T.
  rewrite E in T. apply Z.ltb_lt in L. rewrite L in T.
  apply existsb_exists in T as (x & Hx & Hcx).
  apply Ascii.eqb_eq in Hcx. subst x. exact Hx.
Qed.

Lemma two_hex_table :
  forallb (fun c1 => forallb (two_hex_ok c1) hex_chars) hex_chars = true.
Proof. vm_compute. reflexivity. Qed.

Lemma two_hex_digits (h1 h2 : ascii) (v1 v2 : Z) :
  hex_digit h1 v1 -> hex_digit h2 v2 ->
  py_int 16 (String h1 (String h2 "")) = Ok (16 * v1 + v2) /\
  py_isspace h2 = false /\
  contains "*" (String h1 (String h2 "")) = false.
Proof.
  intros H1 H2.
  pose proof (hex_digit_listed h1 v1 H1) as I1.
  pose proof (hex_digit_listed h2 v2 H2) as I2.
  destruct H1 as [E1 L1], H2 as [E2 L2].
  pose proof two_hex_table as T.
  rewrite forallb_forall in T. specialize (T h1 I1).
  rewrite forallb_forall in T. specialize (T h2 I2).
  unfold two_hex_ok in T. rewrite E1, E2 in T.
  apply Z.ltb_lt in L1, L2. rewrite L1, L2 in T. simpl in T.
  apply andb_true_iff in T as [T T4]. apply andb_true_iff in T as [T T3].
  apply andb_true_iff in T as [T1 T2].
  repeat split.
  - destruct (py_int 16 (String h1 (String h2 ""))) as [v|e]; simpl in T1; [|discriminate].
    apply Z.eqb_eq in T1. subst v. reflexivity.
  - apply negb_true_iff in T2. exact T2.
  - simpl. apply negb_true_iff in T3, T4. rewrite T3, T4. reflexivity.
Qed.

Lemma option_Z_eqb_eq (a b : option Z) : option_Z_eqb a b = true -> a = b.
Proof.
  destruct a, b; simpl; try discriminate; [|reflexivity].
  intros H. apply Z.eqb_eq in H. subst. reflexivity.
Qed.

Lemma digit_value_lower (c : ascii) : digit_value (lower c) = digit_value c.
Proof.
  apply option_Z_eqb_eq.
  apply (for_all_ascii (fun c => option_Z_eqb (digit_value (lower c)) (digit_value c))).
  vm_compute. reflexivity.
Qed.

(** ** What the primitives can raise *)

Lemma list_index_raises {A} (l : list A) (i : nat) (e : exn) :
  list_index l i = Raise e -> e = IndexError.
Proof.
  revert i; induction l as [|x l IH]; intros [|i]; simpl; try congruence.
  apply IH.
Qed.

Lemma str_index_raises (s : string) (i : nat) (e : exn) :
  str_index s i = Raise e -> e = IndexError.
Proof.
  revert i; induction s as [|c s IH]; intros [|i]; simpl; try congruence.
  apply IH.
Qed.

Lemma py_int_raises (base : Z) (s : string) (e : exn) :
  py_int base s = Raise e -> e = ValueError.
Proof.
  unfold py_int.
  destruct (match int_skip_space s with
            | String "+" r => (1, r)
            | String "-" r => (-1, r)
            | _ => (1, int_skip_space s)
            end) as [sign s2].
  destruct (startswith (int_prefix base s2) "_"); [congruence|].
  destruct (int_scan base (int_prefix base s2) false 0 0) as [[[v [|d]] rest]|];
    try congruence.
  destruct (int_skip_space rest); congruence.
Qed.

Lemma fromhex_raises (s : string) (e : exn) :
  fromhex s = Raise e -> e = ValueError.
Proof.
  remember (String.length s) as n eqn:Hn.
  revert s Hn e. induction n as [n IH] using lt_wf_ind. intros s Hn e.
  destruct s as [|c s]; simpl; [discriminate|].
  destruct (c_isspace c).
  - apply (IH (String.length s)); [subst n; simpl; lia | reflexivity].
  - destruct (digit_value c) as [top|]; [|congruence].
    destruct s as [|d s]; [congruence|].
    destruct (digit_value d) as [bot|]; [|congruence].
    destruct ((top <? 16) && (bot <? 16)); [|congruence].
    destruct (fromhex s) as [rest|e'] eqn:E; simpl; [discriminate|].
    intros [= <-].
    apply (IH (String.length s)) with (s := s); [subst n; simpl; lia | reflexivity | exact E].
Qed.

(** ** [parse_nmea_sentence] *)

Lemma strip_sentence (body trail : string) (c : ascii) :
  py_isspace c = false -> all_space trail = true ->
  strip (String "$" (body +++ String c "") +++ trail) = String "$" (body +++ String c "").
Proof.
  intros Hc Ht. unfold strip.
  change (lstrip (String "$" (body +++ String c "") +++ trail))
    with (String "$" (body +++ String c "") +++ trail).
  rewrite rstrip_app, (rstrip_all_space trail Ht).
  change (String "$" (body +++ String c "")) with (String "$" body +++ String c "").
  apply rstrip_ends_nonspace, Hc.
Qed.

(** A line outside the shape never reaches the checksum comparison. *)
Lemma parse_nmea_off_shape (line : string) :
  nmea_shape (strip line) = false ->
  parse_nmea_sentence line = Ok ("[NO NMEA] " +++ strip line +++ nl) \/
  parse_nmea_sentence line =
    Ok ("[FORMATO NMEA INV" +++ A_acute +++ "LIDO] " +++ strip line +++ nl).
Proof.
  unfold nmea_shape, parse_nmea_sentence. set (l := strip line). intros H.
  destruct (startswith l "$") eqn:Hs; simpl in *; [|left; reflexivity].
  destruct (contains "*" l) eqn:Hc; simpl; [|left; reflexivity].
  right.
  pose proof (split_length "*" l) as Hlen.
  apply Nat.eqb_neq in H.
  destruct (split "*" l) as [|a [|b [|c r]]]; simpl in Hlen; try reflexivity.
  lia.
Qed.

(** The loop of the source computes the checksum of the specification. *)
Lemma xor_chars_spec_checksum (s : string) (acc : Z) :
  xor_chars s acc = Z.lxor acc (spec_checksum s).
Proof.
  revert acc. induction s as [|c s IH]; intros acc.
  - simpl. rewrite Z.lxor_0_r. reflexivity.
  - simpl xor_chars. rewrite IH. unfold spec_checksum. simpl.
    rewrite Z.lxor_assoc. reflexivity.
Qed.

Lemma split_one (sep : ascii) (s b : string) :
  split sep s = [b] -> s = b /\ contains sep s = false.
Proof.
  revert b. induction s as [|c s IH]; intros b; simpl.
  - intros [= <-]. split; reflexivity.
  - pose proof (split_nonempty sep s) as Hne.
    destruct (Ascii.eqb c sep) eqn:Hc.
    + destruct (split sep s); [contradiction | discriminate].
    + destruct (split sep s) as [|p ps]; [contradiction|].
      intros [= <- ->]. destruct (IH p eq_refl) as [-> Hn].
      split; [reflexivity | exact Hn].
Qed.

(** A text that splits in two holds the separator once, between the two
    pieces. *)
Lemma split_two (sep : ascii) (s a b : string) :
  split sep s = [a; b] ->
  s = a +++ String sep b /\ contains sep a = false /\ contains sep b = false.
Proof.
  revert a. induction s as [|c s IH]; intros a; simpl.
  - discriminate.
  - pose proof (split_nonempty sep s) as Hne.
    destruct (Ascii.eqb c sep) eqn:Hc.
    + intros [= <- Hs]. apply split_one in Hs as [-> Hn].
      apply Ascii.eqb_eq in Hc. subst c.
      split; [reflexivity | split; [reflexivity | exact Hn]].
    + destruct (split sep s) as [|p ps]; [contradiction|].
      intros [= <- ->]. destruct (IH p eq_refl) as (-> & Ha & Hb).
      split; [reflexivity | split; [simpl; rewrite Hc; exact Ha | exact Hb]].
Qed.

(** The shape, taken apart: the data between ['$'] and the one ['*'], and
    the text after the ['*']. *)
Lemma nmea_shape_parts (l : string) :
  nmea_shape l = true ->
  exists data checksum_str,
    l = "$" +++ data +++ "*" +++ checksum_str /\
    contains "*" data = false /\ contains "*" checksum_str = false /\
    split "*" l = [String "$" data; checksum_str].
Proof.
  unfold nmea_shape. intros H. apply andb_true_iff in H as [Hs Hc].
  apply Nat.eqb_eq in Hc.
  pose proof (split_length "*" l) as Hlen. rewrite Hc in Hlen.
  destruct (split "*" l) as [|a [|b [|x r]]] eqn:Es; try discriminate.
  destruct (split_two "*" l a b Es) as (El & Ha & Hb).
  destruct a as [|d data].
  - subst l. simpl in Hs. discriminate.
  - assert (d = "$"%char) as ->.
    { subst l. simpl in Hs. apply Ascii.eqb_eq in Hs. exact Hs. }
    simpl in Ha.
    exists data, b.
    split; [exact El | split; [exact Ha | split; [exact Hb | reflexivity]]].
Qed.

Lemma two_digit_table :
  forallb (fun u1 => forallb (fun u2 =>
    forallb (fun v1 => forallb (two_digit_value_ok u1 u2 v1) (seq 0 16)) (seq 0 16))
    [true; false]) [true; false] = true.
Proof. vm_compute. reflexivity. Qed.

Lemma two_digit_value (u1 u2 : bool) (v1 v2 : nat) :
  (v1 < 16)%nat -> (v2 < 16)%nat ->
  py_int 16 (String (hex_digit_of u1 v1) (String (hex_digit_of u2 v2) "")) =
  Ok (Z.of_nat (16 * v1 + v2)).
Proof.
  intros H1 H2. pose proof two_digit_table as T.
  rewrite forallb_forall in T.
  assert (Hu : forall u : bool, In u [true; false]) by (intros [|]; simpl; auto).
  specialize (T u1 (Hu u1)). rewrite forallb_forall in T.
  specialize (T u2 (Hu u2)). rewrite forallb_forall in T.
  specialize (T v1 ltac:(apply in_seq; lia)). rewrite forallb_forall in T.
  specialize (T v2 ltac:(apply in_seq; lia)).
  unfold two_digit_value_ok, result_Z_eqb in T.
  destruct (py_int 16 _) as [v|e]; [|discriminate].
  apply Z.eqb_eq in T. subst v. reflexivity.
Qed.

(** C2 (as amended): the shape is tested on the line stripped of its
    surrounding white space.  For every line whose stripped text starts with
    ['$'] and holds exactly one ['*'], the decoder takes the text between the
    two as data, computes the exclusive-or of its characters (the checksum
    of the specification, [spec_checksum]) and reads the text after the
    ['*'] with [int(_, 16)]: if that is no hexadecimal number the result is
    the diagnostic [CHECKSUM INVALIDO]; else the two values are compared, a
    mismatch gives the report that shows both values, and a match goes on to
    the decoding of the fields.  Two hexadecimal digits, each in either
    case, are read as sixteen times the first plus the second.  A line whose
    stripped text is outside the shape gets one of the two shape
    diagnostics and no comparison. *)
Theorem nmea_checksum_comparison (line : string) :
  nmea_shape (strip line) = true ->
  (exists data checksum_str,
     strip line = "$" +++ data +++ "*" +++ checksum_str /\
     contains "*" data = false /\ contains "*" checksum_str = false /\
     parse_nmea_sentence line =
       match py_int 16 checksum_str with
       | Ok received =>
           if spec_checksum data =? received
           then nmea_decode_fields data (strip line)
           else Ok ("[ERROR CHECKSUM: Calc=" +++ fmt_X 2 (spec_checksum data)
                    +++ ", Recib=" +++ fmt_X 2 received +++ "] "
                    +++ strip line +++ nl)
       | Raise _ =>
           Ok ("[CHECKSUM INV" +++ A_acute +++ "LIDO] " +++ strip line +++ nl)
       end) /\
  (forall (u1 u2 : bool) (v1 v2 : nat),
     (v1 < 16)%nat -> (v2 < 16)%nat ->
     py_int 16 (String (hex_digit_of u1 v1) (String (hex_digit_of u2 v2) "")) =
     Ok (Z.of_nat (16 * v1 + v2))) /\
  (forall other : string,
     nmea_shape (strip other) = false ->
     parse_nmea_sentence other = Ok ("[NO NMEA] " +++ strip other +++ nl) \/
     parse_nmea_sentence other =
       Ok ("[FORMATO NMEA INV" +++ A_acute +++ "LIDO] " +++ strip other +++ nl)).
Proof.
  intros Hshape. split; [|split; [exact two_digit_value | exact parse_nmea_off_shape]].
  destruct (nmea_shape_parts _ Hshape) as (data & cs & El & Hd & Hc & Es).
  exists data, cs.
  split; [exact El | split; [exact Hd | split; [exact Hc|]]].
  unfold parse_nmea_sentence. rewrite Es.
  unfold nmea_shape in Hshape. apply andb_true_iff in Hshape as [Hs Hn].
  rewrite Hs.
  assert (Hstar : contains "*" (strip line) = true).
  { destruct (contains "*" (strip line)) eqn:E; [reflexivity|].
    apply contains_count in E. rewrite E in Hn. discriminate. }
  rewrite Hstar. simpl negb. simpl orb. cbv iota.
  change (str_from 1 (String "$" data)) with data.
  rewrite xor_chars_spec_checksum, Z.lxor_0_l.
  destruct (py_int 16 cs) as [received|e] eqn:Ei.
  - destruct (spec_checksum data =? received); reflexivity.
  - apply py_int_raises in Ei. subst e. reflexivity.
Qed.

Lemma nmea_checksum_comparison_witness :
  nmea_shape (strip ("$GPGLL,1*5a" +++ nl)) = true /\
  spec_checksum "GPGLL,1" = 77 /\
  parse_nmea_sentence ("$GPGLL,1*5a" +++ nl) =
  Ok ("[ERROR CHECKSUM: Calc=4D, Recib=5A] $GPGLL,1*5a" +++ nl).
Proof.
  split; [reflexivity | split; [reflexivity|]].
  destruct (proj1 (nmea_checksum_comparison ("$GPGLL,1*5a" +++ nl) eq_refl))
    as (data & cs & El & Hd & Hc & E).
  assert (Hs : split "*" (strip ("$GPGLL,1*5a" +++ nl)) = [String "$" data; cs]).
  { rewrite El.
    change ("$" +++ data +++ "*" +++ cs) with (String "$" data +++ String "*" cs).
    rewrite split_app_sep by (simpl; exact Hd).
    rewrite split_no_sep by exact Hc. reflexivity. }
  vm_compute in Hs. injection Hs as <- <-.
  rewrite E. reflexivity.
Defined.

(** C2 as stated fails in three places.  A line that does not start with
    ['$'] is compared all the same when only white space stands before the
    ['$'], as the shape is tested after [strip]; a line in the shape whose
    text after the ['*'] is no hexadecimal number gets a diagnostic, not a
    comparison; and that text need not be two digits: whatever
    [int(_, 16)] accepts is compared by value. *)
Lemma nmea_shape_tested_after_strip :
  (startswith " $A*00" "$" = false /\
   parse_nmea_sentence " $A*00" = Ok ("[ERROR CHECKSUM: Calc=41, Recib=00] $A*00" +++ nl)) /\
  (nmea_shape "$A*zz" = true /\
   parse_nmea_sentence "$A*zz" = Ok ("[CHECKSUM INV" +++ A_acute +++ "LIDO] $A*zz" +++ nl)) /\
  (nmea_shape "$A*0x41" = true /\
   parse_nmea_sentence "$A*0x41" = Ok ("[TIPO NMEA NO SOPORTADO: A] $A*0x41" +++ nl)) /\
  parse_nmea_sentence "$A*4" = Ok ("[ERROR CHECKSUM: Calc=41, Recib=04] $A*4" +++ nl).
Proof. repeat split. Qed.

(** First end-to-end scenario. *)
Example parse_nmea_gga :
  parse_nmea_sentence
    ("$GPGGA,123519,4807.038,N,01131.000,E,1,08,0.9,545.4,M,46.9,M,,*47" +++ nl) =
  Ok ("--- GGA: Global Positioning System Fix Data ---" +++ nl +++
      "  Hora (UTC):      12:35:19" +++ nl +++
      "  Latitud:         4807.038 N" +++ nl +++
      "  Longitud:        01131.000 E" +++ nl +++
      "  Calidad Fix:     1 (0=inv, 1=GPS, 2=DGPS)" +++ nl +++
      "  Sat" +++ e_acute +++ "lites:       08" +++ nl +++
      "  HDOP:            0.9" +++ nl +++
      "  Altitud:         545.4 M" +++ nl +++
      "--------------------------------------------------" +++ nl).
Proof. reflexivity. Qed.

(** ** The decoders and exceptions *)

Ltac index_step :=
  match goal with
  | |- context [list_index ?l ?i] =>
      let E := fresh "E" in
      destruct (list_index l i) eqn:E;
      [ cbn [bind try_except]
      | apply list_index_raises in E; subst; cbn [bind try_except is_IndexError] ]
  end.

Ltac report_found :=
  eexists; split; [reflexivity | reflexivity].

Lemma nmea_decode_fields_returns (sentence_data line : string) :
  returns_report (nmea_decode_fields sentence_data line).
Proof.
  unfold nmea_decode_fields, returns_report.
  pose proof (split_nonempty "," sentence_data) as Hne.
  destruct (split "," sentence_data) as [|msg_type fields] eqn:Es; [contradiction|].
  cbn [list_index bind].
  destruct (String.eqb msg_type "GPGGA"); [|destruct (String.eqb msg_type "GPRMC")].
  - repeat index_step; report_found.
  - repeat index_step; report_found.
  - report_found.
Qed.

Lemma parse_nmea_sentence_returns (line : string) :
  returns_report (parse_nmea_sentence line).
Proof.
  unfold parse_nmea_sentence.
  destruct (negb (startswith (strip line) "$") || negb (contains "*" (strip line)));
    [unfold returns_report; report_found|].
  destruct (split "*" (strip line)) as [|sentence [|checksum_str [|x r]]];
    try (unfold returns_report; report_found).
  destruct (py_int 16 checksum_str) as [received|e] eqn:E.
  - destruct (negb (xor_chars (str_from 1 sentence) 0 =? received));
      [unfold returns_report; report_found | apply nmea_decode_fields_returns].
  - apply py_int_raises in E. subst e. unfold returns_report; report_found.
Qed.

Lemma parse_modbus_rtu_returns (raw_bytes : bytes) :
  returns_report (parse_modbus_rtu raw_bytes).
Proof.
  unfold parse_modbus_rtu, returns_report.
  destruct (List.length raw_bytes <? 4)%nat eqn:E; [report_found|].
  apply Nat.ltb_ge in E.
  destruct raw_bytes as [|address [|function_code rest]]; simpl in E; try lia.
  cbn [list_index bind]. report_found.
Qed.

Lemma parse_can_ascii_returns (line : string) :
  returns_report (parse_can_ascii line).
Proof.
  unfold parse_can_ascii, returns_report.
  destruct (strip line) as [|c0 rest] eqn:El; [report_found|].
  destruct (negb (Ascii.eqb (lower c0) "t")); [report_found|].
  destruct (str_index (String c0 rest) 4) as [c4|e] eqn:E4;
    [|apply str_index_raises in E4; subst e; report_found].
  cbn [bind].
  destruct (py_int 10 (String c4 "")) as [data_len|e] eqn:Ed;
    [|apply py_int_raises in Ed; subst e; report_found].
  cbn [bind].
  destruct (py_int 16 (str_slice 1 4 (String c0 rest))) as [can_id|e] eqn:Ei;
    [|apply py_int_raises in Ei; subst e; report_found].
  cbn [bind].
  destruct (fromhex _) as [data_bytes|e] eqn:Eh;
    [|apply fromhex_raises in Eh; subst e; report_found].
  report_found.
Qed.

Lemma parse_json_line_returns (J : JsonLib) (line : string) :
  json_contract J -> returns_report (parse_json_line J line).
Proof.
  intros [Hloads Hdumps]. unfold parse_json_line, returns_report.
  destruct (negb (startswith (strip line) "{") || negb (endswith (strip line) "}"));
    [report_found|].
  destruct (json_loads J (strip line)) as [data|e] eqn:El.
  - destruct (Hdumps _ _ El) as [t Ht]. cbn [bind]. rewrite Ht. report_found.
  - apply Hloads in El. subst e. report_found.
Qed.

(** C5, what the code does.  The NMEA, CAN and Modbus decoders return a
    report on every input (the three lemmas above).  The JSON decoder guards
    [json.loads] and [json.dumps] with [except json.JSONDecodeError] only:
    for a line that passes its brace test, any other exception that
    [json.loads] raises on the stripped line leaves [parse_json_line]
    uncaught, and no report is returned.  [json.loads] raises such
    exceptions: [RecursionError] on a document nested beyond the recursion
    limit, [ValueError] on an integer literal beyond the digit limit. *)
Theorem json_decoder_lets_errors_escape (J : JsonLib) (line : string) (e : exn) :
  startswith (strip line) "{" = true ->
  endswith (strip line) "}" = true ->
  is_JSONDecodeError e = false ->
  json_loads J (strip line) = Raise e ->
  parse_json_line J line = Raise e /\
  (forall report, parse_json_line J line <> Ok report).
Proof.
  intros Hs He Hx Hl.
  assert (H : parse_json_line J line = Raise e).
  { unfold parse_json_line. rewrite Hs, He, Hl. simpl. rewrite Hx. reflexivity. }
  split; [exact H | intros report; rewrite H; discriminate].
Qed.

Lemma json_decoder_lets_errors_escape_witness :
  (startswith (strip ("{[[[}" +++ nl)) "{" = true /\
   endswith (strip ("{[[[}" +++ nl)) "}" = true /\
   is_JSONDecodeError (OtherError "RecursionError") = false /\
   json_loads (json_depth_limited 2) (strip ("{[[[}" +++ nl)) =
     Raise (OtherError "RecursionError")) /\
  parse_json_line (json_depth_limited 2) ("{[[[}" +++ nl) =
    Raise (OtherError "RecursionError").
Proof.
  split; [repeat split|].
  exact (proj1 (json_decoder_lets_errors_escape (json_depth_limited 2) ("{[[[}" +++ nl)
                  (OtherError "RecursionError") eq_refl eq_refl eq_refl eq_refl)).
Defined.

Lemma json_empty_object_only_contract : json_contract json_empty_object_only.
Proof.
  split.
  - intros s e. simpl. destruct (String.eqb s "{}"); congruence.
  - intros s v _. exists "{}". reflexivity.
Qed.

(** ** White space around a line *)

Lemma lstrip_all_space (s : string) : all_space s = true -> lstrip s = "".
Proof.
  induction s as [|c s IH]; simpl; [reflexivity|].
  intros H. apply andb_true_iff in H as [Hc Hs]. rewrite Hc. exact (IH Hs).
Qed.

Lemma lstrip_app (l post : string) :
  lstrip (l +++ post) = if all_space l then lstrip post else lstrip l +++ post.
Proof.
  induction l as [|c l IH]; simpl; [reflexivity|].
  destruct (py_isspace c); simpl; [exact IH | reflexivity].
Qed.

Lemma strip_padding (pre l post : string) :
  all_space pre = true -> all_space post = true ->
  strip (pre +++ l +++ post) = strip l.
Proof.
  intros Hpre Hpost. unfold strip.
  rewrite (lstrip_all_space_app pre _ Hpre), lstrip_app.
  destruct (all_space l) eqn:Hl.
  - rewrite (lstrip_all_space post Hpost), (lstrip_all_space l Hl). reflexivity.
  - rewrite rstrip_app, (rstrip_all_space post Hpost). reflexivity.
Qed.

(** C10: white space before or after a line, such as the terminator that
    the log/decode writer leaves on it, changes nothing in the report of the
    NMEA, CAN-ASCII and JSON decoders. *)
Theorem decoders_ignore_surrounding_space
    (J : JsonLib) (pre l post : string) :
  all_space pre = true -> all_space post = true ->
  parse_nmea_sentence (pre +++ l +++ post) = parse_nmea_sentence l /\
  parse_can_ascii (pre +++ l +++ post) = parse_can_ascii l /\
  parse_json_line J (pre +++ l +++ post) = parse_json_line J l.
Proof.
  intros Hpre Hpost.
  pose proof (strip_padding pre l post Hpre Hpost) as E.
  unfold parse_nmea_sentence, parse_can_ascii, parse_json_line.
  rewrite E. repeat split; reflexivity.
Qed.

Lemma decoders_ignore_surrounding_space_witness :
  (all_space "  " = true /\ all_space nl = true) /\
  (parse_nmea_sentence ("  " +++ "$GPGLL,1*4D" +++ nl) = parse_nmea_sentence "$GPGLL,1*4D" /\
   parse_can_ascii ("  " +++ "$GPGLL,1*4D" +++ nl) = parse_can_ascii "$GPGLL,1*4D" /\
   parse_json_line json_empty_object_only ("  " +++ "$GPGLL,1*4D" +++ nl)
     = parse_json_line json_empty_object_only "$GPGLL,1*4D").
Proof.
  split.
  - split; reflexivity.
  - apply (decoders_ignore_surrounding_space json_empty_object_only "  " "$GPGLL,1*4D" nl);
      reflexivity.
Defined.

(** ** [parse_can_ascii] on the scenario frame and on a truncated frame *)

(** Fourth end-to-end scenario. *)
Example parse_can_ascii_scenario :
  parse_can_ascii ("t1002AABB" +++ nl) =
  Ok ("--- CAN ASCII ---" +++ nl +++
      "  ID:            0x100" +++ nl +++
      "  DLC:           2" +++ nl +++
      "  Datos:         AA BB" +++ nl +++
      "-------------------" +++ nl).
Proof. reflexivity. Qed.

(** C9, what the code does on a frame that announces two data bytes and
    carries one: the slice [line[5:9]] is cut short without an error, so the
    line is decoded, with [DLC 2] and a single byte, where the claim wants the
    malformed-frame report. *)
Theorem parse_can_ascii_accepts_truncated_data :
  parse_can_ascii ("t1002AA" +++ nl) =
    Ok ("--- CAN ASCII ---" +++ nl +++
        "  ID:            0x100" +++ nl +++
        "  DLC:           2" +++ nl +++
        "  Datos:         AA" +++ nl +++
        "-------------------" +++ nl) /\
  parse_can_ascii ("t1002AA" +++ nl) <> Ok ("[CAN-ASCII MAL FORMADO] t1002AA" +++ nl) /\
  parse_can_ascii ("t10" +++ nl) = Ok ("[CAN-ASCII MAL FORMADO] t10" +++ nl).
Proof. repeat split. discriminate. Qed.

(** ** The command history *)

Lemma deque_append_length (d : list string) (x : string) :
  (List.length d <= maxlen)%nat -> (List.length (deque_append d x) <= maxlen)%nat.
Proof.
  unfold deque_append, maxlen. intros H.
  destruct (50 <=? List.length d)%nat eqn:E.
  - apply Nat.leb_le in E. rewrite length_app. destruct d; simpl in *; lia.
  - apply Nat.leb_gt in E. rewrite length_app. simpl. lia.
Qed.

Lemma deque_append_full (d : list string) (x : string) :
  List.length d = maxlen -> deque_append d x = tl d ++ [x].
Proof. unfold deque_append. intros ->. reflexivity. Qed.

Lemma deque_append_room (d : list string) (x : string) :
  (List.length d < maxlen)%nat -> deque_append d x = d ++ [x].
Proof.
  unfold deque_append. intros H.
  destruct (maxlen <=? List.length d)%nat eqn:E; [apply Nat.leb_le in E; lia | reflexivity].
Qed.

Lemma send_data_history (E : SendEnv) (st : SendState) :
  bt_send_disabled E = false -> entry_input st <> "" ->
  command_history (after (send_data E st)) =
  history_after_send (command_history st) (entry_input st).
Proof.
  intros Hen Htext. unfold send_data, history_after_send. rewrite Hen.
  destruct (entry_input st) as [|c text] eqn:Et; [contradiction|].
  set (data := String c text).
  assert (Hh : match last_entry (command_history st) with
               | Some l => if negb (String.eqb l data)
                           then deque_append (command_history st) data
                           else command_history st
               | None => deque_append (command_history st) data
               end =
               match last_entry (command_history st) with
               | Some l => if String.eqb l data then command_history st
                           else deque_append (command_history st) data
               | None => deque_append (command_history st) data
               end).
  { destruct (last_entry (command_history st)) as [l|]; [|reflexivity].
    destruct (String.eqb l data); reflexivity. }
  rewrite Hh. clear Hh.
  set (h := match last_entry (command_history st) with
            | Some l => if String.eqb l data then command_history st
                        else deque_append (command_history st) data
            | None => deque_append (command_history st) data
            end).
  destruct (hex_input_var E).
  - destruct (fromhex (remove_whitespace data)) as [w|e].
    + destruct (write_data (port E) w) as [[|] m]; reflexivity.
    + destruct (is_ValueError e); reflexivity.
  - destruct (port E); simpl.
    + reflexivity.
    + destruct (str_encode E _); reflexivity.
    + destruct (str_encode E _); reflexivity.
Qed.

(** C8 (as amended): with the send button enabled and a non-empty entry,
    [_send_data] appends the entry to the history exactly when it differs
    from the most recent entry (or the history is empty), and does so before
    the write is attempted, whatever comes of the write; with the button
    disabled or the entry empty the history is left alone.  The history holds
    at most 50 entries, and an append to a full history drops the oldest. *)
Theorem send_appends_before_writing (E : SendEnv) (st : SendState) :
  (List.length (command_history st) <= maxlen)%nat ->
  let history := command_history st in
  let text := entry_input st in
  let history' := command_history (after (send_data E st)) in
  history' =
    (if bt_send_disabled E || String.eqb text "" then history
     else history_after_send history text) /\
  (List.length history' <= maxlen)%nat /\
  (bt_send_disabled E = false -> text <> "" -> last_entry history <> Some text ->
   history' = if (List.length history <? maxlen)%nat
              then history ++ [text] else tl history ++ [text]).
Proof.
  intros Hlen history text history'.
  assert (H1 : history' =
    (if bt_send_disabled E || String.eqb text "" then history
     else history_after_send history text)).
  { subst history'. destruct (bt_send_disabled E) eqn:Hd.
    - unfold send_data. rewrite Hd. reflexivity.
    - destruct (String.eqb_spec text "") as [Ht|Ht]; simpl.
      + unfold send_data. rewrite Hd. fold text. rewrite Ht. reflexivity.
      + apply send_data_history; assumption. }
  split; [exact H1|]. split.
  - rewrite H1. destruct (bt_send_disabled E || String.eqb text ""); [exact Hlen|].
    unfold history_after_send.
    destruct (last_entry history) as [l|];
      [destruct (String.eqb l text); [exact Hlen|]|]; apply deque_append_length, Hlen.
  - intros Hd Ht Hlast. rewrite H1, Hd.
    destruct (String.eqb_spec text "") as [|_]; [contradiction|]. simpl.
    assert (Ha : history_after_send history text = deque_append history text).
    { unfold history_after_send. destruct (last_entry history) as [l|]; [|reflexivity].
      destruct (String.eqb_spec l text) as [->|_]; [contradiction | reflexivity]. }
    rewrite Ha.
    destruct (List.length history <? maxlen)%nat eqn:Hlt.
    + apply deque_append_room, Nat.ltb_lt, Hlt.
    + apply deque_append_full. apply Nat.ltb_ge in Hlt. fold history in Hlen. lia.
Qed.

Lemma send_appends_before_writing_witness :
  (List.length ["AT"] <= maxlen)%nat /\
  command_history
    (after (send_data hex_env
              {| command_history := ["AT"]; history_index := 1; entry_input := "zz" |}))
  = ["AT"; "zz"].
Proof.
  split.
  - unfold maxlen. simpl. lia.
  - exact (proj1 (send_appends_before_writing hex_env
                    {| command_history := ["AT"]; history_index := 1; entry_input := "zz" |}
                    ltac:(unfold maxlen; simpl; lia))).
Defined.

(** C8 as stated fails: with hexadecimal input on, the text ["zz"] is not
    sent (it is no hexadecimal text; an error dialog is shown) and is in the
    history all the same. *)
Lemma send_failure_still_recorded :
  let out := send_data hex_env
               {| command_history := []; history_index := 0; entry_input := "zz" |} in
  sent out = [] /\ dialogs out = ["Error de Formato"] /\
  command_history (after out) = ["zz"].
Proof. repeat split. Qed.

(** ** The log/decode task *)

Lemma file_text_app (a b : list file_op) :
  file_text (a ++ b) = file_text a +++ file_text b.
Proof.
  induction a as [|[text| |] a IH]; simpl; try exact IH; [reflexivity|].
  rewrite IH, append_assoc. reflexivity.
Qed.

(** In a line-mode session the selected decoder, if any, returns, given
    the contract of the [json] module. *)
Lemma line_parser_returns (J : JsonLib) (S : Session) (HJ : json_contract J)
    (p : decoder) (line : string) :
  String.eqb (protocol S) "Modbus-RTU" = false ->
  parser J S = Some p ->
  exists report, call_on_line p line = Ok report.
Proof.
  unfold parser, DECODERS. intros Hm.
  rewrite Hm.
  destruct (String.eqb (protocol S) "NMEA-0183");
    [|destruct (String.eqb (protocol S) "CAN-ASCII");
      [|destruct (String.eqb (protocol S) "JSON-line")]];
    intros [= <-]; simpl.
  - destruct (parse_nmea_sentence_returns line) as (r & E & _). eauto.
  - destruct (parse_can_ascii_returns line) as (r & E & _). eauto.
  - destruct (parse_json_line_returns J line HJ) as (r & E & _). eauto.
Qed.

(** Without a decoder, and with the NMEA or the CAN decoder, every line
    gets its report. *)
Lemma decoder_returns_plain (J : JsonLib) (S : Session) (lines : list string) :
  String.eqb (protocol S) "Modbus-RTU" = false ->
  String.eqb (protocol S) "JSON-line" = false ->
  decoder_returns J S lines = true.
Proof.
  unfold decoder_returns, parser, DECODERS. intros Hm Hj. rewrite Hm, Hj.
  destruct (String.eqb (protocol S) "NMEA-0183");
    [|destruct (String.eqb (protocol S) "CAN-ASCII"); [|reflexivity]];
    apply forallb_forall; intros line _; simpl.
  - destruct (parse_nmea_sentence_returns (line +++ nl)) as (r & -> & _). reflexivity.
  - destruct (parse_can_ascii_returns (line +++ nl)) as (r & -> & _). reflexivity.
Qed.

Lemma decoder_returns_app (J : JsonLib) (S : Session) (a b : list string) :
  decoder_returns J S (a ++ b) = decoder_returns J S a && decoder_returns J S b.
Proof.
  unfold decoder_returns. destruct (parser J S); [apply forallb_app | reflexivity].
Qed.

Section LogTaskFacts.
Variable J : JsonLib.
Variable clock : Clock.
Variable S : Session.
Hypothesis Hlog : logging S = true.

Local Abbreviation entries := (line_entries clock (cb_timestamp S) (cb_delimiter S)).
Local Abbreviation blocks := (frame_entries clock (cb_timestamp S) (cb_delimiter S)).

Lemma on_lines_entries (lines : list string) (st : LogState S) :
  decoder_returns J S lines = true ->
  exists st',
    on_lines J clock S st lines = Ok st' /\
    logfile st' = logfile st ++ entries (tick st) lines /\
    line_buffer st' = line_buffer st /\
    decoder_state st' = decoder_state st /\
    tick st' = (tick st + List.length lines)%nat.
Proof.
  revert st. induction lines as [|line rest IH]; intros st Hret.
  - exists st. simpl. rewrite app_nil_r, Nat.add_0_r. repeat split; reflexivity.
  - assert (Hrest : decoder_returns J S rest = true).
    { change (line :: rest) with ([line] ++ rest) in Hret.
      rewrite decoder_returns_app in Hret. apply andb_true_iff in Hret as [_ H]. exact H. }
    simpl on_lines. unfold on_line. rewrite Hlog.
    unfold decoder_returns in Hret.
    destruct (parser J S) as [p|] eqn:Ep.
    + simpl in Hret. apply andb_true_iff in Hret as [Hline _].
      destruct (call_on_line p (line +++ nl)) as [r|e]; [|discriminate].
      cbn [bind].
      match goal with |- context [on_lines J clock S ?s rest] =>
        destruct (IH s Hrest) as (st' & E & Hf & Hb & Hd & Ht) end.
      exists st'. rewrite E. simpl in *.
      rewrite Hf, Hb, Hd, Ht, <- app_assoc.
      repeat split; try reflexivity. lia.
    + cbn [bind].
      match goal with |- context [on_lines J clock S ?s rest] =>
        destruct (IH s Hrest) as (st' & E & Hf & Hb & Hd & Ht) end.
      exists st'. rewrite E. simpl in *.
      rewrite Hf, Hb, Hd, Ht, <- app_assoc.
      repeat split; try reflexivity. lia.
Qed.

Lemma line_entries_app (k : nat) (a b : list string) :
  entries k (a ++ b) = entries k a ++ entries (k + List.length a)%nat b.
Proof.
  revert k; induction a as [|l a IH]; intros k; simpl.
  - rewrite Nat.add_0_r. reflexivity.
  - simpl. rewrite IH.
    replace (Datatypes.S k + List.length a)%nat with (k + Datatypes.S (List.length a))%nat by lia.
    reflexivity.
Qed.

(** Line mode: the loop writes one stamped entry and one flush per
    completed line, across chunk boundaries, and leaves on the sentinel. *)
Lemma log_loop_line_mode (chunks : list bytes) (st : LogState S) :
  String.eqb (protocol S) "Modbus-RTU" = false ->
  decoder_returns J S
    (fst (feed_all (line_buffer st)
            (decode_all (encoding S) (decoder_state st) chunks))) = true ->
  exists st',
    log_loop J clock S st (map Some chunks ++ [None]) = Ok (st', Terminated) /\
    logfile st' =
      logfile st ++
      entries (tick st)
        (fst (feed_all (line_buffer st)
                (decode_all (encoding S) (decoder_state st) chunks))) /\
    line_buffer st' =
      snd (feed_all (line_buffer st)
             (decode_all (encoding S) (decoder_state st) chunks)).
Proof.
  intros Hm. revert st. induction chunks as [|raw rest IH]; intros st Hret.
  - exists st. simpl. rewrite app_nil_r. repeat split; reflexivity.
  - simpl map. simpl app. simpl log_loop. unfold on_chunk. rewrite Hm.
    simpl decode_all in *.
    destruct (codec_decode (encoding S) (decoder_state st) raw) as [dst text].
    simpl feed_all in *. unfold feed in *.
    destruct (split_lines (line_buffer st +++ text)) as [lines pending].
    destruct (feed_all pending (decode_all (encoding S) dst rest)) as [more final] eqn:Ef.
    simpl fst in Hret. rewrite decoder_returns_app in Hret.
    apply andb_true_iff in Hret as [Hlines Hmore].
    match goal with |- context [on_lines J clock S ?s lines] =>
      destruct (on_lines_entries lines s Hlines) as (st1 & E1 & Hf & Hb & Hd & Ht) end.
    rewrite E1. cbn [bind]. simpl in Hf, Hb, Hd, Ht.
    assert (Hret1 : decoder_returns J S
              (fst (feed_all (line_buffer st1)
                      (decode_all (encoding S) (decoder_state st1) rest))) = true).
    { rewrite Hb, Hd, Ef. exact Hmore. }
    destruct (IH st1 Hret1) as (st' & E & Hf' & Hb').
    exists st'. rewrite E. rewrite Hb, Hd, Ht, Hf, Ef in *.
    simpl in *. split; [reflexivity|]. split; [|exact Hb'].
    rewrite Hf', line_entries_app, <- app_assoc. reflexivity.
Qed.

(** Modbus mode: one block per frame. *)
Lemma log_loop_modbus_mode (frames : list bytes) (st : LogState S) :
  String.eqb (protocol S) "Modbus-RTU" = true ->
  exists st',
    log_loop J clock S st (map Some frames ++ [None]) = Ok (st', Terminated) /\
    file_text (logfile st') = file_text (logfile st) +++ blocks (tick st) frames.
Proof.
  intros Hm.
  assert (Hp : parser J S = Some (FrameDecoder parse_modbus_rtu)).
  { unfold parser, DECODERS. apply String.eqb_eq in Hm. rewrite Hm. reflexivity. }
  revert st. induction frames as [|raw rest IH]; intros st.
  - exists st. simpl. rewrite append_nil_r. split; reflexivity.
  - simpl map. simpl app. simpl log_loop. unfold on_chunk. rewrite Hm, Hp, Hlog.
    simpl call_on_frame. simpl frame_entries.
    destruct (parse_modbus_rtu_returns raw) as (report & Er & _).
    rewrite Er. cbn [bind].
    match goal with |- context [log_loop J clock S ?s _] =>
      destruct (IH s) as (st' & E & Hf) end.
    exists st'. rewrite E. split; [reflexivity|].
    rewrite Hf. simpl. rewrite file_text_app. simpl.
    rewrite append_nil_r, !append_assoc. reflexivity.
Qed.

End LogTaskFacts.

Lemma get_timestamp_none (now : Now) (delimiter : string) :
  get_timestamp now "none" delimiter = "".
Proof. reflexivity. Qed.

Lemma get_timestamp_rendering (now : Now) (format_choice delimiter : string) :
  String.eqb format_choice "none" = false ->
  formats now format_choice <> "" ->
  get_timestamp now format_choice delimiter =
  formats now format_choice +++ delimiters delimiter.
Proof.
  intros Hn Hf. unfold get_timestamp. rewrite Hn.
  destruct (formats now format_choice); [contradiction | reflexivity].
Qed.

(** C6 (as amended): in a session that logs to a file, once the sentinel
    arrives the task has terminated and the file holds, in Modbus mode, one
    block [<timestamp><decoded report>] per frame; in line mode, provided
    the selected decoder returns for each completed line, one entry
    [<timestamp><line><newline>] per completed line, each followed by a
    flush, then the close.  A session without decoder and the NMEA and CAN
    decoders meet the proviso on every input; the JSON decoder can raise,
    and what the file holds from then on is not stated here.  The
    [k]-th timestamp is computed from the format and the delimiter selected
    when the [k]-th entry is written: it is empty for the format ["none"],
    and otherwise the text that [formats] gives for the format name (a
    rendering of the local time, or the fixed text ["No implementado"] for
    ["Mod. Julian Date"]) followed by the delimiter (space, comma, semicolon
    or nothing). *)
Theorem log_file_entries
    (J : JsonLib) (clock : Clock) (S : Session) (chunks : list bytes) :
  logging S = true ->
  let lines :=
    fst (feed_all "" (decode_all (encoding S) (codec_init (encoding S)) chunks)) in
  (String.eqb (protocol S) "Modbus-RTU" = true ->
   exists st,
     log_and_decode_task J clock S (map Some chunks ++ [None]) = Ok (st, Terminated) /\
     file_text (logfile st) =
       frame_entries clock (cb_timestamp S) (cb_delimiter S) 0 chunks) /\
  (String.eqb (protocol S) "Modbus-RTU" = false ->
   decoder_returns J S lines = true ->
   exists st,
     log_and_decode_task J clock S (map Some chunks ++ [None]) = Ok (st, Terminated) /\
     logfile st =
       line_entries clock (cb_timestamp S) (cb_delimiter S) 0 lines ++ [FClose]) /\
  (String.eqb (protocol S) "Modbus-RTU" = false ->
   String.eqb (protocol S) "JSON-line" = false ->
   decoder_returns J S lines = true) /\
  (forall now d, get_timestamp now "none" d = "") /\
  (forall now f d, String.eqb f "none" = false -> formats now f <> "" ->
     get_timestamp now f d = formats now f +++ delimiters d) /\
  (forall now, formats now "Mod. Julian Date" = "No implementado") /\
  delimiters "blank" = " " /\ delimiters "komma" = "," /\
  delimiters "semicolon" = ";" /\ delimiters "none" = "".
Proof.
  intros Hlog lines.
  split; [|split; [|split; [|repeat split; auto using get_timestamp_rendering]]].
  - intros Hm. unfold log_and_decode_task.
    destruct (log_loop_modbus_mode J clock S Hlog chunks (log_init S) Hm) as (st & E & Hf).
    rewrite E. cbn [bind]. rewrite Hlog.
    eexists. split; [reflexivity|]. simpl.
    rewrite file_text_app, Hf. simpl. apply append_nil_r.
  - intros Hm Hret. unfold log_and_decode_task.
    destruct (log_loop_line_mode J clock S Hlog chunks (log_init S) Hm Hret)
      as (st & E & Hf & _).
    rewrite E. cbn [bind]. rewrite Hlog.
    eexists. split; [reflexivity|]. simpl. rewrite Hf. reflexivity.
  - intros Hm Hj. apply decoder_returns_plain; assumption.
Qed.

Lemma log_file_entries_witness :
  logging retimed_session = true /\
  final_logfile
    (log_and_decode_task json_empty_object_only frozen_clock retimed_session
       (map Some [encode_latin1 ("ab" +++ nl +++ "c"); encode_latin1 ("d" +++ nl)] ++ [None]))
  = [FWrite ("12:00:00.000,ab" +++ nl); FFlush;
     FWrite ("2024-05-01 12:00:00.000;cd" +++ nl); FFlush; FClose].
Proof.
  split; [reflexivity|].
  destruct (proj1 (proj2 (log_file_entries json_empty_object_only frozen_clock
                            retimed_session
                            [encode_latin1 ("ab" +++ nl +++ "c"); encode_latin1 ("d" +++ nl)]
                            eq_refl)) eq_refl eq_refl) as (st & E & H).
  rewrite E. exact H.
Defined.

(** C6 as stated fails in Modbus mode: the one entry written for a frame is
    the decoded report, a block of six lines, not the frame on one line; no
    flush follows it. *)
Lemma modbus_entry_is_a_block :
  final_logfile
    (log_and_decode_task json_empty_object_only frozen_clock
       (logging_session "Modbus-RTU" "none" "blank")
       [Some [x01; x03; x02; x00; x0a; x38; x43]; None])
  = [FWrite ("--- MODBUS RTU ---" +++ nl +++
             "  ID Esclavo:      1" +++ nl +++
             "  Funci" +++ o_acute +++ "n:         3 (Read Holding Registers)" +++ nl +++
             "  Datos (Hex):     02 00 0A" +++ nl +++
             "  CRC Recibido:    4338 (OK)" +++ nl +++
             "---------------------" +++ nl);
     FClose] /\
  count_char LF
    (file_text (final_logfile
       (log_and_decode_task json_empty_object_only frozen_clock
          (logging_session "Modbus-RTU" "none" "blank")
          [Some [x01; x03; x02; x00; x0a; x38; x43]; None]))) = 6%nat.
Proof. split; reflexivity. Qed.

(** ** The end of a session *)

(** C4, what the code does when the stream ends in the middle of a line.
    The GUI's log task leaves the loop on the sentinel and closes the file:
    the pending text ["cd"] is still in its buffer and never written.  The
    CLI, on the same chunks, writes it as a last entry before closing. *)
Theorem log_task_drops_pending_line :
  let run :=
    log_and_decode_task json_empty_object_only frozen_clock
      (logging_session "None" "none" "blank")
      [Some (encode_latin1 ("ab" +++ nl +++ "cd")); None] in
  final_status run = Some Terminated /\
  final_logfile run = [FWrite ("ab" +++ nl); FFlush; FClose] /\
  final_pending run = "cd" /\
  cli_logfile (run_cli_mode frozen_clock cli_logging [encode_latin1 ("ab" +++ nl +++ "cd")])
  = [FWrite ("ab" +++ nl); FFlush; FWrite ("cd" +++ nl); FClose].
Proof. repeat split. Qed.

(** ** A failure of the link *)

Lemma read_task_no_failure (script : list read_event) :
  no_failure script = true ->
  read_task true script = (delivered script, StoppedByClose).
Proof.
  induction script as [|[|data|] rest IH]; simpl; intros H; try discriminate.
  - reflexivity.
  - exact (IH H).
  - rewrite (IH H). destruct data; reflexivity.
Qed.

(** The loop hands over what came before the failure, then one error chunk,
    and stops: what the link would do afterwards is never looked at. *)
Lemma read_task_failure (before after : list read_event) :
  no_failure before = true ->
  read_task true (before ++ SerialException :: after) =
  (delivered before ++ [error_chunk], StoppedByFailure).
Proof.
  induction before as [|[|data|] rest IH]; simpl; intros H; try discriminate.
  - reflexivity.
  - exact (IH H).
  - rewrite (IH H). destruct data; reflexivity.
Qed.

(** Nothing on the way from the read loop to the log queue is a sentinel. *)
Lemma gui_log_queue_no_sentinel (S : Session) (script : list read_event) :
  ~ In None (gui_log_queue S script false).
Proof.
  unfold gui_log_queue, process_gui_queue.
  destruct (ck_logfile S || negb (String.eqb (protocol S) "None")); [|intros []].
  intros H. apply in_map_iff in H as (x & Hx & _). discriminate.
Qed.

(** Without a sentinel the task does not leave its loop. *)
Lemma log_loop_waits (J : JsonLib) (clock : Clock) (S : Session)
    (q : list (option bytes)) (st st' : LogState S) (e : task_end) :
  ~ In None q -> log_loop J clock S st q = Ok (st', e) -> e = Blocked.
Proof.
  revert st. induction q as [|[raw|] q IH]; intros st Hq; simpl.
  - intros [= _ <-]. reflexivity.
  - destruct (on_chunk J clock S st raw) as [st1|x]; [|discriminate].
    cbn [bind]. apply IH. intros Hin. apply Hq. right. exact Hin.
  - exfalso. apply Hq. left. reflexivity.
Qed.

(** C7, what the code does on a failure of the link.  The read loop emits
    the chunk read before, then exactly one error chunk, and stops.  The
    pump hands both chunks to the log queue as data, and no sentinel
    follows: the log task writes the error text as log lines and then waits
    in [log_queue.get()], the file not closed.  Only the user's
    [close_port] puts the sentinel. *)
Theorem read_failure_leaves_log_task_waiting :
  let S := logging_session "None" "none" "blank" in
  let script := [Incoming (encode_latin1 ("ab" +++ nl)); SerialException;
                 Incoming (encode_latin1 "zz")] in
  let run user_closes :=
    log_and_decode_task json_empty_object_only frozen_clock S
      (gui_log_queue S script user_closes) in
  read_task true script =
    ([encode_latin1 ("ab" +++ nl); error_chunk], StoppedByFailure) /\
  gui_log_queue S script false = [Some (encode_latin1 ("ab" +++ nl)); Some error_chunk] /\
  final_status (run false) = Some Blocked /\
  final_logfile (run false) =
    [FWrite ("ab" +++ nl); FFlush; FWrite nl; FFlush;
     FWrite ("--- ERROR: Puerto serie desconectado ---" +++ nl); FFlush] /\
  final_status (run true) = Some Terminated.
Proof. repeat split. Qed.

(** * Further properties *)

(** ** The CRC register *)

Lemma calculate_crc16_app (a b : bytes) :
  calculate_crc16 (a ++ b) = fold_left crc16_byte b (calculate_crc16 a).
Proof. unfold calculate_crc16. apply fold_left_app. Qed.

Lemma crc16_shift_even (k : Z) : 0 <= k -> crc16_shift (2 * k) = k.
Proof.
  intros Hk. unfold crc16_shift.
  assert (Hl : Z.land (2 * k) 1 = 0).
  { change 1 with (Z.ones 1). rewrite Z.land_ones by lia. change (2 ^ 1) with 2.
    rewrite Z.mul_comm. apply Z.mod_mul. lia. }
  rewrite Hl. change (negb (0 =? 0)) with false. cbv iota.
  rewrite Z.shiftr_div_pow2 by lia. change (2 ^ 1) with 2.
  rewrite Z.mul_comm. apply Z.div_mul. lia.
Qed.

Lemma crc16_bits_shifted (n : nat) (h : Z) :
  0 <= h -> crc16_bits n (2 ^ Z.of_nat n * h) = h.
Proof.
  intros Hh. induction n as [|n IH].
  - cbn [crc16_bits]. change (2 ^ Z.of_nat 0) with 1. lia.
  - cbn [crc16_bits].
    replace (2 ^ Z.of_nat (Datatypes.S n) * h) with (2 * (2 ^ Z.of_nat n * h)).
    + rewrite crc16_shift_even; [exact IH|].
      apply Z.mul_nonneg_nonneg; [apply Z.pow_nonneg; lia | exact Hh].
    + rewrite Nat2Z.inj_succ, Z.pow_succ_r by lia. ring.
Qed.

(** Feeding the low byte of the register leaves its high byte. *)
Lemma crc16_byte_low (crc : Z) :
  reg16 crc -> crc16_byte crc (byte_of_Z (Z.land crc 255)) = crc / 256.
Proof.
  intros Hr. unfold crc16_byte. rewrite byte_val_of_Z.
  change 255 with (Z.ones 8). rewrite Z.land_ones by lia. change (2 ^ 8) with 256.
  rewrite Z.mod_mod by lia.
  rewrite lxor_low_byte by (apply Z.mod_pos_bound; lia).
  unfold spec_xor_low_byte. rewrite Z.lxor_nilpotent, Z.add_0_r.
  apply (crc16_bits_shifted 8). apply Z.div_pos; unfold reg16 in Hr; lia.
Qed.

(** Feeding a register below 256 its own value clears it. *)
Lemma crc16_byte_self (h : Z) :
  0 <= h < 256 -> crc16_byte h (byte_of_Z h) = 0.
Proof.
  intros Hh. unfold crc16_byte. rewrite byte_val_of_Z, Z.mod_small by exact Hh.
  rewrite Z.lxor_nilpotent. reflexivity.
Qed.

(** X1: a frame that ends with the little-endian CRC of what precedes has
    CRC zero as a whole (the residue of CRC-16/MODBUS). *)
Theorem calculate_crc16_residue (data : bytes) :
  calculate_crc16 (data ++ to_bytes_little2 (calculate_crc16 data)) = 0.
Proof.
  rewrite calculate_crc16_app. unfold to_bytes_little2. simpl fold_left.
  pose proof (calculate_crc16_range data) as Hr.
  rewrite crc16_byte_low by exact Hr.
  rewrite Z.shiftr_div_pow2 by lia. change (2 ^ 8) with 256.
  apply crc16_byte_self.
  split; [apply Z.div_pos; lia | apply Z.div_lt_upper_bound; lia].
Qed.

Lemma testbit15_below (k : Z) : 0 <= k < 0x8000 -> Z.testbit k 15 = false.
Proof.
  intros Hk. rewrite Z.testbit_eqb by lia. change (2 ^ 15) with 0x8000.
  rewrite Z.div_small by exact Hk. reflexivity.
Qed.

Lemma testbit15_above (x : Z) : 0 <= x -> Z.testbit x 15 = true -> 0x8000 <= x.
Proof.
  intros Hx Ht. destruct (Z_lt_le_dec x 0x8000) as [Hlt|Hge]; [|exact Hge].
  rewrite testbit15_below in Ht by lia. discriminate.
Qed.

(** One shift step loses nothing of the register. *)
Lemma crc16_unshift_shift (crc : Z) :
  reg16 crc -> crc16_unshift (crc16_shift crc) = crc.
Proof.
  intros Hr. unfold reg16 in Hr. rewrite crc16_shift_spec.
  unfold spec_shift, crc16_unshift.
  assert (Hh : 0 <= crc / 2 < 0x8000).
  { split; [apply Z.div_pos; lia | apply Z.div_lt_upper_bound; lia]. }
  pose proof (Z.div_mod crc 2 ltac:(lia)) as Hdm.
  destruct (Z.odd crc) eqn:Ho.
  - assert (Hm : crc mod 2 = 1).
    { rewrite <- Z.bit0_odd, Z.bit0_eqb in Ho. apply Z.eqb_eq in Ho. exact Ho. }
    assert (Hx : 0x8000 <= Z.lxor (crc / 2) 0xA001).
    { apply testbit15_above; [apply Z.lxor_nonneg; lia|].
      rewrite Z.lxor_spec, testbit15_below by exact Hh. reflexivity. }
    apply Z.leb_le in Hx. rewrite Hx.
    rewrite Z.lxor_assoc, Z.lxor_nilpotent, Z.lxor_0_r. lia.
  - assert (Hm : crc mod 2 = 0).
    { rewrite <- Z.bit0_odd, Z.bit0_eqb in Ho. apply Z.eqb_neq in Ho.
      pose proof (Z.mod_pos_bound crc 2 ltac:(lia)). lia. }
    destruct (0x8000 <=? crc / 2) eqn:E; [apply Z.leb_le in E; lia | lia].
Qed.

Lemma crc16_bits_injective (n : nat) (r1 r2 : Z) :
  reg16 r1 -> reg16 r2 -> crc16_bits n r1 = crc16_bits n r2 -> r1 = r2.
Proof.
  revert r1 r2. induction n as [|n IH]; intros r1 r2 H1 H2; simpl; [tauto|].
  intros E. apply IH in E; try (apply crc16_shift_reg16; assumption).
  rewrite <- (crc16_unshift_shift r1 H1), <- (crc16_unshift_shift r2 H2), E.
  reflexivity.
Qed.

Lemma lxor_cancel_l (a b c : Z) : Z.lxor a b = Z.lxor a c -> b = c.
Proof.
  intros E.
  rewrite <- (Z.lxor_0_l b), <- (Z.lxor_0_l c), <- (Z.lxor_nilpotent a).
  rewrite !Z.lxor_assoc, E. reflexivity.
Qed.

Lemma lxor_cancel_r (a b c : Z) : Z.lxor b a = Z.lxor c a -> b = c.
Proof. rewrite (Z.lxor_comm b), (Z.lxor_comm c). apply lxor_cancel_l. Qed.

Lemma byte_val_injective (b1 b2 : byte) : byte_val b1 = byte_val b2 -> b1 = b2.
Proof.
  unfold byte_val. intros E. apply N2Z.inj in E.
  pose proof (Byte.of_to_N b1) as E1. rewrite E, Byte.of_to_N in E1. congruence.
Qed.

Lemma lxor_byte_reg16 (crc : Z) (b : byte) : reg16 crc -> reg16 (Z.lxor crc (byte_val b)).
Proof.
  intros H. pose proof (byte_val_range b).
  apply (lxor_below_pow2 16); unfold reg16 in H; lia.
Qed.

(** The register after a run of bytes determines the register before. *)
Lemma fold_crc16_injective (post : bytes) (r1 r2 : Z) :
  reg16 r1 -> reg16 r2 ->
  fold_left crc16_byte post r1 = fold_left crc16_byte post r2 -> r1 = r2.
Proof.
  revert r1 r2. induction post as [|b post IH]; intros r1 r2 H1 H2; simpl; [tauto|].
  intros E. apply IH in E; try (apply crc16_byte_reg16; assumption).
  unfold crc16_byte in E.
  apply crc16_bits_injective in E; try (apply lxor_byte_reg16; assumption).
  apply lxor_cancel_r in E. exact E.
Qed.

(** X2: changing one byte of the data, wherever it stands, changes the CRC:
    no single-byte error (hence no single-bit error) goes unnoticed. *)
Theorem calculate_crc16_detects_byte_error (pre post : bytes) (b1 b2 : byte) :
  b1 <> b2 ->
  calculate_crc16 (pre ++ b1 :: post) <> calculate_crc16 (pre ++ b2 :: post).
Proof.
  intros Hne E. apply Hne.
  rewrite !calculate_crc16_app in E. simpl fold_left in E.
  pose proof (calculate_crc16_range pre) as Hr.
  apply fold_crc16_injective in E; try (apply crc16_byte_reg16; exact Hr).
  unfold crc16_byte in E.
  apply crc16_bits_injective in E; try (apply lxor_byte_reg16; exact Hr).
  apply lxor_cancel_l in E. apply byte_val_injective, E.
Qed.

Lemma calculate_crc16_detects_byte_error_witness :
  x03 <> x07 /\
  calculate_crc16 ([x01] ++ x03 :: [x02; x00; x0a])
    <> calculate_crc16 ([x01] ++ x07 :: [x02; x00; x0a]).
Proof.
  split; [discriminate|].
  apply (calculate_crc16_detects_byte_error [x01] [x02; x00; x0a] x03 x07). discriminate.
Defined.

(** ** The layout of a Modbus frame *)

Lemma byte_of_Z_val (b : byte) : byte_of_Z (byte_val b) = b.
Proof.
  unfold byte_of_Z. rewrite Z.mod_small by apply byte_val_range.
  unfold byte_val. rewrite N2Z.id, Byte.of_to_N. reflexivity.
Qed.

Lemma to_bytes_little2_from (lo hi : byte) :
  to_bytes_little2 (byte_val lo + 256 * byte_val hi) = [lo; hi].
Proof.
  pose proof (byte_val_range lo) as Hl. pose proof (byte_val_range hi) as Hh.
  unfold to_bytes_little2.
  change 255 with (Z.ones 8). rewrite Z.land_ones by lia.
  rewrite Z.shiftr_div_pow2 by lia. change (2 ^ 8) with 256.
  replace ((byte_val lo + 256 * byte_val hi) mod 256) with (byte_val lo)
    by (apply (Z.mod_unique _ 256 (byte_val hi)); lia).
  replace ((byte_val lo + 256 * byte_val hi) / 256) with (byte_val hi)
    by (apply (Z.div_unique _ 256 (byte_val hi) (byte_val lo)); lia).
  rewrite !byte_of_Z_val. reflexivity.
Qed.

(** X3: every frame of four bytes or more is read as address, function
    code, payload and a little-endian CRC in its last two bytes; the report
    shows the received CRC, and says [OK] exactly when those two bytes are the
    CRC of all that precedes, else [ERROR] with the CRC it computed. *)
Theorem parse_modbus_rtu_layout
    (address function_code : byte) (payload : bytes) (lo hi : byte) :
  let body := address :: function_code :: payload in
  let received := byte_val lo + 256 * byte_val hi in
  let calculated := calculate_crc16 body in
  parse_modbus_rtu (body ++ [lo; hi]) =
    Ok ("--- MODBUS RTU ---" +++ nl +++
        "  ID Esclavo:      " +++ str_of_int (byte_val address) +++ nl +++
        "  Funci" +++ o_acute +++ "n:         " +++ str_of_int (byte_val function_code)
          +++ " (" +++ func_name (byte_val function_code) +++ ")" +++ nl +++
        "  Datos (Hex):     " +++ bytes_hex_upper payload +++ nl +++
        "  CRC Recibido:    " +++ fmt_X 4 received +++ " ("
          +++ (if received =? calculated then "OK"
               else "ERROR (Calc: " +++ fmt_X 4 calculated +++ ")")
          +++ ")" +++ nl +++
        "---------------------" +++ nl) /\
  (received = calculated <-> [lo; hi] = to_bytes_little2 calculated).
Proof.
  intros body received calculated. split.
  - unfold parse_modbus_rtu.
    replace (List.length (body ++ [lo; hi]) <? 4)%nat with false.
    2:{ symmetry. apply Nat.ltb_ge. rewrite length_app. subst body. simpl. lia. }
    subst body. simpl list_index. unfold bind.
    change ((address :: function_code :: payload) ++ ?l)
      with (address :: function_code :: payload ++ l).
    rewrite slice_2_to_m2_app.
    change (address :: function_code :: payload ++ ?l)
      with ((address :: function_code :: payload) ++ l).
    rewrite slice_from_m2_app, slice_to_m2_app.
    unfold crc_status, int_from_bytes_little.
    replace (byte_val lo + 256 * (byte_val hi + 256 * 0)) with received
      by (subst received; ring).
    fold calculated. reflexivity.
  - split; intros E.
    + rewrite <- E. subst received. symmetry. apply to_bytes_little2_from.
    + pose proof (int_from_bytes_little2 calculated (calculate_crc16_range _)) as R.
      rewrite <- E in R. unfold int_from_bytes_little in R. subst received. lia.
Qed.

(** ** Hexadecimal text and bytes *)

(** Each byte prints as two hexadecimal digits that read back as the byte. *)
Lemma hex_pair (b : byte) :
  exists h l vh vl,
    fmt_X 2 (byte_val b) = String h (String l "") /\
    digit_value h = Some vh /\ digit_value l = Some vl /\
    (vh <? 16) = true /\ (vl <? 16) = true /\
    c_isspace h = false /\ py_isspace h = false /\ py_isspace l = false /\
    byte_of_Z (16 * vh + vl) = b /\ 16 * vh + vl = byte_val b.
Proof. destruct b; do 4 eexists; repeat split; reflexivity. Qed.

Lemma fromhex_pair (b : byte) (rest : string) :
  fromhex (fmt_X 2 (byte_val b) +++ rest) = (r <- fromhex rest ;; Ok (b :: r)).
Proof.
  destruct (hex_pair b) as (h & l & vh & vl & E & Dh & Dl & Lh & Ll & Sh & _ & _ & Eb & _).
  rewrite E. change (String h (String l "") +++ rest) with (String h (String l rest)).
  cbn [fromhex]. rewrite Sh, Dh, Dl, Lh, Ll. cbn [andb]. rewrite Eb. reflexivity.
Qed.

Lemma remove_whitespace_pair (b : byte) (rest : string) :
  remove_whitespace (fmt_X 2 (byte_val b) +++ rest) =
  fmt_X 2 (byte_val b) +++ remove_whitespace rest.
Proof.
  destruct (hex_pair b) as (h & l & vh & vl & E & _ & _ & _ & _ & _ & Sh & Sl & _ & _).
  rewrite E. change (String h (String l "") +++ rest) with (String h (String l rest)).
  cbn [remove_whitespace]. rewrite Sh, Sl. reflexivity.
Qed.

Lemma bytes_hex_upper_cons (b : byte) (bs : bytes) :
  bytes_hex_upper (b :: bs) =
  fmt_X 2 (byte_val b) +++
  match bs with [] => "" | _ => " " +++ bytes_hex_upper bs end.
Proof.
  unfold bytes_hex_upper, join. destruct bs; simpl.
  - symmetry. apply append_nil_r.
  - reflexivity.
Qed.

(** Reading a hex dump back, white space removed first or not. *)
Lemma fromhex_hex_dump (bs : bytes) (tail : string) :
  fromhex tail = Ok [] ->
  fromhex (bytes_hex_upper bs +++ tail) = Ok bs.
Proof.
  intros Ht. induction bs as [|b bs IH]; [exact Ht|].
  rewrite bytes_hex_upper_cons, append_assoc, fromhex_pair.
  destruct bs as [|b' bs].
  - simpl String.append. rewrite Ht. reflexivity.
  - change ((" " +++ bytes_hex_upper (b' :: bs)) +++ tail)
      with (String " " (bytes_hex_upper (b' :: bs) +++ tail)).
    simpl fromhex at 1. cbv beta in IH. rewrite IH. reflexivity.
Qed.

Lemma fromhex_clean_hex_dump (bs : bytes) (tail : string) :
  fromhex (remove_whitespace tail) = Ok [] ->
  fromhex (remove_whitespace (bytes_hex_upper bs +++ tail)) = Ok bs.
Proof.
  intros Ht. induction bs as [|b bs IH]; [exact Ht|].
  rewrite bytes_hex_upper_cons, append_assoc, remove_whitespace_pair, fromhex_pair.
  destruct bs as [|b' bs].
  - simpl String.append. rewrite Ht. reflexivity.
  - change ((" " +++ bytes_hex_upper (b' :: bs)) +++ tail)
      with (String " " (bytes_hex_upper (b' :: bs) +++ tail)).
    simpl remove_whitespace at 1. rewrite IH. reflexivity.
Qed.

(** ** Well-formed CAN-ASCII lines *)

Lemma Z_below_complete (n : nat) (z : Z) : 0 <= z < Z.of_nat n -> In z (Z_below n).
Proof.
  intros Hz. unfold Z_below. rewrite <- (Z2Nat.id z) by lia.
  apply in_map, in_seq. lia.
Qed.

Lemma result_Z_eqb_eq (r : result Z) (z : Z) : result_Z_eqb r z = true -> r = Ok z.
Proof.
  destruct r as [v|e]; simpl; [|discriminate].
  intros H. apply Z.eqb_eq in H. subst. reflexivity.
Qed.

Lemma id3_table : forallb id3_ok (Z_below 4096) = true.
Proof. vm_compute. reflexivity. Qed.

Lemma digit_table : forallb digit_ok (Z_below 10) = true.
Proof. vm_compute. reflexivity. Qed.

Lemma id3_reads_back (id : Z) :
  0 <= id < 4096 ->
  exists a b c,
    fmt_X 3 id = String a (String b (String c "")) /\
    py_int 16 (String a (String b (String c ""))) = Ok id /\
    no_space (String a (String b (String c ""))) = true.
Proof.
  intros Hid. pose proof id3_table as T. rewrite forallb_forall in T.
  specialize (T id (Z_below_complete 4096 id Hid)). unfold id3_ok in T.
  remember (fmt_X 3 id) as s eqn:Es. clear Es.
  destruct s as [|a [|b [|c [|]]]]; try discriminate.
  apply andb_true_iff in T as [T1 T2].
  exists a, b, c. repeat split; [apply result_Z_eqb_eq, T1 | exact T2].
Qed.

Lemma digit_reads_back (n : Z) :
  0 <= n < 10 ->
  exists d,
    str_of_int n = String d "" /\
    py_int 10 (String d "") = Ok n /\ py_isspace d = false.
Proof.
  intros Hn. pose proof digit_table as T. rewrite forallb_forall in T.
  specialize (T n (Z_below_complete 10 n Hn)). unfold digit_ok in T.
  remember (str_of_int n) as s eqn:Es. clear Es.
  destruct s as [|d [|]]; try discriminate.
  apply andb_true_iff in T as [T1 T2].
  exists d. repeat split; [apply result_Z_eqb_eq, T1|].
  simpl in T2. rewrite andb_true_r in T2. apply negb_true_iff, T2.
Qed.

Lemma no_space_app (a b : string) :
  no_space (a +++ b) = no_space a && no_space b.
Proof.
  induction a as [|c a IH]; simpl; [reflexivity|].
  rewrite IH, andb_assoc. reflexivity.
Qed.

Lemma rstrip_no_space (s : string) : no_space s = true -> rstrip s = s.
Proof.
  induction s as [|c s IH]; simpl; [reflexivity|].
  intros H. apply andb_true_iff in H as [Hc Hs]. rewrite (IH Hs).
  apply negb_true_iff in Hc. destruct s; [rewrite Hc|]; reflexivity.
Qed.

Lemma strip_no_space (s trail : string) :
  no_space s = true -> all_space trail = true -> strip (s +++ trail) = s.
Proof.
  intros Hs Ht. unfold strip.
  destruct s as [|c s].
  - simpl. rewrite (lstrip_all_space trail Ht). reflexivity.
  - simpl in Hs. apply andb_true_iff in Hs as [Hc Hs'].
    apply negb_true_iff in Hc. simpl lstrip. rewrite Hc.
    change (String c (s +++ trail)) with (String c s +++ trail).
    rewrite rstrip_app, (rstrip_all_space trail Ht).
    apply rstrip_no_space. simpl. rewrite Hc, Hs'. reflexivity.
Qed.

Lemma hex_pairs_cons (b : byte) (data : bytes) :
  hex_pairs (b :: data) = fmt_X 2 (byte_val b) +++ hex_pairs data.
Proof. unfold hex_pairs. simpl map. apply concat_str_cons. Qed.

Lemma hex_pairs_length (data : bytes) :
  String.length (hex_pairs data) = (List.length data * 2)%nat.
Proof.
  induction data as [|b data IH]; [reflexivity|].
  rewrite hex_pairs_cons.
  destruct (hex_pair b) as (h & l & vh & vl & E & _).
  rewrite E. simpl. rewrite IH. reflexivity.
Qed.

Lemma hex_pairs_no_space (data : bytes) : no_space (hex_pairs data) = true.
Proof.
  induction data as [|b data IH]; [reflexivity|].
  rewrite hex_pairs_cons.
  destruct (hex_pair b) as (h & l & vh & vl & E & _ & _ & _ & _ & _ & Sh & Sl & _ & _).
  rewrite E. simpl. rewrite Sh, Sl, IH. reflexivity.
Qed.

Lemma fromhex_hex_pairs (data : bytes) : fromhex (hex_pairs data) = Ok data.
Proof.
  induction data as [|b data IH]; [reflexivity|].
  rewrite hex_pairs_cons, fromhex_pair, IH. reflexivity.
Qed.

Lemma str_to_all (n : nat) (s : string) :
  (String.length s <= n)%nat -> str_to n s = s.
Proof.
  revert n; induction s as [|c s IH]; intros [|n] H; simpl in *; try reflexivity; try lia.
  rewrite IH by lia. reflexivity.
Qed.

(** X5: every well-formed CAN-ASCII line is decoded to its parts: for an
    identifier below 0x1000 written as three hex digits, a length digit and
    as many hex byte pairs, after [t] or [T], the report shows that
    identifier, that length and those bytes. *)
Theorem parse_can_ascii_well_formed
    (t : ascii) (can_id : Z) (data : bytes) (trail : string) :
  lower t = "t"%char ->
  0 <= can_id < 4096 ->
  (List.length data <= 9)%nat ->
  all_space trail = true ->
  parse_can_ascii (can_line t can_id data +++ trail) =
  Ok ("--- CAN ASCII ---" +++ nl +++
      "  ID:            0x" +++ fmt_X 3 can_id +++ nl +++
      "  DLC:           " +++ str_of_int (Z.of_nat (List.length data)) +++ nl +++
      "  Datos:         " +++ bytes_hex_upper data +++ nl +++
      "-------------------" +++ nl).
Proof.
  intros Ht Hid Hlen Htrail.
  destruct (id3_reads_back can_id Hid) as (a & b & c & Eid & Iid & Sid).
  destruct (digit_reads_back (Z.of_nat (List.length data)) ltac:(lia))
    as (d & Ed & Id & Sd).
  assert (Hts : py_isspace t = false).
  { assert (T : forallb (fun t => negb (Ascii.eqb (lower t) "t") || negb (py_isspace t))
                  all_ascii = true) by (vm_compute; reflexivity).
    pose proof (for_all_ascii _ T t) as P. cbv beta in P.
    rewrite Ht in P. simpl in P. apply negb_true_iff, P. }
  assert (Hline : can_line t can_id data =
                  String t (String a (String b (String c (String d (hex_pairs data)))))).
  { unfold can_line. rewrite Eid, Ed. reflexivity. }
  assert (Hstrip : strip (can_line t can_id data +++ trail) = can_line t can_id data).
  { apply strip_no_space; [|exact Htrail].
    rewrite Hline.
    change (String t (String a (String b (String c (String d (hex_pairs data))))))
      with (String t "" +++ String a (String b (String c "")) +++ String d ""
            +++ hex_pairs data).
    rewrite !no_space_app, Sid, hex_pairs_no_space. simpl. rewrite Hts, Sd. reflexivity. }
  unfold parse_can_ascii. rewrite Hstrip, Hline, Ht.
  change (negb (Ascii.eqb "t" "t")) with false. cbv iota.
  change (str_index (String t (String a (String b (String c (String d (hex_pairs data)))))) 4)
    with (@Ok ascii d).
  change (str_slice 1 4 (String t (String a (String b (String c (String d (hex_pairs data)))))))
    with (String a (String b (String c ""))).
  cbn [bind]. rewrite Id. cbn [bind]. rewrite Nat2Z.id.
  assert (Hslice : str_slice 5 (5 + List.length data * 2)
                     (String t (String a (String b (String c (String d (hex_pairs data))))))
                   = hex_pairs data).
  { unfold str_slice.
    replace (5 + List.length data * 2 - 5)%nat with (List.length data * 2)%nat by lia.
    change (str_from 5 (String t (String a (String b (String c (String d (hex_pairs data)))))))
      with (hex_pairs data).
    apply str_to_all. rewrite hex_pairs_length. lia. }
  rewrite Hslice, Iid. cbn [bind]. rewrite fromhex_hex_pairs. cbn [bind].
  rewrite Eid, Ed. reflexivity.
Qed.

Lemma parse_can_ascii_well_formed_witness :
  (lower "T" = "t"%char /\ 0 <= 0x1F < 4096 /\
   (List.length [xde; xad; xbe] <= 9)%nat /\ all_space nl = true) /\
  parse_can_ascii ("T01F3DEADBE" +++ nl) =
  Ok ("--- CAN ASCII ---" +++ nl +++
      "  ID:            0x01F" +++ nl +++
      "  DLC:           3" +++ nl +++
      "  Datos:         DE AD BE" +++ nl +++
      "-------------------" +++ nl).
Proof.
  split.
  - repeat split; try reflexivity; simpl; lia.
  - apply (parse_can_ascii_well_formed "T" 0x1F [xde; xad; xbe] nl);
      try reflexivity; simpl; lia.
Defined.

(** ** NMEA sentences and their checksum *)

(** The checksum comparison on a sentence with a two-digit checksum. *)
Lemma parse_nmea_checked (data trail : string) (h1 h2 : ascii) (v1 v2 : Z) :
  contains "*" data = false ->
  hex_digit h1 v1 -> hex_digit h2 v2 ->
  all_space trail = true ->
  let sentence := "$" +++ data +++ "*" +++ String h1 (String h2 "") in
  parse_nmea_sentence (sentence +++ trail) =
    (if xor_chars data 0 =? 16 * v1 + v2 then nmea_decode_fields data sentence
     else Ok ("[ERROR CHECKSUM: Calc=" +++ fmt_X 2 (xor_chars data 0)
              +++ ", Recib=" +++ fmt_X 2 (16 * v1 + v2) +++ "] " +++ sentence +++ nl)).
Proof.
  intros Hdata H1 H2 Htrail sentence.
  destruct (two_hex_digits h1 h2 v1 v2 H1 H2) as (Hint & Hsp & Hstar).
  assert (Hstrip : strip (sentence +++ trail) = sentence).
  { assert (Hs : sentence =
              String "$" ((data +++ String "*" (String h1 "")) +++ String h2 "")).
    { subst sentence. simpl. rewrite append_assoc. reflexivity. }
    rewrite Hs. apply strip_sentence; assumption. }
  unfold parse_nmea_sentence. rewrite Hstrip.
  assert (Hshape : sentence = String "$" data +++ String "*" (String h1 (String h2 "")))
    by reflexivity.
  assert (Hsplit : split "*" sentence = [String "$" data; String h1 (String h2 "")]).
  { rewrite Hshape, split_app_sep by (simpl; exact Hdata).
    rewrite split_no_sep by exact Hstar. reflexivity. }
  assert (Hc : contains "*" sentence = true)
    by (rewrite Hshape; apply contains_app_sep).
  rewrite Hc, Hsplit.
  change (startswith sentence "$") with true. simpl negb. simpl orb. cbv iota.
  change (str_from 1 (String "$" data)) with data.
  rewrite Hint.
  destruct (xor_chars data 0 =? 16 * v1 + v2); reflexivity.
Qed.

Lemma ord_range (c : ascii) : 0 <= ord c < 256.
Proof. unfold ord. pose proof (N_ascii_bounded c). lia. Qed.

Lemma ord_injective (c d : ascii) : ord c = ord d -> c = d.
Proof.
  unfold ord. intros E. apply N2Z.inj in E.
  rewrite <- (ascii_N_embedding c), <- (ascii_N_embedding d), E. reflexivity.
Qed.

Lemma xor_chars_range (s : string) (acc : Z) :
  0 <= acc < 256 -> 0 <= xor_chars s acc < 256.
Proof.
  revert acc; induction s as [|c s IH]; intros acc H; simpl; [exact H|].
  apply IH. apply (lxor_below_pow2 8); [lia | exact H | apply ord_range].
Qed.

Lemma xor_chars_acc (s : string) (acc : Z) :
  xor_chars s acc = Z.lxor acc (xor_chars s 0).
Proof.
  revert acc; induction s as [|c s IH]; intros acc; simpl.
  - symmetry. apply Z.lxor_0_r.
  - rewrite (IH (Z.lxor acc (ord c))), (IH (ord c)), Z.lxor_assoc. reflexivity.
Qed.

Lemma xor_chars_app (a b : string) (acc : Z) :
  xor_chars (a +++ b) acc = xor_chars b (xor_chars a acc).
Proof. revert acc; induction a as [|c a IH]; intros acc; simpl; [reflexivity | apply IH]. Qed.

(** The checksum of a sentence prints as two hex digits of its value. *)
Lemma checksum_digits (v : Z) :
  0 <= v < 256 ->
  exists h1 h2 v1 v2,
    fmt_X 2 v = String h1 (String h2 "") /\
    hex_digit h1 v1 /\ hex_digit h2 v2 /\ 16 * v1 + v2 = v.
Proof.
  intros Hv.
  destruct (hex_pair (byte_of_Z v))
    as (h & l & vh & vl & E & Dh & Dl & Lh & Ll & _ & _ & _ & _ & Ev).
  rewrite byte_val_of_Z, Z.mod_small in E, Ev by exact Hv.
  exists h, l, vh, vl. apply Z.ltb_lt in Lh, Ll.
  repeat split; assumption.
Qed.

(** X6: a sentence closed with the checksum of its own data passes the
    checksum test, whatever the data (it may not hold a star): the decoder
    goes on to the fields and reports no checksum error. *)
Theorem parse_nmea_own_checksum (data trail : string) :
  contains "*" data = false ->
  all_space trail = true ->
  parse_nmea_sentence (nmea_sentence data +++ trail) =
  nmea_decode_fields data (nmea_sentence data).
Proof.
  intros Hdata Htrail.
  destruct (checksum_digits (xor_chars data 0) (xor_chars_range data 0 ltac:(lia)))
    as (h1 & h2 & v1 & v2 & E & H1 & H2 & Ev).
  unfold nmea_sentence. rewrite E.
  rewrite (parse_nmea_checked data trail h1 h2 v1 v2 Hdata H1 H2 Htrail).
  rewrite Ev, Z.eqb_refl. reflexivity.
Qed.

Lemma parse_nmea_own_checksum_witness :
  (contains "*" "GPGLL,1" = false /\ all_space nl = true) /\
  parse_nmea_sentence ("$GPGLL,1*4D" +++ nl) =
  Ok ("[TIPO NMEA NO SOPORTADO: GPGLL] $GPGLL,1*4D" +++ nl).
Proof.
  split; [split; reflexivity|].
  apply (parse_nmea_own_checksum "GPGLL,1" nl); reflexivity.
Defined.

(** X7: one wrong character in the data of a sentence is always caught:
    with the checksum of the original data, the corrupted sentence gets the
    checksum-error report, showing the checksum computed and the one
    received. *)
Theorem parse_nmea_detects_corruption (a b trail : string) (c c' : ascii) :
  c <> c' ->
  contains "*" (a +++ String c' b) = false ->
  all_space trail = true ->
  let sent_checksum := xor_chars (a +++ String c b) 0 in
  let corrupted := "$" +++ (a +++ String c' b) +++ "*" +++ fmt_X 2 sent_checksum in
  parse_nmea_sentence (corrupted +++ trail) =
  Ok ("[ERROR CHECKSUM: Calc=" +++ fmt_X 2 (xor_chars (a +++ String c' b) 0)
      +++ ", Recib=" +++ fmt_X 2 sent_checksum +++ "] " +++ corrupted +++ nl).
Proof.
  intros Hne Hdata Htrail sent_checksum corrupted.
  destruct (checksum_digits sent_checksum (xor_chars_range _ 0 ltac:(lia)))
    as (h1 & h2 & v1 & v2 & E & H1 & H2 & Ev).
  subst corrupted. rewrite E.
  rewrite (parse_nmea_checked _ trail h1 h2 v1 v2 Hdata H1 H2 Htrail).
  rewrite Ev.
  replace (xor_chars (a +++ String c' b) 0 =? sent_checksum) with false;
    [rewrite E; reflexivity|].
  symmetry. apply Z.eqb_neq. intros Heq. apply Hne.
  subst sent_checksum. rewrite !xor_chars_app in Heq. simpl in Heq.
  rewrite (xor_chars_acc b (Z.lxor _ (ord c'))), (xor_chars_acc b (Z.lxor _ (ord c))) in Heq.
  apply lxor_cancel_r, lxor_cancel_l in Heq. symmetry. apply ord_injective, Heq.
Qed.

Lemma parse_nmea_detects_corruption_witness :
  ("1"%char <> "7"%char /\ contains "*" ("GPGLL," +++ String "7" "") = false /\
   all_space nl = true) /\
  parse_nmea_sentence ("$GPGLL,7*4D" +++ nl) =
  Ok ("[ERROR CHECKSUM: Calc=4B, Recib=4D] $GPGLL,7*4D" +++ nl).
Proof.
  split; [repeat split; try reflexivity; discriminate|].
  apply (parse_nmea_detects_corruption "GPGLL," "" nl "1" "7");
    [discriminate | reflexivity | reflexivity].
Defined.

(** ** The fields of an NMEA sentence *)

Lemma list_index_nth {A} (l : list A) (i : nat) (d : A) :
  (i < List.length l)%nat -> list_index l i = Ok (nth i l d).
Proof.
  revert i; induction l as [|x l IH]; intros [|i] H; simpl in *; try lia;
    [reflexivity | apply IH; lia].
Qed.

Lemma list_index_beyond {A} (l : list A) (i : nat) :
  (List.length l <= i)%nat -> list_index l i = Raise IndexError.
Proof.
  revert i; induction l as [|x l IH]; intros [|i] H; simpl in *; try lia;
    [reflexivity | reflexivity | apply IH; lia].
Qed.

Ltac index_or_handler :=
  match goal with
  | |- context [list_index ?l ?i] =>
      let E := fresh "E" in
      destruct (list_index l i) eqn:E;
      [ cbn [bind try_except]
      | apply list_index_raises in E; subst;
        cbn [bind try_except is_IndexError]; reflexivity ]
  end.

(** X8: what the decoder makes of the fields is decided by the sentence
    type and the number of commas alone.  A [GPGGA] sentence with fewer than
    ten commas, and a [GPRMC] sentence with fewer than nine, is reported as
    malformed; with that many or more it is decoded from its fields by
    position (the further fields are ignored); any other type is reported as
    unsupported. *)
Theorem nmea_decode_fields_by_count (sentence_data line : string) :
  let fields := split "," sentence_data in
  let f := fun k => nth k fields "" in
  let commas := count_char "," sentence_data in
  nmea_decode_fields sentence_data line =
  Ok (if String.eqb (f 0%nat) "GPGGA" then
        if (commas <? 10)%nat then "[GPGGA MAL FORMADO] " +++ line +++ nl
        else gga_block f
      else if String.eqb (f 0%nat) "GPRMC" then
        if (commas <? 9)%nat then "[GPRMC MAL FORMADO] " +++ line +++ nl
        else rmc_block f
      else "[TIPO NMEA NO SOPORTADO: " +++ f 0%nat +++ "] " +++ line +++ nl).
Proof.
  intros fields f commas.
  pose proof (split_length "," sentence_data) as Hlen. fold fields commas in Hlen.
  unfold nmea_decode_fields. fold fields.
  rewrite (list_index_nth fields 0 "") by lia. cbn [bind]. fold (f 0%nat).
  destruct (String.eqb (f 0%nat) "GPGGA"); [|destruct (String.eqb (f 0%nat) "GPRMC")].
  - destruct (commas <? 10)%nat eqn:Hc.
    + apply Nat.ltb_lt in Hc.
      repeat index_or_handler.
      rewrite list_index_beyond in E8 by lia. discriminate.
    + apply Nat.ltb_ge in Hc.
      rewrite !(fun i H => list_index_nth fields i "" H) by lia.
      reflexivity.
  - destruct (commas <? 9)%nat eqn:Hc.
    + apply Nat.ltb_lt in Hc.
      repeat index_or_handler.
      rewrite list_index_beyond in E3 by lia. discriminate.
    + apply Nat.ltb_ge in Hc.
      rewrite !(fun i H => list_index_nth fields i "" H) by lia.
      reflexivity.
  - reflexivity.
Qed.

(** ** What the log/decode task produces *)

Section LogTaskOutput.
Variable J : JsonLib.
Variable clock : Clock.
Variable S : Session.
Hypothesis HJ : json_contract J.

Lemma on_lines_reports (lines : list string) (st : LogState S) :
  String.eqb (protocol S) "Modbus-RTU" = false ->
  exists st',
    on_lines J clock S st lines = Ok st' /\
    decoded_queue st' =
      decoded_queue st ++
      match parser J S with Some p => map (line_report p) lines | None => [] end /\
    (logging S = false -> logfile st' = logfile st) /\
    line_buffer st' = line_buffer st /\
    decoder_state st' = decoder_state st.
Proof.
  intros Hm. revert st. induction lines as [|line rest IH]; intros st.
  - exists st. simpl. destruct (parser J S); rewrite app_nil_r; repeat split; reflexivity.
  - simpl on_lines. unfold on_line.
    destruct (parser J S) as [p|] eqn:Ep.
    + destruct (line_parser_returns J S HJ p (line +++ nl) Hm Ep) as [r Er].
      rewrite Er. cbn [bind map]. unfold line_report at 1. rewrite Er.
      destruct (logging S) eqn:Hl;
        match goal with |- context [on_lines J clock S ?s rest] =>
          destruct (IH s) as (st' & E & Hq & Hf & Hb & Hd) end;
        exists st'; rewrite E; simpl in Hq, Hf, Hb, Hd;
        (split; [reflexivity|]); (split; [rewrite Hq, <- app_assoc; reflexivity|]);
        (split; [try discriminate; intros _; apply Hf; reflexivity|]);
        (split; assumption).
    + cbn [bind].
      destruct (logging S) eqn:Hl;
        match goal with |- context [on_lines J clock S ?s rest] =>
          destruct (IH s) as (st' & E & Hq & Hf & Hb & Hd) end;
        exists st'; rewrite E; simpl in Hq, Hf, Hb, Hd;
        (split; [reflexivity|]); (split; [exact Hq|]);
        (split; [try discriminate; intros _; apply Hf; reflexivity|]);
        (split; assumption).
Qed.

Lemma log_loop_reports_line_mode (chunks : list bytes) (st : LogState S) :
  String.eqb (protocol S) "Modbus-RTU" = false ->
  exists st',
    log_loop J clock S st (map Some chunks ++ [None]) = Ok (st', Terminated) /\
    decoded_queue st' =
      decoded_queue st ++
      match parser J S with
      | Some p =>
          map (line_report p)
            (fst (feed_all (line_buffer st)
                    (decode_all (encoding S) (decoder_state st) chunks)))
      | None => []
      end /\
    (logging S = false -> logfile st' = logfile st).
Proof.
  intros Hm. revert st. induction chunks as [|raw rest IH]; intros st.
  - exists st. simpl. destruct (parser J S); rewrite app_nil_r; repeat split; reflexivity.
  - simpl map. simpl app. simpl log_loop. unfold on_chunk. rewrite Hm.
    simpl decode_all.
    destruct (codec_decode (encoding S) (decoder_state st) raw) as [dst text].
    simpl feed_all. unfold feed.
    destruct (split_lines (line_buffer st +++ text)) as [lines pending].
    match goal with |- context [on_lines J clock S ?s lines] =>
      destruct (on_lines_reports lines s Hm) as (st1 & E1 & Hq & Hf & Hb & Hd) end.
    rewrite E1. cbn [bind]. simpl in Hq, Hf, Hb, Hd.
    destruct (IH st1) as (st' & E & Hq' & Hf').
    exists st'. rewrite E. rewrite Hb, Hd in Hq'. split; [reflexivity|].
    destruct (feed_all pending (decode_all (encoding S) dst rest)) as [more final].
    simpl in *. split.
    + rewrite Hq', Hq. destruct (parser J S); rewrite <- app_assoc; [|reflexivity].
      rewrite map_app. reflexivity.
    + intros Hoff. rewrite (Hf' Hoff), (Hf Hoff). reflexivity.
Qed.

Lemma log_loop_reports_modbus_mode (frames : list bytes) (st : LogState S) :
  String.eqb (protocol S) "Modbus-RTU" = true ->
  exists st',
    log_loop J clock S st (map Some frames ++ [None]) = Ok (st', Terminated) /\
    decoded_queue st' = decoded_queue st ++ map frame_report frames /\
    (logging S = false -> logfile st' = logfile st).
Proof.
  intros Hm.
  assert (Hp : parser J S = Some (FrameDecoder parse_modbus_rtu)).
  { unfold parser, DECODERS. apply String.eqb_eq in Hm. rewrite Hm. reflexivity. }
  revert st. induction frames as [|raw rest IH]; intros st.
  - exists st. simpl. rewrite app_nil_r. repeat split; reflexivity.
  - simpl map. simpl app. simpl log_loop. unfold on_chunk. rewrite Hm, Hp.
    simpl call_on_frame. unfold frame_report at 1.
    destruct (parse_modbus_rtu_returns raw) as (report & Er & _).
    rewrite Er. cbn [bind].
    destruct (logging S) eqn:Hl; cbn [bind];
      match goal with |- context [log_loop J clock S ?s (map Some rest ++ [None])] =>
        destruct (IH s) as (st' & E & Hq & Hf) end;
      exists st'; rewrite E; simpl in Hq, Hf;
      (split; [reflexivity|]);
      (split; [rewrite Hq, <- app_assoc; reflexivity|]);
      try discriminate; intros _; apply Hf; reflexivity.
Qed.

End LogTaskOutput.

(** X9: the decoded queue gets one report per Modbus frame, or one per
    completed line when a line decoder is selected, in the order of arrival
    and whether the session logs to a file or not; a session that does not
    log to a file (logging off, or the file could not be opened) performs no
    file operation at all. *)
Theorem log_task_reports
    (J : JsonLib) (clock : Clock) (S : Session) (chunks : list bytes) :
  json_contract J ->
  exists st,
    log_and_decode_task J clock S (map Some chunks ++ [None]) = Ok (st, Terminated) /\
    decoded_queue st = session_reports J S chunks /\
    (logging S = false -> logfile st = []).
Proof.
  intros HJ. unfold log_and_decode_task, session_reports.
  destruct (String.eqb (protocol S) "Modbus-RTU") eqn:Hm.
  - destruct (log_loop_reports_modbus_mode J clock S chunks (log_init S) Hm)
      as (st & E & Hq & Hf).
    rewrite E. cbn [bind].
    destruct (logging S) eqn:Hl; eexists; (split; [reflexivity|]); simpl;
      (split; [exact Hq|]); [discriminate | intros _; apply Hf; reflexivity].
  - destruct (log_loop_reports_line_mode J clock S HJ chunks (log_init S) Hm)
      as (st & E & Hq & Hf).
    rewrite E. cbn [bind].
    destruct (logging S) eqn:Hl; eexists; (split; [reflexivity|]); simpl;
      (split; [exact Hq|]); [discriminate | intros _; apply Hf; reflexivity].
Qed.

Lemma log_task_reports_witness :
  json_contract json_empty_object_only /\
  exists st,
    log_and_decode_task json_empty_object_only frozen_clock
      {| encoding := latin1; ck_logfile := false; open_succeeds := true;
         protocol := "CAN-ASCII"; cb_timestamp := fun _ => "none";
         cb_delimiter := fun _ => "blank" |}
      (map Some [encode_latin1 "t1002AA"; encode_latin1 ("BB" +++ nl +++ "x" +++ nl)]
         ++ [None]) = Ok (st, Terminated) /\
    decoded_queue st =
      ["--- CAN ASCII ---" +++ nl +++
       "  ID:            0x100" +++ nl +++
       "  DLC:           2" +++ nl +++
       "  Datos:         AA BB" +++ nl +++
       "-------------------" +++ nl;
       "[NO CAN-ASCII] x" +++ nl] /\
    logfile st = [].
Proof.
  split; [exact json_empty_object_only_contract|].
  destruct (log_task_reports json_empty_object_only frozen_clock
              {| encoding := latin1; ck_logfile := false; open_succeeds := true;
                 protocol := "CAN-ASCII"; cb_timestamp := fun _ => "none";
                 cb_delimiter := fun _ => "blank" |}
              [encode_latin1 "t1002AA"; encode_latin1 ("BB" +++ nl +++ "x" +++ nl)]
              json_empty_object_only_contract) as (st & E & Hq & Hf).
  exists st. split; [exact E|]. split; [exact Hq | exact (Hf eq_refl)].
Defined.

(** ** The log file of a line-mode session without timestamps *)

Lemma file_text_line_entries_none (clock : Clock)
    (format_choice delimiter : nat -> string) (k : nat) (lines : list string) :
  (forall n, format_choice n = "none") ->
  file_text (line_entries clock format_choice delimiter k lines) = unlines lines.
Proof.
  intros Hnone. revert k; induction lines as [|l lines IH]; intros k; [reflexivity|].
  simpl. rewrite IH, Hnone, get_timestamp_none. simpl String.append.
  rewrite append_assoc. reflexivity.
Qed.

(** X10: in a line-mode session that logs without timestamps, and whose
    decoder returns for each completed line, the task splits what it has
    taken from the queue at the last line feed: the pending buffer is the
    text after the last line feed of the input (the whole input if there is
    none), and the file holds the text before it, character for character,
    so that file and buffer together are the input. *)
Theorem log_task_file_and_pending
    (J : JsonLib) (clock : Clock) (S : Session) (chunks : list bytes) :
  logging S = true ->
  String.eqb (protocol S) "Modbus-RTU" = false ->
  (forall k, cb_timestamp S k = "none") ->
  let input := concat_str (decode_all (encoding S) (codec_init (encoding S)) chunks) in
  decoder_returns J S (fst (split_lines input)) = true ->
  exists st,
    log_and_decode_task J clock S (map Some chunks ++ [None]) = Ok (st, Terminated) /\
    line_buffer st = after_last_lf input /\
    file_text (logfile st) +++ line_buffer st = input.
Proof.
  intros Hlog Hm Hts input Hret. unfold log_and_decode_task.
  set (texts := decode_all (encoding S) (codec_init (encoding S)) chunks) in *.
  assert (Hfeed : feed_all "" texts = split_lines input).
  { rewrite (feed_all_concat "" texts eq_refl). reflexivity. }
  destruct (log_loop_line_mode J clock S Hlog chunks (log_init S) Hm)
    as (st & E & Hf & Hb).
  { simpl. fold texts. rewrite Hfeed. exact Hret. }
  rewrite E. cbn [bind]. rewrite Hlog.
  eexists. split; [reflexivity|]. simpl.
  simpl in Hf, Hb. fold texts in Hf, Hb. rewrite Hfeed in Hf, Hb. rewrite Hf, Hb.
  split; [apply split_lines_pending|].
  rewrite file_text_app, file_text_line_entries_none by exact Hts.
  simpl file_text. rewrite append_nil_r. apply split_lines_lossless.
Qed.

Lemma log_task_file_and_pending_witness :
  (logging (logging_session "NMEA-0183" "none" "blank") = true /\
   String.eqb (protocol (logging_session "NMEA-0183" "none" "blank")) "Modbus-RTU" = false /\
   decoder_returns json_empty_object_only (logging_session "NMEA-0183" "none" "blank")
     ["ab"] = true) /\
  exists st,
    log_and_decode_task json_empty_object_only frozen_clock
      (logging_session "NMEA-0183" "none" "blank")
      (map Some [encode_latin1 ("ab" +++ nl +++ "c"); encode_latin1 "d"] ++ [None])
      = Ok (st, Terminated) /\
    file_text (logfile st) = "ab" +++ nl /\ line_buffer st = "cd".
Proof.
  split; [repeat split|].
  destruct (log_task_file_and_pending json_empty_object_only frozen_clock
              (logging_session "NMEA-0183" "none" "blank")
              [encode_latin1 ("ab" +++ nl +++ "c"); encode_latin1 "d"]
              eq_refl eq_refl (fun _ => eq_refl) eq_refl)
    as (st & E & _ & _).
  exists st. split; [exact E|].
  vm_compute in E. injection E as E. subst st. split; reflexivity.
Defined.

(** ** A CLI session *)

Lemma concat_str_snoc (out : list string) (x : string) :
  concat_str (out ++ [x]) = concat_str out +++ x.
Proof.
  induction out as [|o out IH].
  - simpl. reflexivity.
  - change ((o :: out) ++ [x]) with (o :: (out ++ [x])).
    rewrite !concat_str_cons, IH, append_assoc. reflexivity.
Qed.

Lemma concat_str_app (a b : list string) :
  concat_str (a ++ b) = concat_str a +++ concat_str b.
Proof.
  induction a as [|x a IH]; [reflexivity|].
  change ((x :: a) ++ b) with (x :: (a ++ b)).
  rewrite !concat_str_cons, IH, append_assoc. reflexivity.
Qed.

Lemma unlines_app (a b : list string) : unlines (a ++ b) = unlines a +++ unlines b.
Proof.
  induction a as [|l a IH]; [reflexivity|].
  simpl. rewrite IH, !append_assoc. reflexivity.
Qed.

Section CliFacts.
Variable clock : Clock.
Variable A : CliArgs.
Hypothesis Hts : cli_timestamp A = "none".

Lemma echo_none (s : string) (sol : bool) (out : list string) (t : nat) :
  concat_str (snd (fst (echo clock A s sol out t))) = concat_str out +++ s.
Proof.
  revert sol out t. induction s as [|c s IH]; intros sol out t.
  - simpl. symmetry. apply append_nil_r.
  - simpl echo. rewrite Hts.
    destruct sol; simpl; rewrite IH, concat_str_snoc, append_assoc; reflexivity.
Qed.

Lemma cli_log_lines_none (lines : list string) (file : list file_op) (t : nat) :
  file_text (fst (cli_log_lines clock A lines file t)) = file_text file +++ unlines lines.
Proof.
  revert file t. induction lines as [|l lines IH]; intros file t.
  - simpl. symmetry. apply append_nil_r.
  - simpl cli_log_lines. rewrite IH, Hts, file_text_app. simpl.
    rewrite !append_assoc. reflexivity.
Qed.

(** The state after a run of chunks: the console has all the text, the
    file has the completed lines, the buffer has the rest. *)
Lemma console_output_fold (chunks : list bytes) (st : CliState A) :
  let st' := fold_left (console_output clock A) chunks st in
  let texts := decode_all (cli_encoding A) (cli_decoder st) chunks in
  concat_str (cli_stdout st') = concat_str (cli_stdout st) +++ concat_str texts /\
  (cli_log A = true ->
   cli_line_buffer st' = snd (feed_all (cli_line_buffer st) texts) /\
   file_text (cli_logfile st') =
     file_text (cli_logfile st) +++ unlines (fst (feed_all (cli_line_buffer st) texts))).
Proof.
  revert st. induction chunks as [|raw rest IH]; intros st.
  - simpl. rewrite !append_nil_r. repeat split; reflexivity.
  - simpl fold_left. simpl decode_all.
    specialize (IH (console_output clock A st raw)).
    unfold console_output in *.
    destruct (codec_decode (cli_encoding A) (cli_decoder st) raw) as [dst text].
    pose proof (echo_none text (cli_start_of_line st) (cli_stdout st) (cli_tick st)) as He.
    destruct (echo clock A text (cli_start_of_line st) (cli_stdout st) (cli_tick st))
      as [[sol out] t].
    simpl in He.
    destruct (cli_log A) eqn:Hlog.
    + simpl feed_all. unfold feed.
      destruct (split_lines (cli_line_buffer st +++ text)) as [lines pending].
      pose proof (cli_log_lines_none lines (cli_logfile st) t) as Hf.
      destruct (cli_log_lines clock A lines (cli_logfile st) t) as [file t'].
      simpl in Hf. simpl in IH. destruct IH as [IH1 IH2].
      destruct (IH2 eq_refl) as [IHb IHf].
      destruct (feed_all pending (decode_all (cli_encoding A) dst rest)) as [more final].
      simpl in *. split.
      * rewrite IH1, He, concat_str_cons, append_assoc. reflexivity.
      * intros _. split; [exact IHb|].
        rewrite IHf, Hf, unlines_app, append_assoc. reflexivity.
    + simpl in IH. destruct IH as [IH1 _]. split.
      * rewrite IH1, He, concat_str_cons, append_assoc. reflexivity.
      * discriminate.
Qed.

End CliFacts.

(** X11: without timestamps the console of a CLI session shows the decoded
    input, character for character: what is written to standard output is
    the text of all chunks, in order, whether the session logs or not. *)
Theorem cli_console_mirrors_input (clock : Clock) (A : CliArgs) (chunks : list bytes) :
  cli_timestamp A = "none" ->
  concat_str (cli_stdout (run_cli_mode clock A chunks)) =
  concat_str (decode_all (cli_encoding A) (codec_init (cli_encoding A)) chunks).
Proof.
  intros Hts. unfold run_cli_mode.
  destruct (console_output_fold clock A Hts chunks (cli_init A)) as [H _].
  simpl in H.
  unfold cli_finally. destruct (cli_log A); [|exact H].
  destruct (cli_line_buffer (fold_left (console_output clock A) chunks (cli_init A)));
    exact H.
Qed.

Lemma cli_console_mirrors_input_witness :
  cli_timestamp cli_logging = "none" /\
  concat_str (cli_stdout (run_cli_mode frozen_clock cli_logging
                            [encode_latin1 ("a" +++ nl +++ "b"); encode_latin1 "c"]))
  = "a" +++ nl +++ "bc".
Proof.
  split; [reflexivity|].
  apply (cli_console_mirrors_input frozen_clock cli_logging
           [encode_latin1 ("a" +++ nl +++ "b"); encode_latin1 "c"]).
  reflexivity.
Defined.

(** X12: a CLI session that logs without timestamps loses nothing when it
    ends: the file, closed last, holds every completed line of the input
    with its terminator, then the pending partial line, stripped and
    terminated, if there is one. *)
Theorem cli_log_keeps_partial_line (clock : Clock) (A : CliArgs) (chunks : list bytes) :
  cli_timestamp A = "none" -> cli_log A = true ->
  let input := concat_str (decode_all (cli_encoding A) (codec_init (cli_encoding A)) chunks) in
  let final := run_cli_mode clock A chunks in
  file_text (cli_logfile final) =
    unlines (fst (split_lines input)) +++ final_entry (snd (split_lines input)) /\
  last (cli_logfile final) FFlush = FClose.
Proof.
  intros Hts Hlog input final. subst final. unfold run_cli_mode.
  destruct (console_output_fold clock A Hts chunks (cli_init A)) as [_ H].
  destruct (H Hlog) as [Hb Hf]. clear H. simpl in Hb, Hf.
  rewrite (feed_all_concat "" _ eq_refl) in Hb, Hf. simpl String.append in Hb, Hf.
  fold input in Hb, Hf.
  unfold cli_finally. rewrite Hlog, Hb.
  destruct (snd (split_lines input)) as [|c p] eqn:Ep.
  - simpl. rewrite file_text_app, Hf. simpl. rewrite last_last. split; reflexivity.
  - rewrite Hts. simpl cli_logfile.
    rewrite !file_text_app, Hf, last_last. simpl. rewrite !append_nil_r.
    split; reflexivity.
Qed.

Lemma cli_log_keeps_partial_line_witness :
  (cli_timestamp cli_logging = "none" /\ cli_log cli_logging = true) /\
  file_text (cli_logfile (run_cli_mode frozen_clock cli_logging
                            [encode_latin1 ("ab" +++ nl +++ "c"); encode_latin1 "d  "]))
  = "ab" +++ nl +++ "cd" +++ nl.
Proof.
  split; [split; reflexivity|].
  apply (cli_log_keeps_partial_line frozen_clock cli_logging
           [encode_latin1 ("ab" +++ nl +++ "c"); encode_latin1 "d  "]);
    reflexivity.
Defined.

(** ** The read loop *)

Lemma delivered_nonempty (script : list read_event) :
  Forall (fun chunk => chunk <> []) (delivered script).
Proof.
  induction script as [|[|[|b data]|] rest IH]; simpl; try constructor; try assumption.
  discriminate.
Qed.

Lemma delivered_bytes (script : list read_event) :
  no_failure script = true -> List.concat (delivered script) = incoming_bytes script.
Proof.
  induction script as [|[|[|b data]|] rest IH]; simpl; intros H; try discriminate.
  - reflexivity.
  - exact (IH H).
  - exact (IH H).
  - unfold incoming_bytes in *. simpl. rewrite (IH H). reflexivity.
Qed.

(** X13: the read loop hands every byte it reads to the callback, in the
    order read and never as an empty chunk.  If the link then fails, the
    callback gets exactly one more chunk, the error text, and the loop stops
    for good: whatever the link would deliver after the failure is never
    read. *)
Theorem read_task_delivery (before after : list read_event) :
  no_failure before = true ->
  read_task true before = (delivered before, StoppedByClose) /\
  read_task true (before ++ SerialException :: after) =
    (delivered before ++ [error_chunk], StoppedByFailure) /\
  List.concat (delivered before) = incoming_bytes before /\
  Forall (fun chunk => chunk <> []) (delivered before) /\
  fst (read_task false (before ++ SerialException :: after)) = [].
Proof.
  intros H. repeat split.
  - apply read_task_no_failure, H.
  - apply read_task_failure, H.
  - apply delivered_bytes, H.
  - apply delivered_nonempty.
  - clear H. induction before as [|[|data|] rest IH]; simpl; try reflexivity; try exact IH.
    destruct (read_task false (rest ++ SerialException :: after)) as [calls e].
    simpl in *. destruct data; exact IH.
Qed.

Lemma read_task_delivery_witness :
  no_failure [Incoming [x61]; Idle; Incoming []; Incoming [x62; x63]] = true /\
  read_task true ([Incoming [x61]; Idle; Incoming []; Incoming [x62; x63]]
                    ++ SerialException :: [Incoming [x64]]) =
    ([[x61]; [x62; x63]; error_chunk], StoppedByFailure).
Proof.
  split; [reflexivity|].
  apply (read_task_delivery [Incoming [x61]; Idle; Incoming []; Incoming [x62; x63]]
           [Incoming [x64]]).
  reflexivity.
Defined.

(** ** Sending and the command history *)

Lemma last_entry_snoc (h : list string) (x : string) : last_entry (h ++ [x]) = Some x.
Proof. unfold last_entry. rewrite rev_app_distr. reflexivity. Qed.

Lemma last_entry_cons (a : string) (h : list string) :
  h <> [] -> last_entry (a :: h) = last_entry h.
Proof.
  intros Hne. unfold last_entry. simpl.
  destruct (rev h) as [|x r] eqn:E; [|reflexivity].
  apply (f_equal (@rev string)) in E. rewrite rev_involutive in E. contradiction.
Qed.

Lemma no_repeat_snoc (h : list string) (x : string) :
  no_repeat h = true -> last_entry h <> Some x -> no_repeat (h ++ [x]) = true.
Proof.
  induction h as [|a [|b t] IH]; intros Hn Hl.
  - reflexivity.
  - simpl. unfold last_entry in Hl. simpl in Hl.
    destruct (String.eqb_spec a x) as [->|_]; [contradiction | reflexivity].
  - simpl in Hn. apply andb_true_iff in Hn as [Hab Hn].
    change ((a :: b :: t) ++ [x]) with (a :: b :: (t ++ [x])).
    simpl no_repeat. rewrite Hab. simpl.
    apply (IH Hn). rewrite <- (last_entry_cons a (b :: t)) by discriminate. exact Hl.
Qed.

Lemma no_repeat_tl (h : list string) : no_repeat h = true -> no_repeat (tl h) = true.
Proof.
  destruct h as [|a [|b t]]; simpl; try reflexivity.
  intros H. apply andb_true_iff in H as [_ H]. exact H.
Qed.

Lemma last_entry_tl (h : list string) (x : string) :
  last_entry h <> Some x -> last_entry (tl h) <> Some x.
Proof.
  destruct h as [|a [|b t]]; simpl; try (intros _; discriminate).
  rewrite (last_entry_cons a (b :: t)) by discriminate. tauto.
Qed.

Lemma no_repeat_deque_append (h : list string) (x : string) :
  no_repeat h = true -> last_entry h <> Some x -> no_repeat (deque_append h x) = true.
Proof.
  intros Hn Hl. unfold deque_append.
  destruct (maxlen <=? List.length h)%nat.
  - apply no_repeat_snoc; [apply no_repeat_tl, Hn | apply last_entry_tl, Hl].
  - apply no_repeat_snoc; assumption.
Qed.

(** X14: sending never puts the same text twice in a row into the history:
    if no two neighbours of the history are equal before [_send_data], none
    are after it, whatever is sent and however the send ends (so a periodic
    send of one command leaves one entry). *)
Theorem send_keeps_history_without_repeats (E : SendEnv) (st : SendState) :
  no_repeat (command_history st) = true ->
  no_repeat (command_history (after (send_data E st))) = true.
Proof.
  intros Hn.
  destruct (bt_send_disabled E) eqn:Hd;
    [unfold send_data; rewrite Hd; exact Hn|].
  destruct (entry_input st) as [|c t] eqn:Et;
    [unfold send_data; rewrite Hd, Et; exact Hn|].
  rewrite send_data_history by (try exact Hd; rewrite Et; discriminate).
  rewrite Et. unfold history_after_send.
  destruct (last_entry (command_history st)) as [l|] eqn:El.
  - destruct (String.eqb_spec l (String c t)) as [_|Hne]; [exact Hn|].
    apply no_repeat_deque_append; [exact Hn|]. rewrite El. congruence.
  - apply no_repeat_deque_append; [exact Hn|]. rewrite El. discriminate.
Qed.

Lemma send_keeps_history_without_repeats_witness :
  no_repeat ["AT"; "ATZ"] = true /\
  no_repeat
    (command_history
       (after (send_data hex_env
                 {| command_history := ["AT"; "ATZ"]; history_index := 2;
                    entry_input := "ATZ" |}))) = true.
Proof.
  split; [reflexivity|].
  apply (send_keeps_history_without_repeats hex_env
           {| command_history := ["AT"; "ATZ"]; history_index := 2;
              entry_input := "ATZ" |}).
  reflexivity.
Defined.

(** Whenever [_send_data] gets as far as the history, it leaves the cursor
    just past the newest entry. *)
Lemma send_data_cursor (E : SendEnv) (st : SendState) :
  bt_send_disabled E = false -> entry_input st <> "" ->
  history_index (after (send_data E st)) =
  List.length (command_history (after (send_data E st))).
Proof.
  intros Hd Ht. unfold send_data. rewrite Hd.
  destruct (entry_input st) as [|c t] eqn:Et; [contradiction|].
  destruct (hex_input_var E).
  - destruct (fromhex (remove_whitespace (String c t))) as [w|e].
    + destruct (write_data (port E) w) as [[|] m]; reflexivity.
    + destruct (is_ValueError e); reflexivity.
  - destruct (port E); simpl.
    + reflexivity.
    + destruct (str_encode E _); reflexivity.
    + destruct (str_encode E _); reflexivity.
Qed.

Lemma history_after_send_last (h : list string) (text : string) :
  last_entry (history_after_send h text) = Some text.
Proof.
  unfold history_after_send.
  assert (Ha : last_entry (deque_append h text) = Some text).
  { unfold deque_append. destruct (maxlen <=? List.length h)%nat; apply last_entry_snoc. }
  destruct (last_entry h) as [l|] eqn:El; [|exact Ha].
  destruct (String.eqb_spec l text) as [->|_]; [exact El | exact Ha].
Qed.

(** What is left in the entry: the text, unless something was sent from an
    entry that is not disabled. *)
Lemma send_data_entry (E : SendEnv) (st : SendState) :
  entry_input (after (send_data E st)) =
  match sent (send_data E st) with
  | [] => entry_input st
  | _ => if entry_disabled E then entry_input st else ""
  end.
Proof.
  unfold send_data.
  destruct (bt_send_disabled E); [reflexivity|].
  destruct (entry_input st) as [|c t] eqn:Et; [simpl; rewrite Et; reflexivity|].
  destruct (hex_input_var E).
  - destruct (fromhex (remove_whitespace (String c t))) as [w|e].
    + destruct (write_data (port E) w) as [[|] m]; reflexivity.
    + destruct (is_ValueError e); reflexivity.
  - destruct (port E); simpl.
    + reflexivity.
    + destruct (str_encode E _); reflexivity.
    + destruct (str_encode E _); reflexivity.
Qed.

(** What goes to the port, the dialogs and the exception depend on the
    text of the entry only, not on the history. *)
Lemma send_data_by_entry (E : SendEnv) (st st' : SendState) :
  entry_input st = entry_input st' ->
  sent (send_data E st) = sent (send_data E st') /\
  dialogs (send_data E st) = dialogs (send_data E st') /\
  raised (send_data E st) = raised (send_data E st').
Proof.
  intros He. unfold send_data. rewrite <- He.
  destruct (bt_send_disabled E); [repeat split|].
  destruct (entry_input st) as [|c t]; [repeat split|].
  destruct (hex_input_var E).
  - destruct (fromhex (remove_whitespace (String c t))) as [w|e].
    + destruct (write_data (port E) w) as [[|] m]; repeat split.
    + destruct (is_ValueError e); repeat split.
  - destruct (port E); simpl.
    + repeat split.
    + destruct (str_encode E _); repeat split.
    + destruct (str_encode E _); repeat split.
Qed.

Lemma send_state_eq (a b : SendState) :
  command_history a = command_history b ->
  history_index a = history_index b ->
  entry_input a = entry_input b -> a = b.
Proof. destruct a, b; simpl; intros -> -> ->; reflexivity. Qed.

Lemma send_outcome_eq (a b : SendOutcome) :
  after a = after b -> sent a = sent b -> dialogs a = dialogs b ->
  raised a = raised b -> a = b.
Proof. destruct a, b; simpl; intros -> -> -> ->; reflexivity. Qed.

(** With the entry disabled the text stays in it, and the next call finds
    it as the newest entry of the history: it does the same again and leaves
    the same state. *)
Lemma send_data_again (E : SendEnv) (st : SendState) :
  entry_disabled E = true ->
  send_data E (after (send_data E st)) = send_data E st.
Proof.
  intros Hdis.
  assert (Hentry : entry_input (after (send_data E st)) = entry_input st).
  { rewrite send_data_entry, Hdis. destruct (sent (send_data E st)); reflexivity. }
  destruct (send_data_by_entry E (after (send_data E st)) st Hentry) as (Hs & Hd & Hr).
  apply send_outcome_eq; try assumption.
  destruct (bt_send_disabled E) eqn:Hb.
  { unfold send_data. repeat (rewrite ?Hb; simpl). reflexivity. }
  destruct (String.eqb_spec (entry_input st) "") as [Et|Hne].
  { unfold send_data. repeat (rewrite ?Hb, ?Et; simpl). reflexivity. }
  assert (Hne' : entry_input (after (send_data E st)) <> "") by (rewrite Hentry; exact Hne).
  assert (Hh : command_history (after (send_data E (after (send_data E st)))) =
               command_history (after (send_data E st))).
  { rewrite (send_data_history E (after (send_data E st)) Hb Hne').
    rewrite Hentry, (send_data_history E st Hb Hne).
    unfold history_after_send at 1.
    rewrite history_after_send_last, String.eqb_refl. reflexivity. }
  apply send_state_eq.
  - exact Hh.
  - rewrite (send_data_cursor E _ Hb Hne'), Hh. symmetry.
    apply (send_data_cursor E st Hb Hne).
  - rewrite send_data_entry, Hdis, Hentry.
    destruct (sent (send_data E (after (send_data E st)))); reflexivity.
Qed.

(** A periodic send hands the port, tick after tick, what its first call
    handed over. *)
Lemma periodic_send_repeats (E : SendEnv) (st : SendState) (ticks : nat) :
  entry_disabled E = true ->
  raised (send_data E st) = None ->
  snd (periodic_send_task E st ticks) =
  List.concat (repeat (sent (send_data E st)) ticks).
Proof.
  intros Hdis Hr. revert st Hr. induction ticks as [|n IH]; intros st Hr.
  - reflexivity.
  - simpl periodic_send_task. rewrite Hr.
    assert (Hr' : raised (send_data E (after (send_data E st))) = None)
      by (rewrite send_data_again by exact Hdis; exact Hr).
    specialize (IH (after (send_data E st)) Hr').
    rewrite send_data_again in IH by exact Hdis.
    destruct (periodic_send_task E (after (send_data E st)) n) as [st' more].
    simpl in *. rewrite IH. reflexivity.
Qed.


(** ** Hexadecimal input *)

(** Hexadecimal input that parses is written to an open port as it is. *)
Lemma send_data_hex_parsed (E : SendEnv) (st : SendState) (data_to_write : bytes) :
  hex_input_on E ->
  entry_input st <> "" ->
  fromhex (remove_whitespace (entry_input st)) = Ok data_to_write ->
  sent (send_data E st) = [data_to_write] /\
  dialogs (send_data E st) = [] /\ raised (send_data E st) = None.
Proof.
  intros (Hen & Hhex & Hport) Hne Hparse.
  unfold send_data. rewrite Hen, Hhex.
  destruct (entry_input st) as [|c t] eqn:Et; [contradiction|].
  rewrite Hparse, Hport. simpl. repeat split; reflexivity.
Qed.



(** ** Recalling the history *)

Lemma py_getitem_nth {A} (l : list A) (i : Z) (d : A) :
  0 <= i < Z.of_nat (List.length l) -> py_getitem l i = Ok (nth (Z.to_nat i) l d).
Proof.
  intros H. unfold py_getitem.
  replace (0 <=? i) with true by (symmetry; apply Z.leb_le; lia).
  apply list_index_nth. lia.
Qed.

(** Where Up and Down go from a cursor in range. *)
Lemma history_moves (v : HistoryView) :
  cursor_in_range v ->
  let h := hv_history v in
  let i := hv_index v in
  let len := Z.of_nat (List.length h) in
  history_up v =
    Ok (if 0 <? i
        then {| hv_history := h; hv_index := i - 1;
                hv_entry := nth (Z.to_nat (i - 1)) h "" |}
        else v) /\
  history_down v =
    Ok (if i <? len
        then {| hv_history := h; hv_index := i + 1;
                hv_entry := if i + 1 <? len then nth (Z.to_nat (i + 1)) h "" else "" |}
        else v).
Proof.
  intros Hr h i len. unfold cursor_in_range in Hr. fold h i len in Hr. split.
  - unfold history_up. fold i h.
    destruct (0 <? i) eqn:Hi; [|reflexivity].
    apply Z.ltb_lt in Hi.
    rewrite (py_getitem_nth h (i - 1) "") by (unfold len in *; lia). reflexivity.
  - unfold history_down. fold i h len.
    destruct (i <? len) eqn:Hi; [|reflexivity].
    apply Z.ltb_lt in Hi.
    destruct (i <? len - 1) eqn:Hi1.
    + apply Z.ltb_lt in Hi1.
      rewrite (py_getitem_nth h (i + 1) "") by (unfold len in *; lia). cbn [bind].
      replace (i + 1 <? len) with true by (symmetry; apply Z.ltb_lt; lia).
      reflexivity.
    + apply Z.ltb_ge in Hi1.
      replace (i + 1 <? len) with false by (symmetry; apply Z.ltb_ge; lia).
      reflexivity.
Qed.

(** X16: with the cursor in range (from -1 at start-up to the length of
    the history), Up and Down never raise, leave the history alone and keep
    the cursor in range.  Up moves to the entry before, unless the cursor is
    at the oldest entry or before it; Down moves to the entry after, and past
    the newest entry it empties the entry field. *)
Theorem history_cursor_stays_in_range (v : HistoryView) :
  cursor_in_range v ->
  let h := hv_history v in
  let i := hv_index v in
  let len := Z.of_nat (List.length h) in
  let up :=
    if 0 <? i
    then {| hv_history := h; hv_index := i - 1;
            hv_entry := nth (Z.to_nat (i - 1)) h "" |}
    else v in
  let down :=
    if i <? len
    then {| hv_history := h; hv_index := i + 1;
            hv_entry := if i + 1 <? len then nth (Z.to_nat (i + 1)) h "" else "" |}
    else v in
  history_up v = Ok up /\ history_down v = Ok down /\
  cursor_in_range up /\ cursor_in_range down.
Proof.
  intros Hr h i len up down.
  destruct (history_moves v Hr) as [Eu Ed]. fold h i len in Eu, Ed.
  unfold cursor_in_range in Hr. fold h i len in Hr.
  split; [exact Eu|]. split; [exact Ed|].
  split.
  - subst up. unfold cursor_in_range.
    destruct (0 <? i) eqn:Hi; simpl; fold h len; [apply Z.ltb_lt in Hi|]; lia.
  - subst down. unfold cursor_in_range.
    destruct (i <? len) eqn:Hi; simpl; fold h len; [apply Z.ltb_lt in Hi|]; lia.
Qed.

Lemma history_cursor_stays_in_range_witness :
  cursor_in_range {| hv_history := ["AT"; "ATZ"]; hv_index := -1; hv_entry := "x" |} /\
  history_down {| hv_history := ["AT"; "ATZ"]; hv_index := -1; hv_entry := "x" |} =
  Ok {| hv_history := ["AT"; "ATZ"]; hv_index := 0; hv_entry := "AT" |}.
Proof.
  split; [unfold cursor_in_range; simpl; lia|].
  apply (history_cursor_stays_in_range
           {| hv_history := ["AT"; "ATZ"]; hv_index := -1; hv_entry := "x" |}).
  unfold cursor_in_range; simpl; lia.
Defined.

(** X17: Up and Down undo each other on the cursor.  From a cursor after
    the oldest entry, Up then Down comes back to it and shows the entry
    there (or the empty field past the newest entry); from a cursor on an
    entry before the newest, Down then Up comes back to it and shows it. *)
Theorem history_up_down_inverse (v : HistoryView) :
  cursor_in_range v ->
  let h := hv_history v in
  let i := hv_index v in
  let len := Z.of_nat (List.length h) in
  (0 < i ->
   (v' <- history_up v ;; history_down v') =
   Ok {| hv_history := h; hv_index := i;
         hv_entry := if i <? len then nth (Z.to_nat i) h "" else "" |}) /\
  (0 <= i < len ->
   (v' <- history_down v ;; history_up v') =
   Ok {| hv_history := h; hv_index := i; hv_entry := nth (Z.to_nat i) h "" |}).
Proof.
  intros Hr h i len. unfold cursor_in_range in Hr. fold h i len in Hr. split.
  - intros Hi.
    destruct (history_moves v Hr) as (Eu & _).
    fold h i len in Eu. cbv zeta in Eu. rewrite Eu. cbn [bind].
    replace (0 <? i) with true by (symmetry; apply Z.ltb_lt; lia).
    unfold history_down. simpl hv_index. simpl hv_history. fold len.
    replace (i - 1 <? len) with true by (symmetry; apply Z.ltb_lt; lia).
    destruct (i - 1 <? len - 1) eqn:Hi1.
    + apply Z.ltb_lt in Hi1.
      rewrite (py_getitem_nth h (i - 1 + 1) "") by (unfold len in *; lia). cbn [bind].
      replace (i - 1 + 1) with i by lia.
      replace (i <? len) with true by (symmetry; apply Z.ltb_lt; lia). reflexivity.
    + apply Z.ltb_ge in Hi1.
      replace (i - 1 + 1) with i by lia.
      replace (i <? len) with false by (symmetry; apply Z.ltb_ge; lia). reflexivity.
  - intros Hi.
    destruct (history_moves v Hr) as (_ & Ed).
    fold h i len in Ed. cbv zeta in Ed. rewrite Ed. cbn [bind].
    replace (i <? len) with true by (symmetry; apply Z.ltb_lt; lia).
    unfold history_up. simpl hv_index. simpl hv_history.
    replace (0 <? i + 1) with true by (symmetry; apply Z.ltb_lt; lia).
    rewrite (py_getitem_nth h (i + 1 - 1) "") by (unfold len in *; lia). cbn [bind].
    replace (i + 1 - 1) with i by lia. reflexivity.
Qed.

Lemma history_up_down_inverse_witness :
  cursor_in_range {| hv_history := ["AT"; "ATZ"]; hv_index := 2; hv_entry := "" |} /\
  (v' <- history_up {| hv_history := ["AT"; "ATZ"]; hv_index := 2; hv_entry := "" |} ;;
   history_down v') =
  Ok {| hv_history := ["AT"; "ATZ"]; hv_index := 2; hv_entry := "" |}.
Proof.
  split; [unfold cursor_in_range; simpl; lia|].
  apply (history_up_down_inverse
           {| hv_history := ["AT"; "ATZ"]; hv_index := 2; hv_entry := "" |});
    [unfold cursor_in_range; simpl; lia | simpl; lia].
Defined.

Lemma last_entry_nth (h : list string) (x : string) :
  last_entry h = Some x ->
  h <> [] /\ nth (List.length h - 1) h "" = x.
Proof.
  unfold last_entry. destruct (rev h) as [|y r] eqn:E; [discriminate|].
  intros [= ->].
  apply (f_equal (@rev string)) in E. rewrite rev_involutive in E. simpl in E.
  subst h. split; [destruct (rev r); discriminate|].
  rewrite length_app. simpl.
  replace (List.length (rev r) + 1 - 1)%nat with (List.length (rev r)) by lia.
  rewrite app_nth2 by lia. rewrite Nat.sub_diag. reflexivity.
Qed.

(** X18: after [_send_data] has taken a text (button enabled, entry not
    empty), the cursor is in range, and one Up recalls that very text,
    whether it was sent, rejected or failed to go out. *)
Theorem history_up_recalls_last_send (E : SendEnv) (st : SendState) :
  bt_send_disabled E = false -> entry_input st <> "" ->
  let view := view_after_send (send_data E st) in
  cursor_in_range view /\
  history_up view =
    Ok {| hv_history := hv_history view;
          hv_index := Z.of_nat (List.length (hv_history view)) - 1;
          hv_entry := entry_input st |}.
Proof.
  intros Hd Ht view.
  assert (Hh : hv_history view = history_after_send (command_history st) (entry_input st)).
  { subst view. simpl. apply send_data_history; assumption. }
  assert (Hi : hv_index view = Z.of_nat (List.length (hv_history view))).
  { subst view. simpl. f_equal.
    apply send_data_cursor; assumption. }
  destruct (last_entry_nth (hv_history view) (entry_input st)) as [Hne Hn].
  { rewrite Hh. apply history_after_send_last. }
  assert (Hlen : (0 < List.length (hv_history view))%nat).
  { destruct (hv_history view); [contradiction | simpl; lia]. }
  assert (Hr : cursor_in_range view) by (unfold cursor_in_range; lia).
  split; [exact Hr|].
  destruct (history_moves view Hr) as (Eu & _).
  cbv zeta in Eu. rewrite Eu, Hi.
  replace (0 <? Z.of_nat (List.length (hv_history view))) with true
    by (symmetry; apply Z.ltb_lt; lia).
  replace (Z.to_nat (Z.of_nat (List.length (hv_history view)) - 1))
    with (List.length (hv_history view) - 1)%nat by lia.
  rewrite Hn. reflexivity.
Qed.

Lemma history_up_recalls_last_send_witness :
  (bt_send_disabled hex_env = false /\ "zz" <> "") /\
  history_up (view_after_send
                (send_data hex_env
                   {| command_history := ["AT"]; history_index := 1;
                      entry_input := "zz" |})) =
  Ok {| hv_history := ["AT"; "zz"]; hv_index := 1; hv_entry := "zz" |}.
Proof.
  split; [split; [reflexivity | discriminate]|].
  apply (history_up_recalls_last_send hex_env
           {| command_history := ["AT"]; history_index := 1; entry_input := "zz" |});
    [reflexivity | discriminate].
Defined.

(** ** The display *)

Lemma display_chars_none (D : DisplayCfg) (clock : Clock) (tag s : string)
    (sol : bool) (t : nat) :
  display_timestamp D = "none" ->
  inserted_text (fst (fst (display_chars D clock tag s sol t))) =
    (if show_control_chars_var D && negb (hex_view_var D) then with_markers s else s) /\
  Forall (fun ins : insertion => In tag (snd ins))
    (fst (fst (display_chars D clock tag s sol t))).
Proof.
  intros Hts. revert sol t. induction s as [|c s IH]; intros sol t.
  - simpl. destruct (show_control_chars_var D && negb (hex_view_var D));
      split; try reflexivity; constructor.
  - simpl display_chars. rewrite Hts.
    change (get_timestamp (clock t) "none" (display_delimiter D)) with "".
    set (sol' := Ascii.eqb c LF
                 || (String.eqb (display_protocol D) "Modbus-RTU"
                     && String.eqb tag "received")).
    assert (Hboth : forall t1,
      let '(rest, sol0, t') := display_chars D clock tag s sol' t1 in
      inserted_text
        (fst (fst ([] ++ match (if show_control_chars_var D && negb (hex_view_var D)
                                then CONTROL_CHAR_MAP c else None) with
                         | Some marker => (marker, ["control_char"; tag])
                         | None => (String c "", [tag])
                         end :: rest, sol0, t')))
      = (if show_control_chars_var D && negb (hex_view_var D)
         then with_markers (String c s) else String c s) /\
      Forall (fun ins : insertion => In tag (snd ins))
        (fst (fst ([] ++ match (if show_control_chars_var D && negb (hex_view_var D)
                                then CONTROL_CHAR_MAP c else None) with
                         | Some marker => (marker, ["control_char"; tag])
                         | None => (String c "", [tag])
                         end :: rest, sol0, t')))).
    { intros t1. destruct (IH sol' t1) as [IHt IHf].
      destruct (display_chars D clock tag s sol' t1) as [[rest sol''] t''].
      simpl in IHt, IHf. simpl fst. simpl app.
      unfold inserted_text in *. simpl map. rewrite concat_str_cons, IHt.
      destruct (show_control_chars_var D && negb (hex_view_var D)).
      + simpl with_markers. destruct (CONTROL_CHAR_MAP c); simpl;
          (split; [reflexivity | constructor; [simpl; tauto | exact IHf]]).
      + simpl. split; [reflexivity | constructor; [simpl; tauto | exact IHf]]. }
    destruct sol; cbv iota beta.
    + specialize (Hboth (Datatypes.S t)).
      destruct (display_chars D clock tag s sol' (Datatypes.S t)) as [[rest sol''] t''].
      exact Hboth.
    + specialize (Hboth t).
      destruct (display_chars D clock tag s sol' t) as [[rest sol''] t''].
      exact Hboth.
Qed.

(** X19: without timestamps the panel gets every character of the text to
    display, in order and tagged with the caller's tag; when control
    characters are shown (and the hex view is off), each CR, LF and TAB
    appears as [[CR]], [[LF]] followed by the line feed, and [[TAB]]. *)
Theorem display_shows_every_character
    (D : DisplayCfg) (clock : Clock) (raw_data : option bytes)
    (text_data : option string) (tag : string) (start_of_line : bool) (t : nat) :
  display_timestamp D = "none" ->
  let shown := fst (fst (display_text D clock raw_data text_data tag start_of_line t)) in
  let text := display_string D raw_data text_data in
  inserted_text shown =
    (if show_control_chars_var D && negb (hex_view_var D) then with_markers text else text) /\
  Forall (fun ins : insertion => In tag (snd ins)) shown.
Proof. intros Hts. apply display_chars_none, Hts. Qed.

Lemma display_shows_every_character_witness :
  display_timestamp
    {| hex_view_var := false; show_control_chars_var := true; display_encoding := latin1;
       display_protocol := "None"; display_timestamp := "none";
       display_delimiter := "blank" |} = "none" /\
  inserted_text
    (fst (fst (display_text
                 {| hex_view_var := false; show_control_chars_var := true;
                    display_encoding := latin1; display_protocol := "None";
                    display_timestamp := "none"; display_delimiter := "blank" |}
                 frozen_clock (Some (encode_latin1 ("ok" +++ nl))) None "received" true 0)))
  = "ok[LF]" +++ nl.
Proof.
  split; [reflexivity|].
  rewrite (proj1 (display_shows_every_character
           {| hex_view_var := false; show_control_chars_var := true;
              display_encoding := latin1; display_protocol := "None";
              display_timestamp := "none"; display_delimiter := "blank" |}
           frozen_clock (Some (encode_latin1 ("ok" +++ nl))) None "received" true 0
           eq_refl)).
  reflexivity.
Defined.

Lemma display_chars_modbus (D : DisplayCfg) (clock : Clock) (s : string) (t : nat) :
  String.eqb (display_protocol D) "Modbus-RTU" = true ->
  (forall c, In c (list_ascii_of_string s) -> CONTROL_CHAR_MAP c = None) ->
  (forall k, get_timestamp (clock k) (display_timestamp D) (display_delimiter D) <> "") ->
  display_chars D clock "received" s true t =
  (stamped_chars clock (display_timestamp D) (display_delimiter D) t s,
   match s with EmptyString => true | _ => true end,
   (t + String.length s)%nat).
Proof.
  intros Hm Hc Hts. revert t. induction s as [|c s IH]; intros t.
  - simpl. rewrite Nat.add_0_r. reflexivity.
  - simpl display_chars. rewrite Hm.
    change (String.eqb "received" "received") with true.
    rewrite andb_true_r, orb_true_r.
    rewrite IH by (intros x Hx; apply Hc; right; exact Hx).
    rewrite (Hc c) by (left; reflexivity).
    specialize (Hts t).
    destruct (get_timestamp (clock t) (display_timestamp D) (display_delimiter D)) eqn:Eg;
      [contradiction|].
    destruct (show_control_chars_var D && negb (hex_view_var D)); simpl;
      rewrite Eg; destruct s; simpl;
      match goal with |- (_, _, ?x) = (_, _, ?y) => replace x with y by lia; reflexivity end.
Qed.

Lemma hex_dump_no_controls (raw : bytes) (c : ascii) :
  In c (list_ascii_of_string (bytes_hex_upper raw +++ " ")) -> CONTROL_CHAR_MAP c = None.
Proof.
  induction raw as [|b raw IH].
  - simpl. intros [<-|[]]. reflexivity.
  - rewrite bytes_hex_upper_cons, append_assoc.
    destruct (hex_pair b) as (h & l & vh & vl & E & _ & _ & _ & _ & _ & Sh & Sl & _ & _).
    rewrite E.
    assert (Hn : forall x, py_isspace x = false -> CONTROL_CHAR_MAP x = None).
    { intros x Hx.
      assert (Tb : forallb (fun x => py_isspace x || control_free x) all_ascii = true)
        by (vm_compute; reflexivity).
      pose proof (for_all_ascii _ Tb x) as T. cbv beta in T.
      rewrite Hx in T. unfold control_free in T.
      destruct (CONTROL_CHAR_MAP x); [discriminate | reflexivity]. }
    simpl. intros [<-|[<-|H]]; [apply Hn, Sh | apply Hn, Sl |].
    destruct raw as [|b' raw]; [exact (IH H)|].
    simpl in H. destruct H as [<-|H]; [reflexivity | exact (IH H)].
Qed.

(** X20: in Modbus mode, when the timestamp format gives a timestamp, the
    panel gets one before every character of a received chunk's hex dump:
    two insertions per character, six per byte of the chunk. *)
Theorem display_modbus_stamps_every_character
    (D : DisplayCfg) (clock : Clock) (raw : bytes) (t : nat) :
  String.eqb (display_protocol D) "Modbus-RTU" = true ->
  (forall k, get_timestamp (clock k) (display_timestamp D) (display_delimiter D) <> "") ->
  raw <> [] ->
  let result := display_text D clock (Some raw) None "received" true t in
  fst (fst result) =
    stamped_chars clock (display_timestamp D) (display_delimiter D) t
      (bytes_hex_upper raw +++ " ") /\
  List.length (fst (fst result)) = (6 * List.length raw)%nat /\
  snd (fst result) = true.
Proof.
  intros Hm Hts Hne. unfold display_text, display_string.
  destruct raw as [|b raw]; [contradiction|].
  rewrite Hm, orb_true_r.
  rewrite (display_chars_modbus D clock _ t Hm) by
    (try exact Hts; intros c Hc; apply (hex_dump_no_controls (b :: raw) c Hc)).
  cbv zeta. cbn [fst snd].
  split; [reflexivity|]. split.
  - assert (Hl : forall s k, List.length (stamped_chars clock (display_timestamp D)
                                 (display_delimiter D) k s) = (2 * String.length s)%nat).
    { induction s as [|c s IHs]; intros k; simpl; [reflexivity|]. rewrite IHs. lia. }
    rewrite Hl.
    assert (Hd : forall bs, String.length (bytes_hex_upper bs +++ " ")
                            = (3 * List.length bs + match bs with [] => 1 | _ => 0 end)%nat).
    { induction bs as [|x bs IHb]; [reflexivity|].
      rewrite bytes_hex_upper_cons, append_assoc.
      destruct (hex_pair x) as (h & l & vh & vl & E & _). rewrite E.
      destruct bs as [|y bs]; [reflexivity|].
      simpl String.length in *. rewrite IHb. simpl. lia. }
    rewrite Hd. simpl. lia.
  - destruct (bytes_hex_upper (b :: raw) +++ " "); reflexivity.
Qed.

Lemma display_modbus_stamps_every_character_witness :
  (String.eqb (display_protocol
     {| hex_view_var := false; show_control_chars_var := true; display_encoding := latin1;
        display_protocol := "Modbus-RTU"; display_timestamp := "Time";
        display_delimiter := "blank" |}) "Modbus-RTU" = true /\
   (forall k, get_timestamp (frozen_clock k) "Time" "blank" <> "") /\
   [x01] <> []) /\
  map fst (fst (fst (display_text
     {| hex_view_var := false; show_control_chars_var := true; display_encoding := latin1;
        display_protocol := "Modbus-RTU"; display_timestamp := "Time";
        display_delimiter := "blank" |} frozen_clock (Some [x01]) None "received" true 0)))
  = ["12:00:00.000 "; "0"; "12:00:00.000 "; "1"; "12:00:00.000 "; " "].
Proof.
  split; [repeat split; try reflexivity; discriminate|].
  pose proof (display_modbus_stamps_every_character
     {| hex_view_var := false; show_control_chars_var := true; display_encoding := latin1;
        display_protocol := "Modbus-RTU"; display_timestamp := "Time";
        display_delimiter := "blank" |} frozen_clock [x01] 0 eq_refl
     ltac:(intros k; discriminate) ltac:(discriminate)) as H.
  cbv zeta in H. destruct H as [H _].
  refine (eq_trans (f_equal (map fst) H) _). reflexivity.
Defined.

(** ** v1.5.3: the reader always releases the writer *)

Lemma serial_read_loop_v153_queues (script : list read_event) :
  fst (serial_read_loop_v153 true script) = fst (read_task true script) /\
  exists tail,
    snd (serial_read_loop_v153 true script) = map Some (delivered script) ++ tail /\
    (tail = [] \/ tail = [None]).
Proof.
  induction script as [|[|data|] rest IH]; simpl.
  - split; [reflexivity | exists []; split; [reflexivity | left; reflexivity]].
  - exact IH.
  - destruct IH as [IHg (tail & IHl & IHt)].
    destruct (serial_read_loop_v153 true rest) as [gui log].
    destruct (read_task true rest) as [calls e].
    simpl in *. subst gui log.
    destruct data as [|b data]; simpl.
    + split; [reflexivity | exists tail; split; [reflexivity | exact IHt]].
    + split; [reflexivity | exists tail; split; [reflexivity | exact IHt]].
  - split; [reflexivity | exists [None]; split; [reflexivity | right; reflexivity]].
Qed.

Section WriterFacts.
Variable clock : Clock.
Variable W : WriterCfg.
Hypothesis Hts : writer_timestamp W = "none".

Lemma writer_lines_none (lines : list string) (file : list file_op) (t : nat) :
  file_text (fst (writer_lines clock W lines file t)) = file_text file +++ unlines lines.
Proof.
  revert file t. induction lines as [|l lines IH]; intros file t.
  - simpl. symmetry. apply append_nil_r.
  - simpl writer_lines. rewrite IH, Hts, file_text_app. simpl.
    rewrite !append_assoc. reflexivity.
Qed.

Lemma writer_loop_to_sentinel (chunks : list bytes) (tail : list (option bytes))
    (buf : string) (dst : codec_state (writer_decoder W)) (file : list file_op) (t : nat) :
  let texts := decode_all (writer_decoder W) dst chunks in
  exists file' t',
    writer_loop clock W (map Some chunks ++ None :: tail) buf dst file t =
      (snd (feed_all buf texts), file', t', Terminated) /\
    file_text file' = file_text file +++ unlines (fst (feed_all buf texts)).
Proof.
  revert buf dst file t. induction chunks as [|raw rest IH]; intros buf dst file t.
  - simpl. exists file, t. rewrite append_nil_r. split; reflexivity.
  - simpl map. simpl app. simpl writer_loop. simpl decode_all.
    destruct (codec_decode (writer_decoder W) dst raw) as [dst' text].
    simpl feed_all. unfold feed.
    destruct (split_lines (buf +++ text)) as [lines pending].
    pose proof (writer_lines_none lines file t) as Hf.
    destruct (writer_lines clock W lines file t) as [file1 t1]. simpl in Hf.
    destruct (IH pending dst' file1 t1) as (file' & t' & E & Hf').
    cbv zeta in E, Hf'.
    destruct (feed_all pending (decode_all (writer_decoder W) dst' rest)) as [more final].
    exists file', t'. simpl in *. split; [exact E|].
    rewrite Hf', Hf, unlines_app, append_assoc. reflexivity.
Qed.

End WriterFacts.

(** X21: in v1.5.3 the read loop puts the sentinel on the log queue
    however it ends, also on a failure of the link, and the writer flushes
    what is left in its buffer: for every behaviour of the link, the log
    writer terminates with the file closed, and without timestamps the file
    holds every completed line of the data read, then the pending partial
    line, stripped and terminated, if there is one.  The display queue gets
    what the v2.0.1 loop hands to its callback. *)
Theorem v153_writer_always_finishes
    (clock : Clock) (W : WriterCfg) (script : list read_event) :
  writer_timestamp W = "none" -> writer_open_succeeds W = true ->
  let queues := serial_read_task_v153 true script in
  let input :=
    concat_str (decode_all (writer_decoder W) (codec_init (writer_decoder W))
                  (delivered script)) in
  let done := log_writer_task_v153 clock W (snd queues) in
  fst queues = fst (read_task true script) /\
  snd done = Terminated /\
  file_text (fst done) =
    unlines (fst (split_lines input)) +++ final_entry (snd (split_lines input)) /\
  last (fst done) FFlush = FClose.
Proof.
  intros Hts Hopen queues input done.
  destruct (serial_read_loop_v153_queues script) as [Hg (tail & Hl & Htail)].
  assert (Hq : snd queues = map Some (delivered script) ++ None :: tl (tail ++ [None])).
  { subst queues. unfold serial_read_task_v153.
    destruct (serial_read_loop_v153 true script) as [gui log]. simpl in *.
    rewrite Hl, <- app_assoc. destruct Htail as [->| ->]; reflexivity. }
  split.
  { subst queues. unfold serial_read_task_v153.
    destruct (serial_read_loop_v153 true script) as [gui log]. exact Hg. }
  subst done. unfold log_writer_task_v153. rewrite Hopen, Hq.
  destruct (writer_loop_to_sentinel clock W Hts (delivered script) (tl (tail ++ [None]))
              "" (codec_init (writer_decoder W)) [] O) as (file' & t' & E & Hf).
  cbv zeta in E, Hf. rewrite E.
  rewrite (feed_all_concat "" _ eq_refl) in *. simpl String.append in *.
  fold input in Hf |- *. simpl file_text in Hf.
  destruct (snd (split_lines input)) as [|c p] eqn:Ep.
  - simpl. rewrite file_text_app, Hf, last_last. simpl. repeat split; reflexivity.
  - rewrite Hts. simpl fst. simpl snd.
    rewrite !file_text_app, Hf, last_last. simpl. rewrite !append_nil_r.
    repeat split; reflexivity.
Qed.

Lemma v153_writer_always_finishes_witness :
  (writer_timestamp plain_writer = "none" /\ writer_open_succeeds plain_writer = true) /\
  log_writer_task_v153 frozen_clock plain_writer
    (snd (serial_read_task_v153 true
            [Incoming (encode_latin1 ("ab" +++ nl +++ "cd")); SerialException]))
  = ([FWrite ("ab" +++ nl); FFlush; FWrite ("cd" +++ nl); FClose], Terminated).
Proof.
  split; [split; reflexivity|].
  pose proof (v153_writer_always_finishes frozen_clock plain_writer
                [Incoming (encode_latin1 ("ab" +++ nl +++ "cd")); SerialException]
                eq_refl eq_refl) as H.
  cbv zeta in H. destruct H as (_ & H & _).
  destruct (log_writer_task_v153 frozen_clock plain_writer _) as [ops e] eqn:E.
  simpl in H. subst e. vm_compute in E. injection E as <-. reflexivity.
Defined.
